(** * lets: verb dispatch and the settings registry of [src/lets.py]

    A shallow embedding of the [Lets] class: the registry of settings
    (a Python dict of dicts, insertion ordered), the list of verbs, the
    terminal output and the [~/.letsrc] file are the fields of an explicit
    state that every method threads through.  An uncaught Python exception
    is a [Raise] result.

    Taken as given: the docstring parser [dissect_doc], Python's [str()] of
    a value, the functions of the plugins, and the wrapping and colouring
    of [_print].  Values are the three shapes of the data model; the length
    of a string is its number of characters.  The parser itself is modelled
    at the end, in [Docstring], on the stripped lines of a docstring. *)

From Stdlib Require Import String Ascii List ZArith Bool Arith Lia Permutation Sorted.
Import ListNotations.
Open Scope string_scope.

(** ** Python strings *)

Module PyStr.

(** [sub in s] for Python strings: [sub] occurs in [s] as a substring. *)
Fixpoint contains (sub s : string) : bool :=
  prefix sub s ||
  match s with
  | EmptyString => false
  | String _ rest => contains sub rest
  end.

(** [s.startswith(p)]. *)
Definition startswith (p s : string) : bool := prefix p s.

(** [s.split(sep, 1)] for a one-character separator: one element when the
    separator is absent, else the text before and after its first
    occurrence. *)
Fixpoint split1 (sep : ascii) (s : string) : list string :=
  match s with
  | EmptyString => [EmptyString]
  | String ch rest =>
      if Ascii.eqb ch sep then [EmptyString; rest]
      else match split1 sep rest with
           | hd :: tl => String ch hd :: tl
           | [] => [String ch EmptyString]
           end
  end.

(** [sep.join(l)]. *)
Definition join (sep : string) (l : list string) : string := String.concat sep l.

Fixpoint spaces (n : nat) : string :=
  match n with
  | O => EmptyString
  | S n' => String " "%char (spaces n')
  end.

(** The format specification [{s:>{width}}]: right aligned, padded with
    spaces on the left. *)
Definition rjust (width : nat) (s : string) : string :=
  spaces (width - String.length s) ++ s.

(** [x in l] for a list of strings. *)
Definition mem (x : string) (l : list string) : bool :=
  existsb (String.eqb x) l.

(** [l.remove(x)] when [x in l]: the first occurrence goes. *)
Fixpoint list_remove (x : string) (l : list string) : list string :=
  match l with
  | [] => []
  | y :: tl => if String.eqb x y then tl else y :: list_remove x tl
  end.

(** [max(...)] over a generator; [None] is the [ValueError] of an empty one. *)
Definition max_of (l : list nat) : option nat :=
  match l with
  | [] => None
  | x :: tl => Some (fold_left Nat.max tl x)
  end.

End PyStr.

(** ** Python dicts with string keys

    Insertion ordered: assigning to an existing key keeps its position,
    a new key goes last. *)

Module PyDict.

Definition t (V : Type) : Type := list (string * V).

Section Ops.
Context {V : Type}.

Fixpoint get (k : string) (d : t V) : option V :=
  match d with
  | [] => None
  | (k', v) :: tl => if String.eqb k k' then Some v else get k tl
  end.

Definition contains (k : string) (d : t V) : bool :=
  match get k d with Some _ => true | None => false end.

(** [d[k] = v]. *)
Fixpoint set (k : string) (v : V) (d : t V) : t V :=
  match d with
  | [] => [(k, v)]
  | (k', v') :: tl =>
      if String.eqb k k' then (k, v) :: tl else (k', v') :: set k v tl
  end.

(** [del d[k]] when [k in d]. *)
Fixpoint del (k : string) (d : t V) : t V :=
  match d with
  | [] => []
  | (k', v') :: tl => if String.eqb k k' then tl else (k', v') :: del k tl
  end.

Definition keys (d : t V) : list string := map fst d.

(** [d.update(other)]. *)
Definition update (d other : t V) : t V :=
  fold_left (fun acc kv => set (fst kv) (snd kv) acc) other d.

(** [{k: v for (k, v) in pairs}]. *)
Definition of_pairs (pairs : list (string * V)) : t V := update [] pairs.

(** Every key bound once, as in a real dict. *)
Definition wf (d : t V) : Prop := NoDup (keys d).
End Ops.

(** [a == b] for dicts: the same keys bound to equal values, whatever the
    insertion order. *)
Definition eqb {V : Type} (veqb : V -> V -> bool) (a b : t V) : bool :=
  Nat.eqb (List.length a) (List.length b) &&
  forallb (fun kv => match get (fst kv) b with
                     | Some v => veqb (snd kv) v
                     | None => false
                     end) a.

End PyDict.

(** ** Values, settings and the state of a [Lets] object *)

(** What a setting holds (spec section 3): a string, a list of strings or a
    flat dict of strings. *)
Inductive value : Type :=
| VStr (s : string)
| VList (l : list string)
| VDict (d : PyDict.t string).

(** [type(default)], kept in the setting's ["type"] field. *)
Inductive pytype : Type := TStr | TList | TDict.

Definition type_of (v : value) : pytype :=
  match v with VStr _ => TStr | VList _ => TList | VDict _ => TDict end.

Fixpoint list_eqb (a b : list string) : bool :=
  match a, b with
  | [], [] => true
  | x :: a', y :: b' => String.eqb x y && list_eqb a' b'
  | _, _ => false
  end.

(** Python's [==] on values. *)
Definition value_eqb (a b : value) : bool :=
  match a, b with
  | VStr x, VStr y => String.eqb x y
  | VList x, VList y => list_eqb x y
  | VDict x, VDict y => PyDict.eqb String.eqb x y
  | _, _ => false
  end.

(** [SettingType]: the dict made by [register_setting]. *)
Record Setting : Type := mkSetting {
  description : string;
  options : option (list string);
  svalue : value;
  stype : pytype
}.

Definition with_value (v : value) (st : Setting) : Setting :=
  mkSetting (description st) (options st) v (stype st).

Definition SettingContextType : Type := PyDict.t Setting.
Definition SettingsType : Type := PyDict.t SettingContextType.

(** The parsed content of [~/.letsrc]: context -> setting -> value. *)
Definition FileSettings : Type := PyDict.t (PyDict.t value).

(** The function a verb is bound to: a bound method of [Lets] or a function
    of a plugin module. *)
Inductive func : Type :=
| FHelp | FGet | FSet | FAdd | FRemove
| FPlugin (module_name fname : string).

(** [VerbType]. *)
Record VerbType : Type := mkVerb {
  vcontext : string;
  verb : string;
  process_func : func
}.

(** [RegisteredVerbType], an entry of the global [_registered_verbs];
    [rmodule] is [func.__module__]. *)
Record RegisteredVerbType : Type := mkRegistered {
  rname : string;
  rmodule : string;
  rfunc : func
}.

(** One call of [info], [warning] or [error]; the text is the argument of
    the call, before colouring and wrapping. *)
Inductive event : Type :=
| Info (text : string) (title : bool) (indent : nat)
| Warning (text : string)
| Error (text : string).

Inductive exn : Type :=
| ValueError (msg : string)
| AttributeError (msg : string)
| IndexError
| KeyError (key : string)
| TypeError
| UnboundLocalError.

Inductive result (A : Type) : Type :=
| Ret (a : A)
| Raise (e : exn).
Arguments Ret {A} a.
Arguments Raise {A} e.

Module Lets.

Record state : Type := mkState {
  _registered_settings : SettingsType;
  _verbs : list VerbType;
  (** what was printed, oldest first *)
  printed : list event;
  (** [~/.letsrc]; [None] when the file does not exist *)
  letsrc : option FileSettings;
  (** every settings dict handed to [yaml.dump] for [~/.letsrc], oldest
      first *)
  saved : list FileSettings
}.

Definition M (A : Type) : Type := state -> result A * state.

Definition ret {A} (a : A) : M A := fun s => (Ret a, s).
Definition raise {A} (e : exn) : M A := fun s => (Raise e, s).
Definition bind {A B} (m : M A) (k : A -> M B) : M B :=
  fun s => match m s with
           | (Ret a, s') => k a s'
           | (Raise e, s') => (Raise e, s')
           end.

Notation "x <- m ;; k" := (bind m (fun x => k))
  (at level 61, m at next level, right associativity).
Notation "m ;;; k" := (bind m (fun _ => k))
  (at level 61, right associativity).

Definition with_settings (r : SettingsType) (s : state) : state :=
  mkState r (_verbs s) (printed s) (letsrc s) (saved s).

Definition emit (e : event) : M unit :=
  fun s => (Ret tt,
            mkState (_registered_settings s) (_verbs s) (printed s ++ [e])
                    (letsrc s) (saved s)).

Definition info (text : string) : M unit := emit (Info text false 0).
Definition info_at (text : string) (title : bool) (indent : nat) : M unit :=
  emit (Info text title indent).
Definition warning (text : string) : M unit := emit (Warning text).
Definition error (text : string) : M unit := emit (Error text).

(** [for x in l: body(x)]. *)
Fixpoint for_each {A} (l : list A) (body : A -> M unit) : M unit :=
  match l with
  | [] => ret tt
  | x :: tl => body x ;;; for_each tl body
  end.

(** [self._registered_settings[c][n]]. *)
Definition lookup (r : SettingsType) (c n : string) : option Setting :=
  match PyDict.get c r with
  | Some settings => PyDict.get n settings
  | None => None
  end.

(** [self._registered_settings[c][n]["value"] = v]; the setting dict is
    shared with the registry, so a write through a resolved setting is a
    write at its key. *)
Definition assign (c n : string) (v : value) (r : SettingsType) : SettingsType :=
  match PyDict.get c r with
  | Some settings =>
      match PyDict.get n settings with
      | Some st => PyDict.set c (PyDict.set n (with_value v st) settings) r
      | None => r
      end
  | None => r
  end.

Definition set_value (c n : string) (v : value) : M unit :=
  fun s => (Ret tt, with_settings (assign c n v (_registered_settings s)) s).

(** lets.py:131 [_save_settings]: the whole registry, values only,
    overwrites the file.  [dump] is the dict of lets.py:133-135. *)
Definition dump (r : SettingsType) : FileSettings :=
  map (fun cs => (fst cs, map (fun ns => (fst ns, svalue (snd ns))) (snd cs))) r.

(** lets.py:137 [yaml.dump(settings_dict, f)] writes the keys of every
    mapping in sorted order (its [sort_keys] is on unless switched off), so
    that is the order in which a later [yaml.safe_load] gives them: the
    contexts, the setting names of each context and the keys of each dict
    value.  Strings are compared as Python compares them, character by
    character; sequences keep their order. *)
Fixpoint insert_sorted {V} (kv : string * V) (d : PyDict.t V) : PyDict.t V :=
  match d with
  | [] => [kv]
  | kv' :: tl =>
      if String.leb (fst kv) (fst kv') then kv :: kv' :: tl
      else kv' :: insert_sorted kv tl
  end.

Definition sort_keys {V} (d : PyDict.t V) : PyDict.t V :=
  fold_right insert_sorted [] d.

Definition yaml_value (v : value) : value :=
  match v with
  | VDict d => VDict (sort_keys d)
  | _ => v
  end.

Definition yaml_dump (d : FileSettings) : FileSettings :=
  sort_keys
    (map (fun cs => (fst cs,
                     sort_keys (map (fun nv => (fst nv, yaml_value (snd nv))) (snd cs))))
         d).

Definition _save_settings : M unit :=
  fun s => let d := dump (_registered_settings s) in
           (Ret tt,
            mkState (_registered_settings s) (_verbs s) (printed s)
                    (Some (yaml_dump d)) (saved s ++ [d])).

(** The pairs [(c, s)] of the comprehension shared by [_resolve_setting]
    (lets.py:160) and [get] (lets.py:230). *)
Definition matching (r : SettingsType) (context setting_name : string)
  : list (string * string) :=
  flat_map (fun cs =>
              map (fun n => (fst cs, n))
                  (filter (fun n => String.eqb n setting_name &&
                                    PyStr.mem context [""; fst cs])
                          (PyDict.keys (snd cs)))) r.

(** [arg if "." in arg else "." + arg], then [split(".", 1)]. *)
Definition qualify (arg : string) : string * string :=
  let context_setting := if PyStr.contains "." arg then arg else "." ++ arg in
  match PyStr.split1 "."%char context_setting with
  | [c; n] => (c, n)
  | _ => (context_setting, "")
  end.

Definition qualified (cn : string * string) : string := fst cn ++ "." ++ snd cn.

(** lets.py:152 [_resolve_setting]: the key of the setting and the setting,
    or [None]. *)
Definition _resolve_setting (arg : string) (graceful allow_protected : bool)
  : M (option (string * string * Setting)) :=
  let '(context, setting_name) := qualify arg in
  if PyStr.startswith "_" setting_name && negb allow_protected then
    error ("Unknown setting: " ++ arg) ;;; ret None
  else
    fun s =>
      let settings := matching (_registered_settings s) context setting_name in
      match settings with
      | _ :: _ :: _ =>
          (warning ("Ambiguous setting found. Use one of following settings: "
                    ++ PyStr.join ", " (map qualified settings)) ;;; ret None) s
      | [] =>
          ((if graceful then ret tt else error ("Unknown setting " ++ arg)) ;;;
           ret None) s
      | [(c, n)] =>
          match lookup (_registered_settings s) c n with
          | Some st => (Ret (Some (c, n, st)), s)
          | None => (Raise (KeyError n), s)
          end
      end.

(** lets.py:181 [get_setting]. *)
Definition get_setting (s : state) (context setting : string) : option value :=
  match lookup (_registered_settings s) context setting with
  | Some st => Some (svalue st)
  | None => None
  end.

(** lets.py:187 [set_setting]: [-1] or, falling off the end, [None]. *)
Definition set_setting (setting_name : string) (v : value) : M (option Z) :=
  r <- _resolve_setting setting_name false true ;;
  match r with
  | None => ret (Some (-1)%Z)
  | Some (c, n, st) =>
      if negb (value_eqb (svalue st) v) then
        set_value c n v ;;; _save_settings ;;; ret None
      else ret None
  end.


(** How [get] prints a value (lets.py:247). *)
Definition show_value (v : value) : string :=
  match v with
  | VList l => PyStr.join ", " l
  | VDict d => PyStr.join ", " (map (fun kv => fst kv ++ ":" ++ snd kv) d)
  | VStr x => x
  end.

(** lets.py:216 the arguments [get] works on when it is given none. *)
Definition all_settings (r : SettingsType) : list string :=
  flat_map (fun cs => map (fun n => fst cs ++ "." ++ n) (PyDict.keys (snd cs))) r.

(** lets.py:224-235 the settings an argument of [get] stands for: a whole
    context when the argument is the name of one, else every match of the
    name. *)
Definition get_matches (r : SettingsType) (arg : string) : list (string * string) :=
  match PyDict.get arg r with
  | Some settings => map (fun n => (arg, n)) (PyDict.keys settings)
  | None => let '(context, setting) := qualify arg in matching r context setting
  end.

(** lets.py:241-244 the matches of one argument go into [results], the
    protected ones skipped. *)
Fixpoint get_record (cns : list (string * string)) (results : PyDict.t value)
  : M (PyDict.t value) :=
  match cns with
  | [] => ret results
  | (c, n) :: tl =>
      if negb (PyStr.startswith "_" n) then
        fun s => match lookup (_registered_settings s) c n with
                 | Some st =>
                     get_record tl (PyDict.set (qualified (c, n)) (svalue st) results) s
                 | None => (Raise (KeyError n), s)
                 end
      else get_record tl results
  end.

(** lets.py:222-244 the loop over the arguments; [None] is the early
    [return -1]. *)
Fixpoint get_loop (args : list string) (results : PyDict.t value)
  : M (option (PyDict.t value)) :=
  match args with
  | [] => ret (Some results)
  | arg :: tl =>
      fun s =>
        let settings := get_matches (_registered_settings s) arg in
        match settings with
        | [] => (error ("Unknown setting " ++ arg) ;;; ret None) s
        | _ => (results' <- get_record settings results ;; get_loop tl results') s
        end
  end.

(** lets.py:215-220 without arguments [get] works on every registered
    setting. *)
Definition get_args (r : SettingsType) (args : list string) : list string :=
  match args with
  | [] => all_settings r
  | _ => args
  end.

Definition get_line (max_length : nat) (kv : string * value) : event :=
  Info (PyStr.rjust max_length (fst kv) ++ ": " ++ show_value (snd kv)) false 0.

(** lets.py:213 [get]. *)
Definition get (args : list string) : M Z :=
  fun s =>
    (r <- get_loop (get_args (_registered_settings s) args) [] ;;
     match r with
     | None => ret (-1)%Z
     | Some results =>
         match PyStr.max_of (map String.length (PyDict.keys results)) with
         | None => raise (ValueError "max() arg is an empty sequence")
         | Some max_length =>
             for_each results (fun kv => emit (get_line max_length kv)) ;;;
             ret 0%Z
         end
     end) s.

(** [val for val in values if ":" not in val]. *)
Definition invalid_values (values : list string) : list string :=
  filter (fun val => negb (PyStr.contains ":" val)) values.

(** [{val[0]: val[1] for val in [key_val.split(":", 1) for key_val in values]}],
    reached only when every entry has a [":"]. *)
Definition key_val (entry : string) : string * string :=
  match PyStr.split1 ":"%char entry with
  | [k; v] => (k, v)
  | _ => (entry, "")
  end.

Definition parse_dict (values : list string) : PyDict.t string :=
  PyDict.of_pairs (map key_val values).

Definition invalid_values_msg (bad : list string) : string :=
  "Invalid values found for dictionary setting: " ++ PyStr.join ", " bad ++ ". "
  ++ "Values must be in the form of key:value".

(** lets.py:263 the value the options are checked on: for a dict setting
    element 1 of the split of the first value argument, taken unguarded
    ([None] is the [IndexError]); the argument itself otherwise. *)
Definition candidate (t : pytype) (arg1 : string) : option string :=
  match t with
  | TDict => nth_error (PyStr.split1 ":"%char arg1) 1
  | _ => Some arg1
  end.

(** lets.py:261-264 the options check of [set]: [true] when the value is
    refused. *)
Definition set_refused (st : Setting) (arg1 : string) : M bool :=
  match options st with
  | None => ret false
  | Some opts =>
      match candidate (stype st) arg1 with
      | Some v => ret (negb (PyStr.mem v opts))
      | None => raise IndexError
      end
  end.

(** lets.py:269 and 279 [new_value]: the arguments after the name for a list,
    those arguments parsed as [key:value] for a dict, the first of them
    otherwise. *)
Definition new_value (t : pytype) (arg1 : string) (rest : list string) : value :=
  match t with
  | TDict => VDict (parse_dict (arg1 :: rest))
  | TList => VList (arg1 :: rest)
  | TStr => VStr arg1
  end.

(** lets.py:280-282. *)
Definition store_if_changed (c n : string) (st : Setting) (new_value : value) : M Z :=
  (if negb (value_eqb (svalue st) new_value) then
     set_value c n new_value ;;; _save_settings
   else ret tt) ;;;
  ret 0%Z.

(** lets.py:251 [set]. *)
Definition set (args : list string) : M Z :=
  match args with
  | name :: arg1 :: rest =>
      r <- _resolve_setting name false false ;;
      match r with
      | None => ret (-1)%Z
      | Some (c, n, st) =>
          refused <- set_refused st arg1 ;;
          if refused then
            error ("Unsupported value " ++ arg1 ++ ". Choose between "
                   ++ PyStr.join ", " (match options st with
                                        | Some o => o | None => [] end)) ;;;
            ret (-1)%Z
          else
            match stype st, invalid_values (arg1 :: rest) with
            | TDict, (_ :: _) as bad => error (invalid_values_msg bad) ;;; ret (-1)%Z
            | t, _ => store_if_changed c n st (new_value t arg1 rest)
            end
      end
  | _ => warning "Usage: set [setting] [value1] [value2]" ;;; ret (-1)%Z
  end.

(** lets.py:285 [add]. *)
Definition add (args : list string) : M Z :=
  match args with
  | name :: arg1 :: rest =>
      r <- _resolve_setting name false false ;;
      match r with
      | None => ret (-1)%Z
      | Some (c, n, st) =>
          match stype st with
          | TList =>
              match svalue st with
              | VList l =>
                  set_value c n (VList (l ++ arg1 :: rest)) ;;;
                  _save_settings ;;; ret 0%Z
              | _ => raise (AttributeError "extend")
              end
          | TDict =>
              match invalid_values (arg1 :: rest) with
              | [] =>
                  match svalue st with
                  | VDict d =>
                      set_value c n (VDict (PyDict.update d (parse_dict (arg1 :: rest)))) ;;;
                      _save_settings ;;; ret 0%Z
                  | _ => raise (AttributeError "update")
                  end
              | bad => error (invalid_values_msg bad) ;;; ret (-1)%Z
              end
          | TStr => error ("Setting " ++ name ++ " not a list or dict") ;;; ret (-1)%Z
          end
      end
  | _ => warning "Usage: add [setting] [value1] [value2]" ;;; ret (-1)%Z
  end.

(** lets.py:325-327 and 329-331: the loops of [remove] over the value the
    setting holds.  The value is changed in place, so it comes back also
    when a step raises. *)
Fixpoint remove_list (v : value) (vals : list string) : value * option exn :=
  match vals with
  | [] => (v, None)
  | val :: tl =>
      match v with
      | VList l =>
          if PyStr.mem val l then remove_list (VList (PyStr.list_remove val l)) tl
          else remove_list v tl
      | VStr x =>
          if PyStr.contains val x then (v, Some (AttributeError "remove"))
          else remove_list v tl
      | VDict d =>
          if PyDict.contains val d then (v, Some (AttributeError "remove"))
          else remove_list v tl
      end
  end.

Fixpoint remove_dict (v : value) (vals : list string) : value * option exn :=
  match vals with
  | [] => (v, None)
  | val :: tl =>
      match v with
      | VDict d =>
          if PyDict.contains val d then remove_dict (VDict (PyDict.del val d)) tl
          else remove_dict v tl
      | VList l =>
          if PyStr.mem val l then (v, Some TypeError) else remove_dict v tl
      | VStr x =>
          if PyStr.contains val x then (v, Some TypeError) else remove_dict v tl
      end
  end.

Definition remove_finish (c n : string) (r : value * option exn) : M Z :=
  set_value c n (fst r) ;;;
  match snd r with
  | Some e => raise e
  | None => _save_settings ;;; ret 0%Z
  end.

(** lets.py:314 [remove]. *)
Definition remove (args : list string) : M Z :=
  match args with
  | name :: arg1 :: rest =>
      r <- _resolve_setting name false false ;;
      match r with
      | None => ret (-1)%Z
      | Some (c, n, st) =>
          match stype st with
          | TList => remove_finish c n (remove_list (svalue st) (arg1 :: rest))
          | TDict => remove_finish c n (remove_dict (svalue st) (arg1 :: rest))
          | TStr => error ("Setting " ++ name ++ " not a list or dict") ;;; ret (-1)%Z
          end
      end
  | _ => warning "Usage: remove [setting] [value1] [value2]" ;;; ret (-1)%Z
  end.

(** lets.py:339 [register_setting]. *)
Definition register_setting (context setting descr : string)
    (opts : option (list string)) (default : value) : M unit :=
  fun s =>
    let r := _registered_settings s in
    match lookup r context setting with
    | Some _ =>
        (Raise (ValueError ("Setting " ++ context ++ "." ++ setting ++ " already exists")), s)
    | None =>
        let r1 := if PyDict.contains context r then r else PyDict.set context [] r in
        let settings := match PyDict.get context r1 with Some x => x | None => [] end in
        (Ret tt,
         with_settings
           (PyDict.set context
              (PyDict.set setting (mkSetting descr opts default (type_of default)) settings)
              r1) s)
    end.

(** lets.py:112 [set(file_settings.keys()) - set(self._registered_settings.keys())].
    A Python set holds a name once and iterates in no fixed order; the model
    lists it in the order of the file. *)
Definition unknown_contexts (file : FileSettings) (r : SettingsType) : list string :=
  nodup string_dec (filter (fun c => negb (PyDict.contains c r)) (PyDict.keys file)).

(** lets.py:117. *)
Definition known_part (file : FileSettings) (r : SettingsType) : FileSettings :=
  filter (fun cv => negb (PyStr.mem (fst cv) (unknown_contexts file r))) file.

(** lets.py:120-122, for a file whose contexts are all registered; a set
    again. *)
Definition unknown_settings (file : FileSettings) (r : SettingsType) : list string :=
  nodup string_dec
    (flat_map (fun cv =>
                 map (fun n => fst cv ++ "." ++ n)
                     (filter (fun n => match PyDict.get (fst cv) r with
                                       | Some settings => negb (PyDict.contains n settings)
                                       | None => true
                                       end)
                             (PyDict.keys (snd cv)))) file).

(** lets.py:127-129. *)
Definition load_values (file : FileSettings) (r : SettingsType) : SettingsType :=
  fold_left (fun acc cv =>
               fold_left (fun acc' nv => assign (fst cv) (fst nv) (snd nv) acc')
                         (snd cv) acc) file r.

(** lets.py:103 [_load_settings]. *)
Definition _load_settings : M unit :=
  fun s =>
    match letsrc s with
    | None => (Ret tt, s)
    | Some file_settings =>
        let r := _registered_settings s in
        let unknown := unknown_contexts file_settings r in
        ((match unknown with
          | [] => ret tt
          | _ => warning ("Unknown contexts found in .letsrc: " ++ PyStr.join " ," unknown)
          end) ;;;
         let file_settings := known_part file_settings r in
         match unknown_settings file_settings r with
         | [] => fun s' => (Ret tt, with_settings (load_values file_settings r) s')
         | bad => raise (AttributeError ("Unknown contexts found in .letsrc: "
                                         ++ PyStr.join " ," bad))
         end) s
    end.

(** lets.py:69-75 the loop of [__init__] over [_registered_verbs]. *)
Fixpoint register_verbs (registered : list RegisteredVerbType) : M unit :=
  match registered with
  | [] => ret tt
  | v :: tl =>
      fun s =>
        let context := rmodule v in
        let name := rname v in
        match filter (fun c => String.eqb (vcontext c) context && String.eqb (verb c) name)
                     (_verbs s) with
        | [] =>
            register_verbs tl
              (mkState (_registered_settings s)
                       (_verbs s ++ [mkVerb context name (rfunc v)])
                       (printed s) (letsrc s) (saved s))
        | _ => (Raise (ValueError ("Verb " ++ context ++ "." ++ name ++ " already exists")), s)
        end
  end.

(** lets.py:58 [__init__].  [_load_plugins] is what the plugins' [init]
    functions do to the object; [_registered_verbs] is the global list once
    the plugins are loaded; [this_module] is the name of the module that
    defines [Lets]. *)
Definition __init__ (this_module : string) (_load_plugins : M unit)
    (_registered_verbs : list RegisteredVerbType) (file : option FileSettings)
  : result unit * state :=
  (_load_plugins ;;;
   register_verbs (_registered_verbs ++
                   [mkRegistered "help" this_module FHelp;
                    mkRegistered "get" this_module FGet;
                    mkRegistered "set" this_module FSet;
                    mkRegistered "add" this_module FAdd;
                    mkRegistered "remove" this_module FRemove]) ;;;
   register_setting "lets" "plugin_folders" "List of folders to look for plugins"
                    None (VList []) ;;;
   register_setting "lets" "verbose" "Sets the default verbose mode"
                    (Some ["on"; "off"]) (VStr "off") ;;;
   _load_settings)
  (mkState [] [] [] file []).


(** ** Help and dispatch *)

(** What [dissect_doc] (lets.py:364) returns for a handler. *)
Record Doc : Type := mkDoc {
  summary : string;
  doc_description : string;
  doc_options : list string;
  examples : list string
}.

Definition help_intro_1 : string :=
  "  'Lets' simplifies the execution of common tasks. It takes a verb and options from the command line and runs the associated callback function to complete the task. A simple command could look like 'lets build hello_world'. The options are chosen such that natural sentences can be constructed: 'lets build hello_world clean' to clean the output folder prior to building or 'lets set verbose on' to turn verbose mode permanently on. The order of options is arbitrary unless explicitly stated otherwise.".

Definition help_intro_2 : string :=
  "  Settings are used to store semi static options persistently such that these can be omitted from the command line. An example could be the build flavor which is typically set to 'debug'. Settings can typically be overridden at the command line. 'lets build hello_world release' will force hello world to be built for release even when the default is debug.".

Definition help_intro_3 : string :=
  "  A verb exists of two parts: [CONTEXT].[VERB_NAME]. The context is used to distinguish between identical verbs exposed by multiple contexts. If the verb name is unique across all contexts, the context can be omitted.".

(** lets.py:504 [_resolve_verbs]. *)
Definition _resolve_verbs (s : state) (arg : string) : list VerbType :=
  let '(context, _verb) := qualify arg in
  filter (fun c => String.eqb (verb c) _verb && PyStr.mem context [""; vcontext c])
         (_verbs s).

Definition ambiguous_verb_msg (verbs : list VerbType) : string :=
  "Ambiguous verb found. Use one of following verbs: "
  ++ PyStr.join ", " (map (fun c => vcontext c ++ "." ++ verb c) verbs).

(** lets.py:532-533 [while "verbose" in args: del args[args.index("verbose")]]. *)
Definition strip_verbose (args : list string) : list string :=
  filter (fun a => negb (String.eqb a "verbose")) args.

(** lets.py:432-440 the lines of [help] under AVAILABLE SETTINGS. *)
Definition setting_line (max_setting_length : nat) (context name : string)
    (setting_info : Setting) : event :=
  Info ("  " ++ PyStr.rjust max_setting_length (context ++ "." ++ name)
        ++ ": " ++ description setting_info)
       false (max_setting_length + 4).

Definition list_settings (max_setting_length : nat) (r : SettingsType) : M unit :=
  for_each r
    (fun cs =>
       for_each (snd cs)
         (fun ns =>
            if PyStr.startswith "_" (fst ns) then ret tt
            else emit (setting_line max_setting_length (fst cs) (fst ns) (snd ns)))).

Section Dispatch.

(** The docstring parser of [help], the text Python's [str()] gives for a
    value, and the functions of the plugin modules are taken as given. *)
Variable dissect_doc : func -> result Doc.
Variable py_str : value -> string.
Variable plugin_call : string -> string -> string -> list string -> M Z.

Definition dissect (f : func) : M Doc :=
  fun s => (dissect_doc f, s).

(** lets.py:419-424 the lines of [help] under AVAILABLE VERBS. *)
Definition verb_line (max_verb_length : nat) (cmd : VerbType) (doc : Doc) : event :=
  Info ("  " ++ PyStr.rjust max_verb_length (vcontext cmd ++ "." ++ verb cmd)
        ++ ": " ++ summary doc)
       false (max_verb_length + 4).

Definition list_verbs (max_verb_length : nat) (verbs : list VerbType) : M unit :=
  for_each verbs
    (fun cmd =>
       doc <- dissect (process_func cmd) ;;
       emit (verb_line max_verb_length cmd doc)).

(** lets.py:389-442 [help] without arguments. *)
Definition help_overview : M Z :=
  info "Usage: Lets [VERB] [OPTIONS]" ;;;
  info "" ;;;
  info_at "DESCRIPTION" true 0 ;;;
  info_at help_intro_1 false 2 ;;;
  info "" ;;;
  info_at help_intro_2 false 2 ;;;
  info "" ;;;
  info_at help_intro_3 false 2 ;;;
  info "" ;;;
  info_at "AVAILABLE VERBS:" true 0 ;;;
  (fun s =>
     match PyStr.max_of (map (fun c => String.length (vcontext c ++ verb c)) (_verbs s)) with
     | None => (Raise (ValueError "max() arg is an empty sequence"), s)
     | Some m => list_verbs (m + 1) (_verbs s) s
     end) ;;;
  info "" ;;;
  info "Use 'lets help [VERB]' for more information about the verb" ;;;
  info "" ;;;
  info_at "AVAILABLE SETTINGS:" true 0 ;;;
  (fun s =>
     let r := _registered_settings s in
     match PyStr.max_of
             (flat_map (fun cs => map (fun n => String.length (fst cs ++ n) + 1)
                                      (PyDict.keys (snd cs))) r) with
     | None => (Raise (ValueError "max() arg is an empty sequence"), s)
     | Some max_setting_length => list_settings max_setting_length r s
     end) ;;;
  info "" ;;;
  info "Use 'lets help [SETTING]' for more information about the setting" ;;;
  ret 0%Z.

Definition first_field (line : string) : string :=
  hd "" (PyStr.split1 ":"%char line).

(** lets.py:456-476 the text about a verb. *)
Definition help_verb (cmd : VerbType) : M unit :=
  info ("Usage: lets " ++ vcontext cmd ++ "." ++ verb cmd ++ " [OPTIONS]") ;;;
  doc <- dissect (process_func cmd) ;;
  info "" ;;;
  info_at "SUMMARY" true 0 ;;;
  info_at ("  " ++ summary doc) false 2 ;;;
  (if String.eqb (doc_description doc) "" then ret tt
   else info "" ;;; info_at "DESCRIPTION" true 0 ;;;
        info_at ("  " ++ doc_description doc) false 2) ;;;
  (match doc_options doc with
   | [] => ret tt
   | opts => info "" ;;; info_at "OPTIONS" true 0 ;;;
             for_each opts (fun option =>
               info_at ("  " ++ option) false (String.length (first_field option) + 4))
   end) ;;;
  (match examples doc with
   | [] => ret tt
   | exs => info "" ;;; info_at "EXAMPLES" true 0 ;;;
            for_each exs (fun example =>
              info_at ("  " ++ example) false (String.length (first_field example) + 4))
   end).

(** lets.py:477-501 the text about a setting. *)
Definition help_setting (arg : string) (st : Setting) : M unit :=
  let opts := match options st with Some o => o | None => [] end in
  info_at "DESCRIPTION" true 0 ;;;
  info_at ("  " ++ description st) false 2 ;;;
  info ("  Type: " ++ match stype st with
                      | TDict => "Dictionary" | TList => "List" | TStr => "String"
                      end) ;;;
  info_at ("  Current value: " ++ py_str (svalue st)) false 2 ;;;
  (match opts with
   | [] => ret tt
   | _ => info ("  Valid options: " ++ PyStr.join ", " opts)
   end) ;;;
  info "" ;;;
  info_at "USAGE" true 0 ;;;
  (match stype st with
   | TDict =>
       info ("  lets set " ++ arg ++ " [key1:value1] [key2:value2] ...") ;;;
       info ("  lets add " ++ arg ++ " [key1:value1] [key2:value2] ...") ;;;
       info ("  lets remove " ++ arg ++ " [key1] [key2] ...")
   | TList =>
       info ("  lets set " ++ arg ++ " [value1] [value2] ...") ;;;
       info ("  lets add " ++ arg ++ " [value1] [value2] ...") ;;;
       info ("  lets remove " ++ arg ++ " [value1] [value2] ...")
   | TStr =>
       info ("  lets set " ++ arg ++ " ["
             ++ match opts with [] => "value" | _ => PyStr.join "|" opts end ++ "]")
   end) ;;;
  info ("  lets get " ++ arg).

(** lets.py:444-501 the loop of [help] over its arguments. *)
Fixpoint help_topics (args : list string) : M Z :=
  match args with
  | [] => ret 0%Z
  | arg :: tl =>
      fun s =>
        let verbs := _resolve_verbs s arg in
        (setting <- _resolve_setting arg true false ;;
         match verbs, setting with
         | [], None => info ("Unknown option: " ++ arg) ;;; ret (-1)%Z
         | _ :: _ :: _, _ => warning (ambiguous_verb_msg verbs) ;;; ret (-1)%Z
         | _, _ =>
             (match verbs with
              | cmd :: _ => help_verb cmd
              | [] => ret tt
              end) ;;;
             (match setting with
              | Some (_, _, st) => help_setting arg st
              | None => ret tt
              end) ;;;
             help_topics tl
         end) s
  end.

(** lets.py:361 [help]. *)
Definition help (args : list string) : M Z :=
  match args with
  | [] => help_overview
  | _ => help_topics args
  end.

(** [_verb["process_func"](self, name, args)]. *)
Definition call (f : func) (name : string) (args : list string) : M Z :=
  match f with
  | FHelp => help args
  | FGet => get args
  | FSet => set args
  | FAdd => add args
  | FRemove => remove args
  | FPlugin m fn => plugin_call m fn name args
  end.

(** lets.py:529-533 the [verbose] check, on the whole argument list. *)
Definition check_verbose (_verb : VerbType) (args : list string) : M (list string) :=
  if negb (String.eqb (vcontext _verb) "lets") && negb (PyStr.mem (verb _verb) ["get"; "set"])
  then
    if PyStr.mem "verbose" args || PyStr.mem "lets.verbose" args then
      fun s =>
        match PyDict.get "lets" (_registered_settings s) with
        | None => (Raise (KeyError "lets"), s)
        | Some settings =>
            match PyDict.get "verbose" settings with
            | None => (Raise (KeyError "verbose"), s)
            | Some _ =>
                (Ret (strip_verbose args),
                 with_settings (assign "lets" "verbose" (VStr "on") (_registered_settings s)) s)
            end
        end
    else ret args
  else ret args.

(** lets.py:510 [process_arguments]. *)
Definition process_arguments (args : list string) : M Z :=
  match args with
  | [] => help [] ;;; ret (-1)%Z
  | arg0 :: _ =>
      fun s =>
        match _resolve_verbs s arg0 with
        | (_ :: _ :: _) as verbs => (warning (ambiguous_verb_msg verbs) ;;; ret (-1)%Z) s
        | [] => (error ("Unknown verb " ++ arg0) ;;; ret (-1)%Z) s
        | [_verb] =>
            (args' <- check_verbose _verb args ;;
             if PyStr.mem "help" (tl args') then
               help [vcontext _verb ++ "." ++ verb _verb] ;;; ret 0%Z
             else
               match args' with
               | [] => raise IndexError
               | name :: rest => call (process_func _verb) name rest
               end) s
        end
  end.

End Dispatch.

(** ** A sample installation

    The object [__init__] builds when the plugins [build] and [test] are
    found and there is no [~/.letsrc]. *)

Definition sample_plugins : M unit :=
  register_setting "build" "verbose" "Verbosity of the build" None (VStr "low") ;;;
  register_setting "build" "_token" "Access token" None (VStr "t0") ;;;
  register_setting "build" "env" "Environment of the build" (Some ["dev"; "prod"])
                   (VDict [("stage", "dev")]) ;;;
  register_setting "build" "defines" "Preprocessor symbols" None (VDict [("k", "1")]) ;;;
  register_setting "test" "suites" "Suites to run" None (VList ["unit"; "smoke"]).

Definition sample_verbs : list RegisteredVerbType :=
  [mkRegistered "run" "build" (FPlugin "build" "run");
   mkRegistered "run" "test" (FPlugin "test" "run");
   mkRegistered "deploy" "build" (FPlugin "build" "deploy")].

(** The object when no plugin is found: the reserved settings and the
    built-in verbs only. *)
Definition bare : state :=
  Eval vm_compute in snd (__init__ "lets" (ret tt) [] None).

Definition sample : state :=
  Eval vm_compute in snd (__init__ "lets" sample_plugins sample_verbs None).

(** Plugin functions that print how they were called and succeed, handlers
    without docstring sections, and a rendering of values for [help]. *)
Definition sample_call (m f name : string) (args : list string) : M Z :=
  info (m ++ "." ++ f ++ " as " ++ name ++ ": " ++ PyStr.join " " args) ;;; ret 0%Z.

Definition sample_docs (f : func) : result Doc :=
  Ret (mkDoc "A verb" "" [] []).

Definition sample_str (v : value) : string := show_value v.

(** ** Properties *)

Lemma sample_initialised :
  __init__ "lets" sample_plugins sample_verbs None = (Ret tt, sample) /\
  __init__ "lets" (ret tt) [] None = (Ret tt, bare).
Proof. split; reflexivity. Qed.

(** Only the terminal output differs between two states. *)
Definition unchanged (s s' : state) : Prop :=
  _registered_settings s' = _registered_settings s /\
  _verbs s' = _verbs s /\
  letsrc s' = letsrc s /\
  saved s' = saved s.

(** A state after one more printed line. *)
Definition says (e : event) (s : state) : state := snd (emit e s).

Ltac run :=
  unfold bind, ret, raise, error, warning, info, info_at, emit, says; simpl.

(** *** Strings *)

Lemma prefix_colon ch rest sep :
  prefix (String sep EmptyString) (String ch rest) = Ascii.eqb ch sep.
Proof.
  simpl. destruct (ascii_dec sep ch) as [->|Hne].
  - rewrite Ascii.eqb_refl. now destruct rest.
  - symmetry. apply Ascii.eqb_neq. congruence.
Qed.

Lemma split1_absent sep s :
  PyStr.contains (String sep EmptyString) s = false -> PyStr.split1 sep s = [s].
Proof.
  induction s as [|ch rest IH]; simpl PyStr.split1; [reflexivity|].
  intros H. unfold PyStr.contains in H; fold PyStr.contains in H.
  rewrite prefix_colon in H. apply orb_false_iff in H as [Hch Hrest].
  rewrite Hch, (IH Hrest). reflexivity.
Qed.

(** An unqualified name is looked up under the wildcard context. *)
Lemma qualify_unqualified name :
  PyStr.contains "." name = false -> qualify name = ("", name).
Proof.
  intros H. unfold qualify. rewrite H. reflexivity.
Qed.

(** *** Resolution of a setting *)

Definition ambiguous_setting_msg (settings : list (string * string)) : string :=
  "Ambiguous setting found. Use one of following settings: "
  ++ PyStr.join ", " (map qualified settings).

Lemma resolve_protected arg graceful s :
  PyStr.startswith "_" (snd (qualify arg)) = true ->
  _resolve_setting arg graceful false s
  = (Ret None, says (Error ("Unknown setting: " ++ arg)) s).
Proof.
  intros H. unfold _resolve_setting. destruct (qualify arg) as [c n].
  simpl in H. rewrite H. reflexivity.
Qed.

Lemma resolve_ambiguous arg graceful allow s c1 c2 more :
  (PyStr.startswith "_" (snd (qualify arg)) && negb allow = false) ->
  matching (_registered_settings s) (fst (qualify arg)) (snd (qualify arg))
  = c1 :: c2 :: more ->
  _resolve_setting arg graceful allow s
  = (Ret None, says (Warning (ambiguous_setting_msg (c1 :: c2 :: more))) s).
Proof.
  intros Hp Hm. unfold _resolve_setting. destruct (qualify arg) as [c n].
  simpl in Hp, Hm. rewrite Hp, Hm. destruct c1. reflexivity.
Qed.

(** Whatever [_resolve_setting] answers, it has at most printed a line; a
    setting it returns is the one the registry holds at the returned key. *)
Lemma resolve_inv arg graceful allow s r s' :
  _resolve_setting arg graceful allow s = (r, s') ->
  unchanged s s' /\
  (forall c n st, r = Ret (Some (c, n, st)) ->
     s' = s /\ lookup (_registered_settings s) c n = Some st).
Proof.
  unfold _resolve_setting. destruct (qualify arg) as [ctx nm].
  destruct (PyStr.startswith "_" nm && negb allow).
  - run. intros [= <- <-]. split; [repeat split | discriminate].
  - destruct (matching (_registered_settings s) ctx nm) as [|[c n] [|c2 more]].
    + destruct graceful; run; intros [= <- <-]; (split; [repeat split | discriminate]).
    + destruct (lookup (_registered_settings s) c n) eqn:Hl; intros [= <- <-].
      * split; [repeat split|]. intros ? ? ? [= <- <- <-]. auto.
      * split; [repeat split | discriminate].
    + run. intros [= <- <-]. split; [repeat split | discriminate].
Qed.

Lemma resolve_found arg graceful allow s c n st s' :
  _resolve_setting arg graceful allow s = (Ret (Some (c, n, st)), s') ->
  s' = s /\ lookup (_registered_settings s) c n = Some st.
Proof.
  intros H. apply resolve_inv in H as [_ H]. now apply H.
Qed.

(** *** C9: the unguarded index of [set] on a dict setting with options *)

(** C9. For a dict setting that declares options, [set] checks the options
    on its first value argument before it looks for malformed entries, and
    takes element 1 of the split on [":"] unguarded: when that argument has
    no [":"] the call raises [IndexError] and prints nothing, whatever the
    other arguments are.  The same call on a dict setting without options
    reaches the malformed entry check and returns [-1] with its message. *)
Theorem set_dict_options_unguarded_index :
  forall s name arg1 rest c n st,
    _resolve_setting name false false s = (Ret (Some (c, n, st)), s) ->
    stype st = TDict ->
    PyStr.contains ":" arg1 = false ->
    (forall opts, options st = Some opts ->
       set (name :: arg1 :: rest) s = (Raise IndexError, s)) /\
    (options st = None ->
       set (name :: arg1 :: rest) s
       = (Ret (-1)%Z,
          says (Error (invalid_values_msg (invalid_values (arg1 :: rest)))) s)).
Proof.
  intros s name arg1 rest c n st Hres Hty Hno. split.
  - intros opts Hopts. unfold set, bind. rewrite Hres.
    unfold set_refused, candidate. rewrite Hopts, Hty.
    rewrite (split1_absent ":"%char arg1 Hno). reflexivity.
  - intros Hopts. unfold set, bind. rewrite Hres.
    unfold set_refused. rewrite Hopts, Hty. simpl.
    rewrite Hno. reflexivity.
Qed.

Lemma set_dict_options_unguarded_index_witness :
  set ["build.env"; "prod"; "stage:dev"] sample = (Raise IndexError, sample).
Proof.
  refine (proj1 (set_dict_options_unguarded_index sample "build.env" "prod" ["stage:dev"]
                   "build" "env"
                   (mkSetting "Environment of the build" (Some ["dev"; "prod"])
                              (VDict [("stage", "dev")]) TDict) _ _ _)
                (["dev"; "prod"]) _); reflexivity.
Defined.

(** *** C10: [get] on protected settings only *)

Lemma get_record_protected cns results s :
  (forall cn, In cn cns -> PyStr.startswith "_" (snd cn) = true) ->
  get_record cns results s = (Ret results, s).
Proof.
  induction cns as [|[c n] tl IH]; intros H; simpl; [reflexivity|].
  pose proof (H (c, n) (or_introl eq_refl)) as Hp. simpl in Hp.
  rewrite Hp. simpl. apply IH.
  intros cn Hin. apply H. now right.
Qed.

Lemma get_loop_protected args results s :
  (forall arg, In arg args ->
     get_matches (_registered_settings s) arg <> [] /\
     forall cn, In cn (get_matches (_registered_settings s) arg) ->
                PyStr.startswith "_" (snd cn) = true) ->
  get_loop args results s = (Ret (Some results), s).
Proof.
  induction args as [|arg tl IH]; intros H; simpl; [reflexivity|].
  destruct (H arg (or_introl eq_refl)) as [Hne Hprot].
  destruct (get_matches (_registered_settings s) arg) as [|cn cns] eqn:Hm;
    [congruence|].
  unfold bind. rewrite (get_record_protected _ _ _ Hprot).
  apply IH. intros a Hin. apply H. now right.
Qed.

(** C10. When every argument [get] works on stands for at least one setting
    and all the settings it stands for are protected, the matches are
    skipped after the emptiness check, [results] stays empty, and the
    maximum of the lengths of its keys raises [ValueError]: the call gives
    no exit code and prints nothing. *)
Theorem get_protected_only_raises :
  forall s args,
    (forall arg, In arg (get_args (_registered_settings s) args) ->
       get_matches (_registered_settings s) arg <> [] /\
       forall cn, In cn (get_matches (_registered_settings s) arg) ->
                  PyStr.startswith "_" (snd cn) = true) ->
    get args s = (Raise (ValueError "max() arg is an empty sequence"), s).
Proof.
  intros s args H. unfold get, bind.
  rewrite (get_loop_protected _ [] s H). reflexivity.
Qed.

Lemma get_protected_only_raises_witness :
  get ["_token"; "build._token"] sample
  = (Raise (ValueError "max() arg is an empty sequence"), sample).
Proof.
  apply (get_protected_only_raises sample ["_token"; "build._token"]).
  intros arg [<-|[<-|[]]]; (split; [discriminate|]);
    intros cn [<-|[]]; reflexivity.
Defined.

(** *** C8: a refused call changes nothing *)

Lemma set_refused_inv st arg1 s r s' :
  set_refused st arg1 s = (r, s') -> s' = s.
Proof.
  unfold set_refused. destruct (options st); [|now intros [= _ <-]].
  destruct (candidate (stype st) arg1); now intros [= _ <-].
Qed.









(** *** C3: when the file is written *)

(** The call wrote the registry it leaves behind to the file, once. *)
Definition wrote_once (s s' : state) : Prop :=
  saved s' = (saved s ++ [dump (_registered_settings s')])%list /\
  letsrc s' = Some (yaml_dump (dump (_registered_settings s'))).

Lemma store_if_changed_spec c n st v s :
  store_if_changed c n st v s
  = (Ret 0%Z,
     if value_eqb (svalue st) v then s
     else snd (_save_settings (snd (set_value c n v s)))).
Proof.
  unfold store_if_changed. destruct (value_eqb (svalue st) v); reflexivity.
Qed.

Lemma set_success s args s' :
  set args s = (Ret 0%Z, s') ->
  exists name arg1 rest c n st,
    args = name :: arg1 :: rest /\
    _resolve_setting name false false s = (Ret (Some (c, n, st)), s) /\
    s' = if value_eqb (svalue st) (new_value (stype st) arg1 rest) then s
         else snd (_save_settings
                     (snd (set_value c n (new_value (stype st) arg1 rest) s))).
Proof.
  unfold set. destruct args as [|name [|arg1 rest]]; try (run; discriminate).
  unfold bind at 1.
  destruct (_resolve_setting name false false s) as [[[[[c n] st]|]|e] s1] eqn:Hr;
    [|run; discriminate|discriminate].
  destruct (resolve_found _ _ _ _ _ _ _ _ Hr) as [-> _]. unfold bind at 1.
  destruct (set_refused st arg1 s) as [[[|]|e] s2] eqn:Hs; [| |discriminate];
    apply set_refused_inv in Hs; subst s2; [run; discriminate|].
  intros H. exists name, arg1, rest, c, n, st. split; [reflexivity|]. split; [exact Hr|].
  assert (Hst : store_if_changed c n st (new_value (stype st) arg1 rest) s = (Ret 0%Z, s')).
  { destruct (stype st); try exact H.
    destruct (invalid_values (arg1 :: rest)); [exact H|].
    revert H. run. discriminate. }
  rewrite store_if_changed_spec in Hst. now injection Hst as <-.
Qed.

Lemma add_success s args s' :
  add args s = (Ret 0%Z, s') -> wrote_once s s'.
Proof.
  unfold add. destruct args as [|name [|arg1 rest]]; try (run; discriminate).
  unfold bind at 1.
  destruct (_resolve_setting name false false s) as [[[[[c n] st]|]|e] s1] eqn:Hr;
    [|run; discriminate|discriminate].
  apply resolve_found in Hr as [-> _].
  destruct (stype st); [run; discriminate| |].
  - destruct (svalue st); run; try discriminate. intros [= <-]. split; reflexivity.
  - destruct (invalid_values (arg1 :: rest)); [|run; discriminate].
    destruct (svalue st); run; try discriminate. intros [= <-]. split; reflexivity.
Qed.

Lemma remove_success s args s' :
  remove args s = (Ret 0%Z, s') -> wrote_once s s'.
Proof.
  unfold remove. destruct args as [|name [|arg1 rest]]; try (run; discriminate).
  unfold bind at 1.
  destruct (_resolve_setting name false false s) as [[[[[c n] st]|]|e] s1] eqn:Hr;
    [|run; discriminate|discriminate].
  apply resolve_found in Hr as [-> _].
  unfold remove_finish.
  destruct (stype st); [run; discriminate| |].
  - destruct (remove_list (svalue st) (arg1 :: rest)) as [v [e|]]; run; try discriminate.
    intros [= <-]. split; reflexivity.
  - destruct (remove_dict (svalue st) (arg1 :: rest)) as [v [e|]]; run; try discriminate.
    intros [= <-]. split; reflexivity.
Qed.

(** A [set] whose setting is found, whose value the options allow and whose
    entries, for a dict, all have a colon, comes down to the comparison and
    the conditional write of lets.py:280-282. *)
Lemma set_accepted s name arg1 rest c n st :
  _resolve_setting name false false s = (Ret (Some (c, n, st)), s) ->
  (forall opts, options st = Some opts ->
     exists v, candidate (stype st) arg1 = Some v /\ PyStr.mem v opts = true) ->
  (stype st = TDict -> invalid_values (arg1 :: rest) = []) ->
  set (name :: arg1 :: rest) s
  = store_if_changed c n st (new_value (stype st) arg1 rest) s.
Proof.
  intros Hr Hopts Hdict. unfold set, bind at 1. rewrite Hr.
  unfold bind at 1, set_refused.
  assert (Hbody : (match stype st, invalid_values (arg1 :: rest) with
                   | TDict, (_ :: _) as bad => error (invalid_values_msg bad) ;;; ret (-1)%Z
                   | t, _ => store_if_changed c n st (new_value t arg1 rest)
                   end) s
                  = store_if_changed c n st (new_value (stype st) arg1 rest) s).
  { destruct (stype st) eqn:Ht; try reflexivity. now rewrite (Hdict eq_refl). }
  destruct (options st) as [opts|] eqn:Ho.
  - destruct (Hopts opts eq_refl) as (v & Hc & Hm). rewrite Hc. unfold ret.
    rewrite Hm. exact Hbody.
  - exact Hbody.
Qed.

(** C3. A [set] that returns [0] has resolved its first argument to one
    setting and computed the new value from the others; it writes the file
    (once, with the registry holding the new value) when the stored value
    and the new one differ under Python's [==], and otherwise writes nothing
    and leaves the state as it was.  And [set] does return [0] whenever the
    setting is found, the options allow the value and, for a dict, every
    entry has a colon: then a new value that differs from the stored one is
    assigned and written, once, and an equal one leaves the state as it
    was.  An [add] or a [remove] that returns [0] always writes the file
    once, also when the value it leaves is the value it found: adding [k:1]
    to the sample dict that already binds [k] to [1], and removing an absent
    element from the sample list, both write. *)
Theorem set_writes_on_change_add_remove_always :
  (forall s args s',
     set args s = (Ret 0%Z, s') ->
     exists name arg1 rest c n st,
       args = name :: arg1 :: rest /\
       _resolve_setting name false false s = (Ret (Some (c, n, st)), s) /\
       let new := new_value (stype st) arg1 rest in
       (value_eqb (svalue st) new = true -> s' = s) /\
       (value_eqb (svalue st) new = false ->
          _registered_settings s' = assign c n new (_registered_settings s) /\
          wrote_once s s')) /\
  (forall s name arg1 rest c n st,
     _resolve_setting name false false s = (Ret (Some (c, n, st)), s) ->
     (forall opts, options st = Some opts ->
        exists v, candidate (stype st) arg1 = Some v /\ PyStr.mem v opts = true) ->
     (stype st = TDict -> invalid_values (arg1 :: rest) = []) ->
     let new := new_value (stype st) arg1 rest in
     exists s',
       set (name :: arg1 :: rest) s = (Ret 0%Z, s') /\
       (value_eqb (svalue st) new = true -> s' = s) /\
       (value_eqb (svalue st) new = false ->
          _registered_settings s' = assign c n new (_registered_settings s) /\
          wrote_once s s' /\
          saved s' <> saved s)) /\
  (forall s args s',
     add args s = (Ret 0%Z, s') \/ remove args s = (Ret 0%Z, s') ->
     wrote_once s s') /\
  (let added := add ["build.defines"; "k:1"] sample in
   let removed := remove ["test.suites"; "nightly"] sample in
   fst added = Ret 0%Z /\
   _registered_settings (snd added) = _registered_settings sample /\
   saved (snd added) = (saved sample ++ [dump (_registered_settings sample)])%list /\
   fst removed = Ret 0%Z /\
   _registered_settings (snd removed) = _registered_settings sample /\
   saved (snd removed) = (saved sample ++ [dump (_registered_settings sample)])%list).
Proof.
  split; [|split; [|split]].
  - intros s args s' H.
    destruct (set_success _ _ _ H) as (name & arg1 & rest & c & n & st & -> & Hr & Hs').
    exists name, arg1, rest, c, n, st. split; [reflexivity|]. split; [exact Hr|].
    cbv zeta. split; intros Heq; rewrite Heq in Hs'; subst s'.
    + reflexivity.
    + split; [reflexivity|]. split; reflexivity.
  - intros s name arg1 rest c n st Hr Hopts Hdict. cbv zeta.
    rewrite (set_accepted s name arg1 rest c n st Hr Hopts Hdict), store_if_changed_spec.
    eexists. split; [reflexivity|].
    split; intros Heq; rewrite Heq; [reflexivity|].
    split; [reflexivity|]. split; [split; reflexivity|].
    simpl. intros H. apply (f_equal (@List.length _)) in H.
    rewrite length_app in H. simpl in H. lia.
  - intros s args s' [H|H].
    + now apply add_success in H.
    + now apply remove_success in H.
  - vm_compute. repeat split.
Qed.

Lemma set_writes_on_change_add_remove_always_witness :
  wrote_once sample (snd (add ["test.suites"; "unit"] sample)) /\
  (exists name arg1 rest c n st,
     ["lets.verbose"; "off"] = name :: arg1 :: rest /\
     _resolve_setting name false false sample = (Ret (Some (c, n, st)), sample) /\
     let new := new_value (stype st) arg1 rest in
     (value_eqb (svalue st) new = true -> sample = sample) /\
     (value_eqb (svalue st) new = false ->
        _registered_settings sample = assign c n new (_registered_settings sample) /\
        wrote_once sample sample)) /\
  (exists s',
     set ["lets.verbose"; "on"] sample = (Ret 0%Z, s') /\
     get_setting s' "lets" "verbose" = Some (VStr "on") /\
     wrote_once sample s' /\
     saved s' <> saved sample).
Proof.
  split; [|split].
  - apply (proj1 (proj2 (proj2 set_writes_on_change_add_remove_always)) sample
             ["test.suites"; "unit"]).
    left. reflexivity.
  - apply (proj1 set_writes_on_change_add_remove_always sample ["lets.verbose"; "off"]).
    reflexivity.
  - destruct (proj1 (proj2 set_writes_on_change_add_remove_always) sample
                "lets.verbose" "on" [] "lets" "verbose"
                (mkSetting "Sets the default verbose mode" (Some ["on"; "off"])
                           (VStr "off") TStr))
      as (s' & Hset & _ & Hchanged).
    + reflexivity.
    + intros opts [= <-]. exists "on". split; reflexivity.
    + discriminate.
    + destruct (Hchanged eq_refl) as (Hreg & Hwrote & Hsaved).
      exists s'. split; [exact Hset|]. split; [|split; assumption].
      unfold get_setting. rewrite Hreg. reflexivity.
Defined.

(** *** Dicts and the registry *)

Section DictFacts.
Context {V : Type}.
Implicit Types (d : PyDict.t V) (k : string) (v : V).

Lemma get_set_same k v d : PyDict.get k (PyDict.set k v d) = Some v.
Proof.
  induction d as [|[k' v'] tl IH]; simpl.
  - now rewrite String.eqb_refl.
  - destruct (String.eqb k k') eqn:E; simpl.
    + now rewrite String.eqb_refl.
    + now rewrite E.
Qed.

Lemma get_set_other k k' v d :
  k <> k' -> PyDict.get k' (PyDict.set k v d) = PyDict.get k' d.
Proof.
  intros Hne. induction d as [|[k0 v0] tl IH]; simpl.
  - apply not_eq_sym in Hne. apply String.eqb_neq in Hne. now rewrite Hne.
  - destruct (String.eqb k k0) eqn:E; simpl.
    + apply String.eqb_eq in E. subst k0.
      apply not_eq_sym in Hne. apply String.eqb_neq in Hne. now rewrite Hne.
    + destruct (String.eqb k' k0); [reflexivity | exact IH].
Qed.

Lemma set_get_id k v d : PyDict.get k d = Some v -> PyDict.set k v d = d.
Proof.
  induction d as [|[k' v'] tl IH]; simpl; [discriminate|].
  destruct (String.eqb k k') eqn:E.
  - apply String.eqb_eq in E. now intros [= ->]; subst.
  - intros H. now rewrite (IH H).
Qed.

Lemma set_set k v1 v2 d :
  PyDict.set k v2 (PyDict.set k v1 d) = PyDict.set k v2 d.
Proof.
  induction d as [|[k' v'] tl IH]; simpl.
  - now rewrite String.eqb_refl.
  - destruct (String.eqb k k') eqn:E; simpl.
    + now rewrite String.eqb_refl.
    + now rewrite E, IH.
Qed.

Lemma keys_set_present k v v0 d :
  PyDict.get k d = Some v0 -> PyDict.keys (PyDict.set k v d) = PyDict.keys d.
Proof.
  induction d as [|[k' v'] tl IH]; simpl; [discriminate|].
  destruct (String.eqb k k') eqn:E; simpl.
  - apply String.eqb_eq in E. now subst.
  - intros H. f_equal. now apply IH.
Qed.

Lemma set_absent k v d :
  PyDict.get k d = None -> PyDict.set k v d = (d ++ [(k, v)])%list.
Proof.
  induction d as [|[k' v'] tl IH]; simpl; [reflexivity|].
  destruct (String.eqb k k'); [discriminate|].
  intros H. now rewrite (IH H).
Qed.

Lemma get_none_keys k d : PyDict.get k d = None <-> ~ In k (PyDict.keys d).
Proof.
  induction d as [|[k' v'] tl IH]; simpl; [tauto|].
  destruct (String.eqb k k') eqn:E.
  - apply String.eqb_eq in E. subst. split; [discriminate | intros H; exfalso; auto].
  - apply String.eqb_neq in E. rewrite IH. split; [intros H [?|?]; congruence | tauto].
Qed.

Lemma get_app_absent k d x :
  PyDict.get k d = None -> PyDict.get k (d ++ x)%list = PyDict.get k x.
Proof.
  induction d as [|[k' v'] tl IH]; simpl; [reflexivity|].
  destruct (String.eqb k k'); [discriminate | exact IH].
Qed.

Lemma del_app_absent k d x :
  PyDict.get k d = None -> PyDict.del k (d ++ x)%list = (d ++ PyDict.del k x)%list.
Proof.
  induction d as [|[k' v'] tl IH]; simpl; [reflexivity|].
  destruct (String.eqb k k'); [discriminate|].
  intros H. now rewrite (IH H).
Qed.

Lemma keys_del_incl k d k' :
  In k' (PyDict.keys (PyDict.del k d)) -> In k' (PyDict.keys d).
Proof.
  induction d as [|[k0 v0] tl IH]; simpl; [tauto|].
  destruct (String.eqb k k0); simpl; tauto.
Qed.

Lemma keys_del_nodup k d :
  NoDup (PyDict.keys d) ->
  NoDup (PyDict.keys (PyDict.del k d)) /\ ~ In k (PyDict.keys (PyDict.del k d)).
Proof.
  induction d as [|[k0 v0] tl IH]; simpl; intros Hnd.
  - split; [constructor | tauto].
  - inversion Hnd as [|? ? Hnotin Hnd']; subst.
    destruct (String.eqb k k0) eqn:E.
    + apply String.eqb_eq in E. subst. auto.
    + apply String.eqb_neq in E. destruct (IH Hnd') as [IH1 IH2]. simpl. split.
      * constructor; [|exact IH1]. intros Hin. apply Hnotin.
        now apply keys_del_incl in Hin.
      * intros [?|?]; [congruence | tauto].
Qed.

Lemma keys_set k v d :
  PyDict.keys (PyDict.set k v d)
  = if PyDict.contains k d then PyDict.keys d else (PyDict.keys d ++ [k])%list.
Proof.
  unfold PyDict.contains. destruct (PyDict.get k d) eqn:E.
  - now apply keys_set_present with (v0 := v0).
  - rewrite (set_absent _ _ _ E). unfold PyDict.keys. now rewrite map_app.
Qed.

Lemma keys_update_nodup d other :
  NoDup (PyDict.keys d) -> NoDup (PyDict.keys (PyDict.update d other)).
Proof.
  unfold PyDict.update. revert d.
  induction other as [|[k v] tl IH]; intros d Hnd; simpl; [exact Hnd|].
  apply IH. rewrite keys_set. unfold PyDict.contains.
  destruct (PyDict.get k d) eqn:E; [exact Hnd|].
  apply get_none_keys in E.
  apply NoDup_app; [exact Hnd | constructor; [tauto | constructor] |].
  intros x Hx [<-|[]]. tauto.
Qed.

Lemma keys_update_incl d other k :
  In k (PyDict.keys (PyDict.update d other)) ->
  In k (PyDict.keys d) \/ In k (PyDict.keys other).
Proof.
  unfold PyDict.update. revert d.
  induction other as [|[k0 v0] tl IH]; intros d; simpl; [tauto|].
  intros H. apply IH in H as [H|H]; [|tauto].
  rewrite keys_set in H. destruct (PyDict.contains k0 d); [tauto|].
  apply in_app_iff in H as [H|[<-|[]]]; tauto.
Qed.

(** Updating with fresh, distinct keys appends the new bindings. *)
Lemma update_fresh d other :
  NoDup (PyDict.keys other) ->
  (forall k, In k (PyDict.keys other) -> PyDict.get k d = None) ->
  PyDict.update d other = (d ++ other)%list.
Proof.
  unfold PyDict.update. revert d.
  induction other as [|[k v] tl IH]; intros d Hnd Hfresh; simpl.
  - now rewrite app_nil_r.
  - inversion Hnd as [|? ? Hnotin Hnd']; subst.
    rewrite (set_absent k v d) by (apply Hfresh; now left).
    rewrite IH; [now rewrite <- app_assoc | exact Hnd' |].
    intros k' Hk'. rewrite get_app_absent by (apply Hfresh; now right).
    simpl. destruct (String.eqb k' k) eqn:E; [|reflexivity].
    apply String.eqb_eq in E. subst. contradiction.
Qed.
End DictFacts.

Lemma with_value_same st : with_value (svalue st) st = st.
Proof. now destruct st. Qed.

Lemma lookup_assign_same r c n v st :
  lookup r c n = Some st -> lookup (assign c n v r) c n = Some (with_value v st).
Proof.
  unfold lookup, assign. destruct (PyDict.get c r) as [settings|] eqn:Hc; [|discriminate].
  intros Hn. rewrite Hn, get_set_same. apply get_set_same.
Qed.

Lemma lookup_assign_other r c n v c' n' :
  (c, n) <> (c', n') -> lookup (assign c n v r) c' n' = lookup r c' n'.
Proof.
  intros Hne. unfold lookup, assign.
  destruct (PyDict.get c r) as [settings|] eqn:Hc; [|reflexivity].
  destruct (PyDict.get n settings) as [st|] eqn:Hn; [|reflexivity].
  destruct (string_dec c c') as [<-|Hcc].
  - rewrite get_set_same, Hc. apply get_set_other. congruence.
  - now rewrite get_set_other.
Qed.

Lemma assign_same r c n st :
  lookup r c n = Some st -> assign c n (svalue st) r = r.
Proof.
  unfold lookup, assign. destruct (PyDict.get c r) as [settings|] eqn:Hc; [|discriminate].
  intros Hn. rewrite Hn, with_value_same, (set_get_id _ _ _ Hn). now apply set_get_id.
Qed.

Lemma assign_twice r c n v1 v2 st :
  lookup r c n = Some st -> assign c n v2 (assign c n v1 r) = assign c n v2 r.
Proof.
  intros Hl. unfold assign at 1.
  pose proof (lookup_assign_same r c n v1 st Hl) as Hl1.
  unfold lookup in Hl, Hl1.
  destruct (PyDict.get c (assign c n v1 r)) as [settings1|] eqn:Hc1; [|discriminate].
  rewrite Hl1. unfold assign in *.
  destruct (PyDict.get c r) as [settings|] eqn:Hc; [|discriminate].
  rewrite Hl in *. rewrite get_set_same in Hc1. injection Hc1 as <-.
  now rewrite set_set, set_set.
Qed.

(** Assigning a value changes no key of the registry. *)
Lemma matching_set r c settings settings' ctx nm :
  PyDict.get c r = Some settings ->
  PyDict.keys settings' = PyDict.keys settings ->
  matching (PyDict.set c settings' r) ctx nm = matching r ctx nm.
Proof.
  induction r as [|[c0 s0] tl IH]; simpl; [discriminate|].
  destruct (String.eqb c c0) eqn:E.
  - apply String.eqb_eq in E. subst c0. intros [= ->] Hk. simpl. now rewrite Hk.
  - intros Hc Hk. simpl. now rewrite (IH Hc Hk).
Qed.

Lemma matching_assign r c n v ctx nm :
  matching (assign c n v r) ctx nm = matching r ctx nm.
Proof.
  unfold assign. destruct (PyDict.get c r) as [settings|] eqn:Hc; [|reflexivity].
  destruct (PyDict.get n settings) as [st|] eqn:Hn; [|reflexivity].
  apply matching_set with (settings := settings); [exact Hc|].
  now apply keys_set_present with (v0 := st).
Qed.

(** A setting found before an assignment to it is found after it, holding
    the new value. *)
Lemma resolve_after_assign name graceful allow s s1 c n st v :
  _resolve_setting name graceful allow s = (Ret (Some (c, n, st)), s) ->
  _registered_settings s1 = assign c n v (_registered_settings s) ->
  _resolve_setting name graceful allow s1 = (Ret (Some (c, n, with_value v st)), s1).
Proof.
  unfold _resolve_setting. destruct (qualify name) as [ctx nm].
  destruct (PyStr.startswith "_" nm && negb allow); [run; discriminate|].
  intros H Hs1. rewrite Hs1, matching_assign.
  destruct (matching (_registered_settings s) ctx nm) as [|[c' n'] [|c2 more]];
    [destruct graceful; revert H; run; discriminate| |revert H; run; discriminate].
  destruct (lookup (_registered_settings s) c' n') as [st'|] eqn:Hl; [|discriminate].
  injection H as -> -> ->.
  now rewrite (lookup_assign_same _ _ _ v _ Hl).
Qed.

(** *** C2: [add] followed by [remove] *)

Lemma mem_true_iff x l : PyStr.mem x l = true <-> In x l.
Proof.
  unfold PyStr.mem. rewrite existsb_exists. split.
  - intros (y & Hin & E). apply String.eqb_eq in E. now subst.
  - intros H. exists x. split; [exact H | apply String.eqb_refl].
Qed.

Lemma mem_false_iff x l : PyStr.mem x l = false <-> ~ In x l.
Proof.
  rewrite <- mem_true_iff. destruct (PyStr.mem x l); split; congruence.
Qed.

Lemma list_remove_app_absent x l suffix :
  ~ In x l ->
  PyStr.list_remove x (l ++ suffix)%list = (l ++ PyStr.list_remove x suffix)%list.
Proof.
  induction l as [|y tl IH]; simpl; [reflexivity|].
  intros H. destruct (String.eqb x y) eqn:E.
  - apply String.eqb_eq in E. subst. exfalso. auto.
  - rewrite IH; [reflexivity | tauto].
Qed.

Lemma list_remove_perm x l :
  In x l -> Permutation l (x :: PyStr.list_remove x l).
Proof.
  induction l as [|y tl IH]; simpl; [tauto|].
  destruct (String.eqb x y) eqn:E.
  - apply String.eqb_eq in E. now subst.
  - intros [->|H]; [rewrite String.eqb_refl in E; discriminate|].
    transitivity (y :: x :: PyStr.list_remove x tl); [|apply perm_swap].
    constructor. now apply IH.
Qed.

(** Removing, one by one, elements that were appended to a list holding none
    of them gives the list back. *)
Lemma remove_list_appended l vals : forall suffix,
  Permutation suffix vals ->
  (forall x, In x vals -> ~ In x l) ->
  remove_list (VList (l ++ suffix)%list) vals = (VList l, None).
Proof.
  induction vals as [|a vs IH]; intros suffix Hperm Hfresh.
  - apply Permutation_sym, Permutation_nil in Hperm. subst. simpl. now rewrite app_nil_r.
  - assert (Hin : In a suffix).
    { apply (Permutation_in a (Permutation_sym Hperm)). now left. }
    simpl.
    assert (Hmem : PyStr.mem a (l ++ suffix) = true).
    { apply mem_true_iff, in_app_iff. now right. }
    rewrite Hmem, list_remove_app_absent by (apply Hfresh; now left).
    apply IH.
    + apply Permutation_cons_inv with (a := a).
      now rewrite <- (list_remove_perm a suffix Hin).
    + intros x Hx. apply Hfresh. now right.
Qed.

(** Deleting keys that were added to a dict holding none of them gives the
    dict back. *)
Lemma remove_dict_appended d ks : forall x,
  NoDup (PyDict.keys x) ->
  (forall k, In k (PyDict.keys x) -> In k ks) ->
  (forall k, In k ks -> PyDict.get k d = None) ->
  remove_dict (VDict (d ++ x)%list) ks = (VDict d, None).
Proof.
  induction ks as [|k ks' IH]; intros x Hnd Hsub Hfresh.
  - destruct x as [|[k v] tl]; [simpl; now rewrite app_nil_r|].
    exfalso. apply (Hsub k). now left.
  - simpl. unfold PyDict.contains.
    rewrite get_app_absent by (apply Hfresh; now left).
    destruct (PyDict.get k x) eqn:Hk.
    + rewrite del_app_absent by (apply Hfresh; now left).
      destruct (keys_del_nodup k x Hnd) as [Hnd' Hgone].
      apply IH; [exact Hnd' | | intros k' Hk'; apply Hfresh; now right].
      intros k' Hk'. destruct (Hsub k' (keys_del_incl _ _ _ Hk')) as [<-|H]; tauto.
    + apply IH; [exact Hnd | | intros k' Hk'; apply Hfresh; now right].
      intros k' Hk'. destruct (Hsub k' Hk') as [<-|H]; [|exact H].
      apply get_none_keys in Hk. contradiction.
Qed.

Definition entry_keys (entries : list string) : list string :=
  map (fun entry => fst (key_val entry)) entries.

Lemma parse_dict_keys entries :
  NoDup (PyDict.keys (parse_dict entries)) /\
  forall k, In k (PyDict.keys (parse_dict entries)) -> In k (entry_keys entries).
Proof.
  unfold parse_dict, PyDict.of_pairs. split.
  - apply keys_update_nodup. constructor.
  - intros k Hk. apply keys_update_incl in Hk as [[]|Hk].
    unfold PyDict.keys, entry_keys in *. now rewrite map_map in Hk.
Qed.

Lemma add_list_spec s name arg1 rest c n st l :
  _resolve_setting name false false s = (Ret (Some (c, n, st)), s) ->
  stype st = TList -> svalue st = VList l ->
  exists s1,
    add (name :: arg1 :: rest) s = (Ret 0%Z, s1) /\
    _registered_settings s1
    = assign c n (VList (l ++ arg1 :: rest)) (_registered_settings s).
Proof.
  intros Hres Hty Hval. unfold add, bind at 1. rewrite Hres, Hty, Hval.
  eexists. split; reflexivity.
Qed.

Lemma add_dict_spec s name arg1 rest c n st d :
  _resolve_setting name false false s = (Ret (Some (c, n, st)), s) ->
  stype st = TDict -> svalue st = VDict d ->
  invalid_values (arg1 :: rest) = [] ->
  exists s1,
    add (name :: arg1 :: rest) s = (Ret 0%Z, s1) /\
    _registered_settings s1
    = assign c n (VDict (PyDict.update d (parse_dict (arg1 :: rest))))
             (_registered_settings s).
Proof.
  intros Hres Hty Hval Hinv. unfold add, bind at 1. rewrite Hres, Hty, Hinv, Hval.
  eexists. split; reflexivity.
Qed.

Lemma remove_spec s name arg1 rest c n st :
  _resolve_setting name false false s = (Ret (Some (c, n, st)), s) ->
  forall v,
    (stype st = TList /\ remove_list (svalue st) (arg1 :: rest) = (v, None)) \/
    (stype st = TDict /\ remove_dict (svalue st) (arg1 :: rest) = (v, None)) ->
    exists s2,
      remove (name :: arg1 :: rest) s = (Ret 0%Z, s2) /\
      _registered_settings s2 = assign c n v (_registered_settings s).
Proof.
  intros Hres v H. unfold remove, bind at 1. rewrite Hres.
  destruct H as [[-> ->]|[-> ->]]; eexists; split; reflexivity.
Qed.

(** C2, as the code has it. [add] of elements to a list setting that holds
    none of them, followed by [remove] of the same elements, succeeds twice
    and leaves the registry exactly as it was before the [add]; so does
    [add] of well-formed [key:value] entries to a dict setting that binds
    none of their keys, followed by [remove] of those keys. *)
Theorem add_then_remove_restores_fresh :
  forall s name arg1 rest c n st,
    _resolve_setting name false false s = (Ret (Some (c, n, st)), s) ->
    (forall l,
       stype st = TList -> svalue st = VList l ->
       (forall x, In x (arg1 :: rest) -> ~ In x l) ->
       exists s1 s2,
         add (name :: arg1 :: rest) s = (Ret 0%Z, s1) /\
         remove (name :: arg1 :: rest) s1 = (Ret 0%Z, s2) /\
         _registered_settings s2 = _registered_settings s) /\
    (forall d,
       stype st = TDict -> svalue st = VDict d ->
       invalid_values (arg1 :: rest) = [] ->
       (forall k, In k (entry_keys (arg1 :: rest)) -> PyDict.get k d = None) ->
       exists s1 s2,
         add (name :: arg1 :: rest) s = (Ret 0%Z, s1) /\
         remove (name :: entry_keys (arg1 :: rest)) s1 = (Ret 0%Z, s2) /\
         _registered_settings s2 = _registered_settings s).
Proof.
  intros s name arg1 rest c n st Hres.
  pose proof (resolve_found _ _ _ _ _ _ _ _ Hres) as [_ Hl]. split.
  - intros l Hty Hval Hfresh.
    destruct (add_list_spec s name arg1 rest c n st l Hres Hty Hval) as (s1 & Hadd & Hr1).
    pose proof (resolve_after_assign _ _ _ _ s1 _ _ _ _ Hres Hr1) as Hres1.
    destruct (remove_spec s1 name arg1 rest c n _ Hres1 (VList l)) as (s2 & Hrem & Hr2).
    { left. split; [exact Hty|]. simpl svalue.
      apply remove_list_appended; [reflexivity | exact Hfresh]. }
    exists s1, s2. repeat split; [exact Hadd | exact Hrem |].
    rewrite Hr2, Hr1, (assign_twice _ _ _ _ _ _ Hl), <- Hval.
    now apply assign_same.
  - intros d Hty Hval Hinv Hfresh.
    destruct (add_dict_spec s name arg1 rest c n st d Hres Hty Hval Hinv)
      as (s1 & Hadd & Hr1).
    pose proof (resolve_after_assign _ _ _ _ s1 _ _ _ _ Hres Hr1) as Hres1.
    destruct (parse_dict_keys (arg1 :: rest)) as [Hnd Hsub].
    assert (Hupd : PyDict.update d (parse_dict (arg1 :: rest))
                   = (d ++ parse_dict (arg1 :: rest))%list).
    { apply update_fresh; [exact Hnd|]. intros k Hk. apply Hfresh, Hsub, Hk. }
    destruct (remove_spec s1 name (fst (key_val arg1)) (entry_keys rest) c n _ Hres1 (VDict d))
      as (s2 & Hrem & Hr2).
    { right. split; [exact Hty|]. simpl svalue. rewrite Hupd.
      apply remove_dict_appended; [exact Hnd | exact Hsub | exact Hfresh]. }
    exists s1, s2. repeat split; [exact Hadd | exact Hrem |].
    rewrite Hr2, Hr1, (assign_twice _ _ _ _ _ _ Hl), <- Hval.
    now apply assign_same.
Qed.

Lemma add_then_remove_restores_fresh_witness :
  (exists s1 s2,
     add ["test.suites"; "nightly"; "perf"; "nightly"] sample = (Ret 0%Z, s1) /\
     remove ["test.suites"; "nightly"; "perf"; "nightly"] s1 = (Ret 0%Z, s2) /\
     _registered_settings s2 = _registered_settings sample) /\
  (exists s1 s2,
     add ["build.defines"; "a:1"; "b:2"; "a:3"] sample = (Ret 0%Z, s1) /\
     remove ("build.defines" :: entry_keys ["a:1"; "b:2"; "a:3"]) s1 = (Ret 0%Z, s2) /\
     _registered_settings s2 = _registered_settings sample).
Proof.
  split.
  - refine (proj1 (add_then_remove_restores_fresh sample "test.suites" "nightly"
                     ["perf"; "nightly"] "test" "suites"
                     (mkSetting "Suites to run" None (VList ["unit"; "smoke"]) TList) _)
                  ["unit"; "smoke"] _ _ _); try reflexivity.
    intros x [<-|[<-|[<-|[]]]] [H|[H|[]]]; discriminate.
  - refine (proj2 (add_then_remove_restores_fresh sample "build.defines" "a:1"
                     ["b:2"; "a:3"] "build" "defines"
                     (mkSetting "Preprocessor symbols" None (VDict [("k", "1")]) TDict) _)
                  [("k", "1")] _ _ _ _); try reflexivity.
    intros k [<-|[<-|[<-|[]]]]; reflexivity.
Defined.

(** C2 as stated fails: on the sample list [unit, smoke], adding [unit] and
    removing it again leaves [smoke, unit]; on the sample dict [k:1], adding
    [k:2] and removing [k] leaves the dict empty. *)
Lemma add_then_remove_not_inverse :
  let s1 := snd (add ["test.suites"; "unit"] sample) in
  let s2 := snd (remove ["test.suites"; "unit"] s1) in
  let t1 := snd (add ["build.defines"; "k:2"] sample) in
  let t2 := snd (remove ("build.defines" :: entry_keys ["k:2"]) t1) in
  fst (add ["test.suites"; "unit"] sample) = Ret 0%Z /\
  fst (remove ["test.suites"; "unit"] s1) = Ret 0%Z /\
  get_setting sample "test" "suites" = Some (VList ["unit"; "smoke"]) /\
  get_setting s2 "test" "suites" = Some (VList ["smoke"; "unit"]) /\
  get_setting s2 "test" "suites" <> get_setting sample "test" "suites" /\
  fst (add ["build.defines"; "k:2"] sample) = Ret 0%Z /\
  fst (remove ("build.defines" :: entry_keys ["k:2"]) t1) = Ret 0%Z /\
  get_setting sample "build" "defines" = Some (VDict [("k", "1")]) /\
  get_setting t2 "build" "defines" = Some (VDict []) /\
  get_setting t2 "build" "defines" <> get_setting sample "build" "defines".
Proof.
  vm_compute. repeat split; discriminate.
Qed.

(** *** C4: loading [~/.letsrc] *)

(** A parsed file is a dict of dicts: no key twice at either level. *)
Definition file_wf (file : FileSettings) : Prop :=
  PyDict.wf file /\ forall c fs, In (c, fs) file -> PyDict.wf fs.

Definition file_value (file : FileSettings) (c n : string) : option value :=
  match PyDict.get c file with
  | Some fs => PyDict.get n fs
  | None => None
  end.

Lemma lookup_assign r c n v :
  lookup (assign c n v r) c n = option_map (with_value v) (lookup r c n).
Proof.
  destruct (lookup r c n) as [st|] eqn:Hl.
  - now apply lookup_assign_same.
  - unfold lookup, assign in *. destruct (PyDict.get c r) as [settings|] eqn:Hc.
    + rewrite Hl, Hc. exact Hl.
    + now rewrite Hc.
Qed.

Lemma keys_assign r c n v : PyDict.keys (assign c n v r) = PyDict.keys r.
Proof.
  unfold assign. destruct (PyDict.get c r) as [settings|] eqn:Hc; [|reflexivity].
  destruct (PyDict.get n settings); [|reflexivity].
  now apply keys_set_present with (v0 := settings).
Qed.

Definition load_context (c : string) (fs : PyDict.t value) (r : SettingsType)
  : SettingsType :=
  fold_left (fun acc nv => assign c (fst nv) (snd nv) acc) fs r.

Lemma load_context_keys c fs : forall r,
  PyDict.keys (load_context c fs r) = PyDict.keys r.
Proof.
  unfold load_context. induction fs as [|[n v] tl IH]; intros r; simpl; [reflexivity|].
  now rewrite IH, keys_assign.
Qed.

Lemma load_context_lookup c fs : forall r c' n',
  PyDict.wf fs ->
  lookup (load_context c fs r) c' n'
  = match (if string_dec c c' then PyDict.get n' fs else None) with
    | Some v => option_map (with_value v) (lookup r c' n')
    | None => lookup r c' n'
    end.
Proof.
  unfold load_context, PyDict.wf.
  induction fs as [|[n v] tl IH]; intros r c' n' Hnd; simpl.
  - now destruct (string_dec c c').
  - inversion Hnd as [|? ? Hnotin Hnd']; subst.
    rewrite (IH _ c' n' Hnd'). destruct (string_dec c c') as [<-|Hcc].
    + destruct (String.eqb_spec n' n) as [->|Hnn].
      * apply get_none_keys in Hnotin. rewrite Hnotin. apply lookup_assign.
      * rewrite lookup_assign_other by congruence. reflexivity.
    + rewrite lookup_assign_other by congruence. reflexivity.
Qed.

Lemma load_values_keys file : forall r,
  PyDict.keys (load_values file r) = PyDict.keys r.
Proof.
  unfold load_values. induction file as [|[c fs] tl IH]; intros r; simpl; [reflexivity|].
  rewrite IH. apply load_context_keys.
Qed.

(** After the loop of lets.py:127 a registered setting holds the value the
    file gives it, and every other setting the value it had. *)
Lemma load_values_lookup file : forall r c n,
  file_wf file ->
  lookup (load_values file r) c n
  = match file_value file c n with
    | Some v => option_map (with_value v) (lookup r c n)
    | None => lookup r c n
    end.
Proof.
  unfold load_values, file_value, file_wf, PyDict.wf.
  induction file as [|[c0 fs0] tl IH]; intros r c n [Hnd Hin]; simpl; [reflexivity|].
  inversion Hnd as [|? ? Hnotin Hnd']; subst.
  rewrite IH by (split; [exact Hnd' | intros c' fs' H'; apply (Hin c' fs'); now right]).
  pose proof (load_context_lookup c0 fs0 r c n (Hin c0 fs0 (or_introl eq_refl))) as Hctx.
  unfold load_context in Hctx.
  destruct (String.eqb_spec c c0) as [->|Hcc].
  - apply get_none_keys in Hnotin. rewrite Hnotin, Hctx.
    destruct (string_dec c0 c0); [reflexivity | congruence].
  - rewrite Hctx. destruct (string_dec c0 c); [congruence|]. reflexivity.
Qed.

Lemma known_part_filter file r :
  known_part file r = filter (fun cv => PyDict.contains (fst cv) r) file.
Proof.
  unfold known_part. apply filter_ext_in. intros [c fs] Hin. simpl.
  destruct (PyDict.contains c r) eqn:Hc.
  - apply negb_true_iff, mem_false_iff. unfold unknown_contexts.
    rewrite nodup_In, filter_In. intros [_ H]. now rewrite Hc in H.
  - apply negb_false_iff, mem_true_iff. unfold unknown_contexts.
    rewrite nodup_In, filter_In, Hc. split; [|reflexivity].
    unfold PyDict.keys. now apply (in_map fst) in Hin.
Qed.

Lemma get_filter_key {V} (p : string -> bool) (d : PyDict.t V) k :
  PyDict.get k (filter (fun kv => p (fst kv)) d)
  = if p k then PyDict.get k d else None.
Proof.
  induction d as [|[k0 v0] tl IH]; simpl; [now destruct (p k)|].
  destruct (p k0) eqn:Hp0; simpl.
  - destruct (String.eqb_spec k k0) as [->|Hne]; [now rewrite Hp0 | exact IH].
  - destruct (String.eqb_spec k k0) as [->|Hne]; [now rewrite IH, Hp0 | exact IH].
Qed.

Lemma filter_wf {V} (p : string * V -> bool) (d : PyDict.t V) :
  PyDict.wf d -> PyDict.wf (filter p d).
Proof.
  unfold PyDict.wf, PyDict.keys.
  induction d as [|[k v] tl IH]; simpl; intros Hnd; [constructor|].
  inversion Hnd as [|? ? Hnotin Hnd']; subst.
  destruct (p (k, v)); simpl; [|now apply IH].
  constructor; [|now apply IH].
  intros Hin. apply Hnotin. apply in_map_iff in Hin as ([k' v'] & <- & Hin).
  apply filter_In in Hin as [Hin _]. now apply (in_map fst) in Hin.
Qed.

Lemma known_part_wf file r : file_wf file -> file_wf (known_part file r).
Proof.
  rewrite known_part_filter. intros [Hnd Hin]. split.
  - now apply filter_wf.
  - intros c fs H. apply filter_In in H as [H _]. now apply (Hin c fs).
Qed.

Lemma known_part_value file r c n :
  file_value (known_part file r) c n
  = if PyDict.contains c r then file_value file c n else None.
Proof.
  unfold file_value. rewrite known_part_filter.
  rewrite (get_filter_key (fun k => PyDict.contains k r)).
  now destruct (PyDict.contains c r).
Qed.

Definition unknown_contexts_msg (names : list string) : string :=
  "Unknown contexts found in .letsrc: " ++ PyStr.join " ," names.

(** The state once lets.py:113-114 has run. *)
Definition warned (file : FileSettings) (s : state) : state :=
  match unknown_contexts file (_registered_settings s) with
  | [] => s
  | names => says (Warning (unknown_contexts_msg names)) s
  end.

Lemma warned_spec file s :
  _registered_settings (warned file s) = _registered_settings s /\
  printed (warned file s)
  = (printed s ++ match unknown_contexts file (_registered_settings s) with
                  | [] => []
                  | names => [Warning (unknown_contexts_msg names)]
                  end)%list.
Proof.
  unfold warned. destruct (unknown_contexts file (_registered_settings s)); simpl;
    [now rewrite app_nil_r | auto].
Qed.

Lemma load_settings_cases s file :
  letsrc s = Some file ->
  let r := _registered_settings s in
  _load_settings s
  = match unknown_settings (known_part file r) r with
    | [] => (Ret tt, with_settings (load_values (known_part file r) r) (warned file s))
    | bad => (Raise (AttributeError (unknown_contexts_msg bad)), warned file s)
    end.
Proof.
  intros Hf. unfold _load_settings, warned. rewrite Hf. cbv zeta.
  destruct (unknown_contexts file (_registered_settings s)) as [|u us];
    destruct (unknown_settings _ _); reflexivity.
Qed.

Lemma unknown_contexts_spec file r c :
  In c (unknown_contexts file r) <->
  In c (PyDict.keys file) /\ PyDict.get c r = None.
Proof.
  unfold unknown_contexts, PyDict.contains. rewrite nodup_In, filter_In.
  destruct (PyDict.get c r); simpl; intuition congruence.
Qed.

Lemma unknown_settings_spec file r x :
  In x (unknown_settings (known_part file r) r) <->
  exists c n fs,
    x = c ++ "." ++ n /\ In (c, fs) file /\ In n (PyDict.keys fs) /\
    PyDict.contains c r = true /\ lookup r c n = None.
Proof.
  unfold unknown_settings. rewrite known_part_filter, nodup_In, in_flat_map. split.
  - intros ([c fs] & Hin & Hx). apply filter_In in Hin as [Hin Hc].
    apply in_map_iff in Hx as (n & <- & Hn). apply filter_In in Hn as [Hn Hunk].
    simpl in *. exists c, n, fs. repeat split; auto.
    unfold lookup, PyDict.contains in *.
    destruct (PyDict.get c r) as [settings|]; [|discriminate].
    destruct (PyDict.get n settings); [discriminate | reflexivity].
  - intros (c & n & fs & -> & Hin & Hn & Hc & Hl). exists (c, fs). split.
    + apply filter_In. auto.
    + apply in_map_iff. exists n. split; [reflexivity|].
      apply filter_In. split; [exact Hn|]. simpl.
      unfold lookup, PyDict.contains in *.
      destruct (PyDict.get c r) as [settings|]; [|discriminate].
      now rewrite Hl.
Qed.

(** C4. With a well-formed [~/.letsrc]:
    the contexts of the file that are not registered, and only they, are
    named in one warning, which is all that loading prints, and they never
    enter the registry; the names [context.setting] of the file whose
    context is registered and whose setting is not are collected, and when
    there is one the load raises [AttributeError] with all of them in its
    message and the registry untouched; otherwise the load returns, every
    registered setting the file has a value for holds that value and every
    other setting holds what it held. *)
Theorem load_settings_policy :
  forall s file,
    letsrc s = Some file -> file_wf file ->
    let r := _registered_settings s in
    let unknown := unknown_contexts file r in
    let bad := unknown_settings (known_part file r) r in
    let r' := _registered_settings (snd (_load_settings s)) in
    (forall c, In c unknown <-> In c (PyDict.keys file) /\ PyDict.get c r = None) /\
    printed (snd (_load_settings s))
    = (printed s ++ match unknown with
                    | [] => []
                    | u :: us => [Warning (unknown_contexts_msg (u :: us))]
                    end)%list /\
    PyDict.keys r' = PyDict.keys r /\
    (forall x, In x bad <->
       exists c n fs,
         x = c ++ "." ++ n /\ In (c, fs) file /\ In n (PyDict.keys fs) /\
         PyDict.contains c r = true /\ lookup r c n = None) /\
    (bad <> [] ->
       fst (_load_settings s) = Raise (AttributeError (unknown_contexts_msg bad)) /\
       r' = r) /\
    (bad = [] ->
       fst (_load_settings s) = Ret tt /\
       forall c n,
         lookup r' c n
         = match file_value file c n with
           | Some v => option_map (with_value v) (lookup r c n)
           | None => lookup r c n
           end).
Proof.
  intros s file Hf Hwf r unknown bad r'.
  pose proof (load_settings_cases s file Hf) as Hcases. cbv zeta in Hcases.
  fold r in Hcases. fold bad in Hcases.
  destruct (warned_spec file s) as [Hwr Hwp]. fold r in Hwr, Hwp. fold unknown in Hwp.
  split; [intros c; apply unknown_contexts_spec|].
  split; [|split; [|split; [intros x; apply unknown_settings_spec|split]]].
  - rewrite Hcases. destruct bad; exact Hwp.
  - unfold r'. rewrite Hcases. destruct bad; simpl; [|now rewrite Hwr].
    apply load_values_keys.
  - intros Hbad. unfold r'. rewrite Hcases. destruct bad; [congruence|]. simpl. auto.
  - intros Hbad. unfold r'. rewrite Hcases, Hbad. simpl. split; [reflexivity|].
    intros c n. rewrite load_values_lookup by now apply known_part_wf.
    rewrite known_part_value. unfold PyDict.contains, lookup.
    destruct (PyDict.get c r); [reflexivity|].
    now destruct (file_value file c n).
Qed.

Definition with_file (file : FileSettings) (s : state) : state :=
  mkState (_registered_settings s) (_verbs s) (printed s) (Some file) (saved s).

(** A file that sets two registered settings and has a context that no
    plugin registers. *)
Definition sample_file : FileSettings :=
  [("lets", [("verbose", VStr "on")]);
   ("deploy", [("target", VStr "eu")]);
   ("test", [("suites", VList ["nightly"])])].

(** A file with a misspelt setting and a setting of another plugin in
    registered contexts. *)
Definition sample_bad_file : FileSettings :=
  [("lets", [("verbos", VStr "on"); ("verbose", VStr "on")]);
   ("test", [("env", VStr "x")])].

Lemma load_settings_policy_witness :
  (fst (_load_settings (with_file sample_file sample)) = Ret tt /\
   printed (snd (_load_settings (with_file sample_file sample)))
   = [Warning "Unknown contexts found in .letsrc: deploy"] /\
   get_setting (snd (_load_settings (with_file sample_file sample))) "lets" "verbose"
   = Some (VStr "on") /\
   get_setting (snd (_load_settings (with_file sample_file sample))) "deploy" "target"
   = None) /\
  fst (_load_settings (with_file sample_bad_file sample))
  = Raise (AttributeError "Unknown contexts found in .letsrc: lets.verbos ,test.env").
Proof.
  assert (Hwf : forall f, NoDup (PyDict.keys f) ->
                   Forall (fun cv => NoDup (PyDict.keys (snd cv))) f -> file_wf f).
  { intros f H1 H2. split; [exact H1|]. intros c fs Hin.
    rewrite Forall_forall in H2. exact (H2 (c, fs) Hin). }
  assert (Hne : forall a b : string, String.eqb a b = false -> a <> b).
  { intros a b H. now apply String.eqb_neq. }
  split.
  - pose proof (load_settings_policy (with_file sample_file sample) sample_file eq_refl) as H.
    destruct H as (_ & Hp & _ & _ & _ & Hok).
    { apply Hwf.
      - repeat constructor; simpl; intros H; repeat destruct H as [H|H];
          try discriminate; auto.
      - repeat constructor; simpl; tauto. }
    destruct (Hok eq_refl) as [Hret Hval].
    split; [exact Hret|]. split; [exact Hp|].
    unfold get_setting. rewrite !Hval. split; reflexivity.
  - pose proof (load_settings_policy (with_file sample_bad_file sample) sample_bad_file
                  eq_refl) as H.
    destruct H as (_ & _ & _ & _ & Hbad & _).
    { apply Hwf.
      - repeat constructor; simpl; intros H; repeat destruct H as [H|H];
          try discriminate; auto.
      - repeat constructor; simpl; intros H; repeat destruct H as [H|H];
          try discriminate; auto. }
    apply Hbad. discriminate.
Defined.

(** *** C5: dispatch of an ambiguous and of a qualified verb *)

Lemma filter_and {A} (p q : A -> bool) (l : list A) :
  filter (fun x => p x && q x) l = filter q (filter p l).
Proof.
  induction l as [|x tl IH]; simpl; [reflexivity|].
  destruct (p x); simpl; [destruct (q x)|]; now rewrite IH.
Qed.

Lemma resolve_verbs_unqualified s name :
  PyStr.contains "." name = false ->
  _resolve_verbs s name = filter (fun v => String.eqb (verb v) name) (_verbs s).
Proof.
  intros H. unfold _resolve_verbs. rewrite (qualify_unqualified name H).
  apply filter_ext. intros v. simpl. apply andb_true_r.
Qed.

Lemma two_members {A} (l : list A) x y :
  In x l -> In y l -> x <> y -> exists a b rest, l = a :: b :: rest.
Proof.
  destruct l as [|a [|b rest]]; simpl.
  - tauto.
  - intros [<-|[]] [<-|[]] H. congruence.
  - intros _ _ _. now exists a, b, rest.
Qed.

Section DispatchFacts.
Variable dissect_doc : func -> result Doc.
Variable py_str : value -> string.
Variable plugin_call : string -> string -> string -> list string -> M Z.

Let process := process_arguments dissect_doc py_str plugin_call.

Lemma process_ambiguous s arg0 rest a b more :
  _resolve_verbs s arg0 = a :: b :: more ->
  process (arg0 :: rest) s
  = (Ret (-1)%Z, says (Warning (ambiguous_verb_msg (a :: b :: more))) s).
Proof.
  intros H. unfold process, process_arguments. rewrite H. reflexivity.
Qed.

(** A verb outside the reserved context, other than get and set, called
    without any of the words the dispatcher reacts to. *)
Lemma process_plain s arg0 rest v :
  _resolve_verbs s arg0 = [v] ->
  String.eqb (vcontext v) "lets" = false ->
  PyStr.mem (verb v) ["get"; "set"] = false ->
  PyStr.mem "verbose" (arg0 :: rest) = false ->
  PyStr.mem "lets.verbose" (arg0 :: rest) = false ->
  PyStr.mem "help" rest = false ->
  process (arg0 :: rest) s
  = call dissect_doc py_str plugin_call (process_func v) arg0 rest s.
Proof.
  intros Hv Hctx Hverb Hvb Hlvb Hhelp.
  unfold process, process_arguments. rewrite Hv.
  unfold bind, check_verbose. rewrite Hctx, Hverb, Hvb, Hlvb. simpl.
  now rewrite Hhelp.
Qed.
End DispatchFacts.

(** C5. Whatever the handlers are: in a registry whose verbs named [run] are
    exactly [build.run] and [test.run], in either order of registration,
    dispatching [run] with any further arguments prints the warning that
    lists the two and returns [-1] without calling anything, and
    dispatching [build.run] calls the function registered for the build
    verb, also with further arguments that are none of [help], [verbose]
    and [lets.verbose].  In any registry, an unqualified name that is the
    verb of entries in two different contexts is answered by the warning and
    [-1]. *)
Theorem dispatch_ambiguous_and_qualified :
  forall dissect_doc py_str plugin_call s,
    (forall fb ft,
       Permutation (filter (fun v => String.eqb (verb v) "run") (_verbs s))
                   [mkVerb "build" "run" fb; mkVerb "test" "run" ft] ->
       (forall rest,
          exists vs,
            Permutation vs [mkVerb "build" "run" fb; mkVerb "test" "run" ft] /\
            process_arguments dissect_doc py_str plugin_call ("run" :: rest) s
            = (Ret (-1)%Z, says (Warning (ambiguous_verb_msg vs)) s)) /\
       (forall rest,
          PyStr.mem "help" rest = false ->
          PyStr.mem "verbose" rest = false ->
          PyStr.mem "lets.verbose" rest = false ->
          process_arguments dissect_doc py_str plugin_call ("build.run" :: rest) s
          = call dissect_doc py_str plugin_call fb "build.run" rest s)) /\
    (forall name rest v1 v2,
       PyStr.contains "." name = false ->
       In v1 (_verbs s) -> In v2 (_verbs s) ->
       verb v1 = name -> verb v2 = name -> vcontext v1 <> vcontext v2 ->
       process_arguments dissect_doc py_str plugin_call (name :: rest) s
       = (Ret (-1)%Z, says (Warning (ambiguous_verb_msg (_resolve_verbs s name))) s)).
Proof.
  intros dissect_doc py_str plugin_call s. split.
  - intros fb ft Hperm. split.
    + intros rest. exists (_resolve_verbs s "run").
      pose proof (resolve_verbs_unqualified s "run" eq_refl) as Hf.
      split; [now rewrite Hf|].
      apply Permutation_sym, Permutation_length_2_inv in Hperm.
      rewrite <- Hf in Hperm.
      destruct Hperm as [H|H]; rewrite H; apply process_ambiguous; exact H.
    + intros rest Hhelp Hvb Hlvb.
      apply process_plain with (v := mkVerb "build" "run" fb); try reflexivity;
        try assumption.
      unfold _resolve_verbs.
      change (qualify "build.run") with ("build", "run"). cbv iota beta.
      rewrite (filter_and (fun c => String.eqb (verb c) "run")
                          (fun c => PyStr.mem "build" [""; vcontext c])).
      apply Permutation_sym, Permutation_length_2_inv in Hperm.
      destruct Hperm as [-> | ->]; reflexivity.
  - intros name rest v1 v2 Hname Hin1 Hin2 Hv1 Hv2 Hctx.
    destruct (two_members (_resolve_verbs s name) v1 v2) as (a & b & more & Hl).
    + rewrite resolve_verbs_unqualified by exact Hname.
      apply filter_In. split; [exact Hin1 | now apply String.eqb_eq].
    + rewrite resolve_verbs_unqualified by exact Hname.
      apply filter_In. split; [exact Hin2 | now apply String.eqb_eq].
    + congruence.
    + rewrite Hl. now apply process_ambiguous.
Qed.

Lemma dispatch_ambiguous_and_qualified_witness :
  process_arguments sample_docs sample_str sample_call ["build.run"; "fast"] sample
  = sample_call "build" "run" "build.run" ["fast"] sample /\
  process_arguments sample_docs sample_str sample_call ["run"; "fast"] sample
  = (Ret (-1)%Z, says (Warning (ambiguous_verb_msg (_resolve_verbs sample "run"))) sample).
Proof.
  split.
  - apply (proj2 (proj1 (dispatch_ambiguous_and_qualified sample_docs sample_str
                            sample_call sample)
                    (FPlugin "build" "run") (FPlugin "test" "run")
                    (Permutation_refl _)) ["fast"]);
      reflexivity.
  - apply (proj2 (dispatch_ambiguous_and_qualified sample_docs sample_str sample_call sample)
             "run" ["fast"] (mkVerb "build" "run" (FPlugin "build" "run"))
             (mkVerb "test" "run" (FPlugin "test" "run")));
      try reflexivity; simpl; auto; discriminate.
Defined.

(** *** C6: the [verbose] word on the command line *)

(** C6, at the input where the code departs from it. Dispatching
    [build.run lets.verbose verbose] on the sample turns the verbose setting
    on and takes the bare word out, but the handler of [build.run] is
    called with [lets.verbose] still among its arguments. *)
Theorem qualified_verbose_reaches_handler :
  forall dissect_doc py_str plugin_call,
    get_setting sample "lets" "verbose" = Some (VStr "off") /\
    exists s',
      process_arguments dissect_doc py_str plugin_call
                        ["build.run"; "lets.verbose"; "verbose"] sample
      = plugin_call "build" "run" "build.run" ["lets.verbose"] s' /\
      get_setting s' "lets" "verbose" = Some (VStr "on").
Proof.
  intros dissect_doc py_str plugin_call. split; [reflexivity|].
  eexists. split; reflexivity.
Qed.

(** *** C7: protected settings *)

(** A state after more printed lines. *)
Definition prints (es : list event) (s : state) : state :=
  mkState (_registered_settings s) (_verbs s) (printed s ++ es) (letsrc s) (saved s).

Lemma prints_nil s : prints [] s = s.
Proof. destruct s. unfold prints. simpl. now rewrite app_nil_r. Qed.

Lemma prints_prints es1 es2 s : prints es2 (prints es1 s) = prints (es1 ++ es2) s.
Proof. unfold prints. simpl. now rewrite app_assoc. Qed.

Lemma for_each_emit {A} (f : A -> event) (l : list A) : forall s,
  for_each l (fun x => emit (f x)) s = (Ret tt, prints (map f l) s).
Proof.
  induction l as [|x tl IH]; intros s; simpl.
  - now rewrite prints_nil.
  - unfold bind. simpl. rewrite IH. f_equal. apply (prints_prints [f x]).
Qed.

(** The registered settings a listing shows. *)
Definition visible (settings : SettingContextType) : SettingContextType :=
  filter (fun ns => negb (PyStr.startswith "_" (fst ns))) settings.

Definition visible_settings (r : SettingsType) : list (string * string * Setting) :=
  flat_map (fun cs => map (fun ns => (fst cs, fst ns, snd ns)) (visible (snd cs))) r.

Definition listed_line (m : nat) (x : string * string * Setting) : event :=
  setting_line m (fst (fst x)) (snd (fst x)) (snd x).

Lemma list_context_spec m c (settings : SettingContextType) : forall s,
  for_each settings
    (fun ns => if PyStr.startswith "_" (fst ns) then ret tt
               else emit (setting_line m c (fst ns) (snd ns))) s
  = (Ret tt,
     prints (map (listed_line m) (map (fun ns => (c, fst ns, snd ns)) (visible settings))) s).
Proof.
  induction settings as [|[n st] tl IH]; intros s; simpl.
  - now rewrite prints_nil.
  - unfold bind. destruct (PyStr.startswith "_" n); simpl.
    + apply IH.
    + rewrite IH. f_equal. apply (prints_prints [_]).
Qed.

Lemma list_settings_spec m r : forall s,
  list_settings m r s = (Ret tt, prints (map (listed_line m) (visible_settings r)) s).
Proof.
  unfold list_settings, visible_settings.
  induction r as [|[c settings] tl IH]; intros s; simpl.
  - now rewrite prints_nil.
  - unfold bind. rewrite list_context_spec, IH, prints_prints, map_app. reflexivity.
Qed.

Lemma visible_settings_spec r c n st :
  In (c, n, st) (visible_settings r) ->
  PyStr.startswith "_" n = false /\
  exists settings, In (c, settings) r /\ In (n, st) settings.
Proof.
  unfold visible_settings, visible. rewrite in_flat_map.
  intros ([c0 settings] & Hin & Hx). apply in_map_iff in Hx as ([n0 st0] & [= -> -> ->] & Hn).
  apply filter_In in Hn as [Hn Hv]. simpl in *. split.
  - now apply negb_true_iff.
  - now exists settings.
Qed.

(** What [get] may print about: a registered, unprotected setting and the
    value it holds. *)
Definition shown (r : SettingsType) (kv : string * value) : Prop :=
  exists c n st,
    fst kv = qualified (c, n) /\ PyStr.startswith "_" n = false /\
    lookup r c n = Some st /\ snd kv = svalue st.

Lemma in_set {V} k (v : V) d x :
  In x (PyDict.set k v d) -> In x d \/ x = (k, v).
Proof.
  induction d as [|[k0 v0] tl IH]; simpl.
  - intros [<-|[]]. now right.
  - destruct (String.eqb k k0); simpl.
    + intros [<-|H]; auto.
    + intros [<-|H]; auto. apply IH in H as [H|H]; auto.
Qed.

Lemma get_record_shown cns : forall results s out s',
  get_record cns results s = (Ret out, s') ->
  s' = s /\
  forall kv, In kv out -> In kv results \/ shown (_registered_settings s) kv.
Proof.
  induction cns as [|[c n] tl IH]; intros results s out s'; simpl.
  - intros [= <- <-]. auto.
  - destruct (PyStr.startswith "_" n) eqn:Hp; simpl; [apply IH|].
    destruct (lookup (_registered_settings s) c n) as [st|] eqn:Hl; [|discriminate].
    intros H. apply IH in H as [-> H]. split; [reflexivity|].
    intros kv Hkv. apply H in Hkv as [Hkv|Hkv]; [|now right].
    apply in_set in Hkv as [Hkv| ->]; [now left|].
    right. now exists c, n, st.
Qed.

Lemma get_loop_shown args : forall results s out s',
  get_loop args results s = (Ret (Some out), s') ->
  s' = s /\
  forall kv, In kv out -> In kv results \/ shown (_registered_settings s) kv.
Proof.
  induction args as [|arg tl IH]; intros results s out s'; simpl.
  - intros [= <- <-]. auto.
  - destruct (get_matches (_registered_settings s) arg) as [|cn cns]; [run; discriminate|].
    unfold bind.
    destruct (get_record (cn :: cns) results s) as [[mid|e] s1] eqn:Hrec; [|discriminate].
    apply get_record_shown in Hrec as [-> Hmid].
    intros H. apply IH in H as [-> H]. split; [reflexivity|].
    intros kv Hkv. apply H in Hkv as [Hkv|Hkv]; [|now right]. now apply Hmid.
Qed.

Lemma get_success s args s' :
  get args s = (Ret 0%Z, s') ->
  exists results max_length,
    get_loop (get_args (_registered_settings s) args) [] s = (Ret (Some results), s) /\
    PyStr.max_of (map String.length (PyDict.keys results)) = Some max_length /\
    s' = prints (map (get_line max_length) results) s.
Proof.
  unfold get, bind.
  destruct (get_loop (get_args (_registered_settings s) args) [] s)
    as [[[results|]|e] s1] eqn:Hloop; [|run; discriminate|discriminate].
  destruct (get_loop_shown _ _ _ _ _ Hloop) as [-> _].
  destruct (PyStr.max_of (map String.length (PyDict.keys results))) as [m|] eqn:Hm;
    [|run; discriminate].
  rewrite for_each_emit. unfold ret. intros [= <-]. now exists results, m.
Qed.

Definition overview_intro : list event :=
  [Info "Usage: Lets [VERB] [OPTIONS]" false 0;
   Info "" false 0;
   Info "DESCRIPTION" true 0;
   Info help_intro_1 false 2;
   Info "" false 0;
   Info help_intro_2 false 2;
   Info "" false 0;
   Info help_intro_3 false 2;
   Info "" false 0;
   Info "AVAILABLE VERBS:" true 0].

Definition overview_middle : list event :=
  [Info "" false 0;
   Info "Use 'lets help [VERB]' for more information about the verb" false 0;
   Info "" false 0;
   Info "AVAILABLE SETTINGS:" true 0].

Definition overview_end : list event :=
  [Info "" false 0;
   Info "Use 'lets help [SETTING]' for more information about the setting" false 0].

Lemma bind_emit {A} e (k : unit -> M A) s : bind (emit e) k s = k tt (prints [e] s).
Proof. reflexivity. Qed.

Section HelpFacts.
Variable dissect_doc : func -> result Doc.
Variable py_str : value -> string.

Lemma list_verbs_spec m verbs : forall s s',
  list_verbs dissect_doc m verbs s = (Ret tt, s') ->
  exists docs,
    List.length docs = List.length verbs /\
    s' = prints (map (fun cd => verb_line m (fst cd) (snd cd)) (combine verbs docs)) s.
Proof.
  unfold list_verbs.
  induction verbs as [|cmd tl IH]; intros s s'; simpl.
  - intros [= <-]. exists []. now rewrite prints_nil.
  - unfold bind at 1. unfold bind at 1. unfold dissect.
    destruct (dissect_doc (process_func cmd)) as [doc|e]; [|discriminate].
    simpl. intros H. apply IH in H as (docs & Hlen & ->).
    exists (doc :: docs). split; [simpl; now rewrite Hlen|].
    change (prints ?es {| _registered_settings := _; _verbs := _; printed := _;
                          letsrc := _; saved := _ |})
      with (prints es (prints [verb_line m cmd doc] s)).
    now rewrite prints_prints.
Qed.

(** What [help] without arguments prints when it returns: the settings
    under AVAILABLE SETTINGS are the visible ones. *)
Lemma help_overview_spec s s' :
  help dissect_doc py_str [] s = (Ret 0%Z, s') ->
  exists max_verb_length docs max_setting_length,
    List.length docs = List.length (_verbs s) /\
    s' = prints
           (overview_intro
            ++ map (fun cd => verb_line max_verb_length (fst cd) (snd cd))
                   (combine (_verbs s) docs)
            ++ overview_middle
            ++ map (listed_line max_setting_length)
                   (visible_settings (_registered_settings s))
            ++ overview_end) s.
Proof.
  unfold help, help_overview, info, info_at.
  repeat (rewrite bind_emit; cbv beta). rewrite !prints_prints.
  unfold bind at 1. cbn [_verbs prints].
  destruct (PyStr.max_of _) as [mv|]; [|discriminate].
  destruct (list_verbs dissect_doc (mv + 1) (_verbs s) _) as [[[]|e] s1] eqn:Hv;
    [|discriminate].
  apply list_verbs_spec in Hv as (docs & Hlen & ->).
  repeat (rewrite bind_emit; cbv beta). rewrite !prints_prints.
  unfold bind at 1. cbn [_registered_settings prints].
  destruct (PyStr.max_of _) as [ms|]; [|discriminate].
  rewrite list_settings_spec.
  repeat (rewrite bind_emit; cbv beta). rewrite !prints_prints.
  unfold ret. intros [= <-].
  exists (mv + 1), docs, ms. split; [exact Hlen|].
  f_equal. cbn [app]. rewrite <- !app_assoc. reflexivity.
Qed.
End HelpFacts.

Definition unknown_setting_msg (name : string) : string := "Unknown setting: " ++ name.

Lemma set_setting_spec s name v c n st :
  matching (_registered_settings s) (fst (qualify name)) (snd (qualify name)) = [(c, n)] ->
  lookup (_registered_settings s) c n = Some st ->
  exists s',
    set_setting name v s = (Ret None, s') /\
    if value_eqb (svalue st) v then s' = s else get_setting s' c n = Some v.
Proof.
  intros Hm Hl. unfold set_setting, bind at 1, _resolve_setting.
  destruct (qualify name) as [ctx nm]. simpl in Hm.
  rewrite andb_false_r, Hm, Hl.
  destruct (value_eqb (svalue st) v) eqn:E; simpl.
  - exists s. split; reflexivity.
  - eexists. split; [reflexivity|].
    unfold get_setting. simpl. now rewrite (lookup_assign_same _ _ _ v _ Hl).
Qed.

(** C7, as the code has it. Whatever [get] prints when it returns [0] is a
    line for a registered setting whose name does not start with an
    underscore, and so is every line [help] without arguments prints under
    AVAILABLE SETTINGS.  Naming a protected setting, qualified or not, in
    [set], [add] or [remove] is answered by the error for an unknown setting
    and [-1], with nothing changed.  The methods [get_setting] and
    [set_setting] do reach it: they read and assign a setting whatever its
    name starts with. *)
Theorem protected_hidden_and_refused :
  (forall s args s',
     get args s = (Ret 0%Z, s') ->
     exists results max_length,
       s' = prints (map (get_line max_length) results) s /\
       forall kv, In kv results -> shown (_registered_settings s) kv) /\
  (forall dissect_doc py_str s s',
     help dissect_doc py_str [] s = (Ret 0%Z, s') ->
     exists max_verb_length docs max_setting_length,
       List.length docs = List.length (_verbs s) /\
       s' = prints
              (overview_intro
               ++ map (fun cd => verb_line max_verb_length (fst cd) (snd cd))
                      (combine (_verbs s) docs)
               ++ overview_middle
               ++ map (listed_line max_setting_length)
                      (visible_settings (_registered_settings s))
               ++ overview_end) s /\
       forall c n st,
         In (c, n, st) (visible_settings (_registered_settings s)) ->
         PyStr.startswith "_" n = false) /\
  (forall s name arg1 rest,
     PyStr.startswith "_" (snd (qualify name)) = true ->
     let refused := (Ret (-1)%Z, says (Error (unknown_setting_msg name)) s) in
     set (name :: arg1 :: rest) s = refused /\
     add (name :: arg1 :: rest) s = refused /\
     remove (name :: arg1 :: rest) s = refused) /\
  (forall s name v c n st,
     matching (_registered_settings s) (fst (qualify name)) (snd (qualify name))
     = [(c, n)] ->
     lookup (_registered_settings s) c n = Some st ->
     get_setting s c n = Some (svalue st) /\
     exists s',
       set_setting name v s = (Ret None, s') /\
       if value_eqb (svalue st) v then s' = s else get_setting s' c n = Some v).
Proof.
  split; [|split; [|split]].
  - intros s args s' H.
    destruct (get_success _ _ _ H) as (results & m & Hloop & _ & ->).
    exists results, m. split; [reflexivity|].
    intros kv Hkv. destruct (get_loop_shown _ _ _ _ _ Hloop) as [_ Hshown].
    destruct (Hshown kv Hkv) as [[]|Hs]. exact Hs.
  - intros dissect_doc py_str s s' H.
    destruct (help_overview_spec _ _ _ _ H) as (mv & docs & ms & Hlen & ->).
    exists mv, docs, ms. split; [exact Hlen|]. split; [reflexivity|].
    intros c n st Hin. apply visible_settings_spec in Hin. exact (proj1 Hin).
  - intros s name arg1 rest Hp. cbv zeta.
    unfold set, add, remove, bind, unknown_setting_msg.
    rewrite (resolve_protected name false s Hp). repeat split.
  - intros s name v c n st Hm Hl. split.
    + unfold get_setting. now rewrite Hl.
    + now apply set_setting_spec.
Qed.

Lemma protected_hidden_and_refused_witness :
  set ["_token"; "t1"] sample
  = (Ret (-1)%Z, says (Error (unknown_setting_msg "_token")) sample) /\
  get_setting sample "build" "_token" = Some (VStr "t0") /\
  exists s', set_setting "_token" (VStr "t1") sample = (Ret None, s') /\
             get_setting s' "build" "_token" = Some (VStr "t1").
Proof.
  split; [|split].
  - apply (proj1 (proj2 (proj2 protected_hidden_and_refused)) sample "_token" "t1" []).
    reflexivity.
  - apply (proj1 (proj2 (proj2 (proj2 protected_hidden_and_refused)) sample "_token"
                    (VStr "t1") "build" "_token"
                    (mkSetting "Access token" None (VStr "t0") TStr)
                    eq_refl eq_refl)).
  - apply (proj2 (proj2 (proj2 (proj2 protected_hidden_and_refused)) sample "_token"
                    (VStr "t1") "build" "_token"
                    (mkSetting "Access token" None (VStr "t0") TStr)
                    eq_refl eq_refl)).
Defined.

(** C7 as stated fails: on the sample, [set] of the protected
    [build._token], qualified or not, returns [-1] and leaves its value,
    where [set] of [build.verbose] returns [0]; and [get] of it raises
    where [get] of [build.verbose] returns [0]. *)
Lemma protected_not_reached_by_get_and_set :
  fst (set ["build._token"; "t1"] sample) = Ret (-1)%Z /\
  fst (set ["_token"; "t1"] sample) = Ret (-1)%Z /\
  get_setting (snd (set ["build._token"; "t1"] sample)) "build" "_token"
  = Some (VStr "t0") /\
  fst (set ["build.verbose"; "high"] sample) = Ret 0%Z /\
  get_setting (snd (set ["build.verbose"; "high"] sample)) "build" "verbose"
  = Some (VStr "high") /\
  fst (get ["build._token"] sample)
  = Raise (ValueError "max() arg is an empty sequence") /\
  fst (get ["build.verbose"] sample) = Ret 0%Z.
Proof.
  vm_compute. repeat split.
Qed.

(** *** C1: an unqualified name registered under several contexts *)

(** The registry is a dict of dicts: no context twice, no setting twice in a
    context. *)
Definition registry_wf (r : SettingsType) : Prop :=
  PyDict.wf r /\ forall c settings, In (c, settings) r -> PyDict.wf settings.

Definition value_at (r : SettingsType) (cn : string * string) : value :=
  match lookup r (fst cn) (snd cn) with
  | Some st => svalue st
  | None => VStr ""
  end.

Lemma length_append (a b : string) :
  String.length (a ++ b) = String.length a + String.length b.
Proof. induction a as [|ch a IH]; simpl; [reflexivity | now rewrite IH]. Qed.

Lemma append_inj_l (t : string) : forall a b : string, a ++ t = b ++ t -> a = b.
Proof.
  induction a as [|x a IH]; destruct b as [|y b]; simpl; intros H.
  - reflexivity.
  - apply (f_equal String.length) in H. simpl in H. rewrite length_append in H. lia.
  - apply (f_equal String.length) in H. simpl in H. rewrite length_append in H. lia.
  - injection H as -> H. f_equal. now apply IH.
Qed.

Lemma in_get {V} k (v : V) d :
  NoDup (PyDict.keys d) -> In (k, v) d -> PyDict.get k d = Some v.
Proof.
  induction d as [|[k0 v0] tl IH]; simpl; [tauto|].
  intros Hnd. inversion Hnd as [|? ? Hnotin Hnd']; subst.
  intros [[= -> ->]|Hin]; [now rewrite String.eqb_refl|].
  destruct (String.eqb_spec k k0) as [->|Hne]; [|now apply IH].
  exfalso. apply Hnotin. now apply (in_map fst) in Hin.
Qed.

Lemma in_keys_get {V} k (d : PyDict.t V) :
  In k (PyDict.keys d) -> exists v, PyDict.get k d = Some v.
Proof.
  intros H. destruct (PyDict.get k d) as [v|] eqn:E; [now exists v|].
  apply get_none_keys in E. contradiction.
Qed.

Lemma matching_in r ctx nm c n :
  In (c, n) (matching r ctx nm) ->
  n = nm /\ exists settings, In (c, settings) r /\ In nm (PyDict.keys settings).
Proof.
  unfold matching. rewrite in_flat_map. intros ([c0 settings] & Hin & Hx).
  apply in_map_iff in Hx as (n0 & [= -> ->] & Hn).
  apply filter_In in Hn as [Hn Hp]. apply andb_true_iff in Hp as [Hp _].
  apply String.eqb_eq in Hp. subst. simpl in *. split; [reflexivity|].
  now exists settings.
Qed.

Lemma matching_lookup r ctx nm c n :
  registry_wf r -> In (c, n) (matching r ctx nm) ->
  n = nm /\ exists st, lookup r c nm = Some st.
Proof.
  intros [Hwf _] Hin. apply matching_in in Hin as (-> & settings & Hc & Hn).
  split; [reflexivity|]. unfold lookup. rewrite (in_get _ _ _ Hwf Hc).
  now apply in_keys_get.
Qed.

Lemma matching_nodup r ctx nm : registry_wf r -> NoDup (matching r ctx nm).
Proof.
  unfold registry_wf, PyDict.wf, matching.
  induction r as [|[c settings] tl IH]; simpl; intros [Hnd Hin]; [constructor|].
  inversion Hnd as [|? ? Hnotin Hnd']; subst.
  apply NoDup_app.
  - apply Finite.Injective_map_NoDup; [intros a b [= ->]; reflexivity|].
    apply NoDup_filter, (Hin c settings). now left.
  - apply IH. split; [exact Hnd'|]. intros c' s' H. apply (Hin c' s'). now right.
  - intros [c0 n0] H1 H2. apply in_map_iff in H1 as (n1 & [= <- <-] & _).
    apply in_flat_map in H2 as ([c2 s2] & Hc2 & Hx).
    apply in_map_iff in Hx as (n2 & [= -> ->] & _). simpl in *.
    apply Hnotin. now apply (in_map fst) in Hc2.
Qed.

Lemma qualified_nodup nm (cns : list (string * string)) :
  NoDup cns -> (forall cn, In cn cns -> snd cn = nm) -> NoDup (map qualified cns).
Proof.
  induction cns as [|[c n] tl IH]; simpl; intros Hnd Hnm; [constructor|].
  inversion Hnd as [|? ? Hnotin Hnd']; subst.
  constructor; [|apply IH; auto].
  intros Hin. apply in_map_iff in Hin as ([c' n'] & Heq & Hin).
  pose proof (Hnm (c, n) (or_introl eq_refl)) as H1.
  pose proof (Hnm (c', n') (or_intror Hin)) as H2. simpl in *. subst n n'.
  unfold qualified in Heq. simpl in Heq. apply append_inj_l in Heq. now subst.
Qed.

(** Matches with distinct keys, none protected, none recorded yet, are
    recorded in their order. *)
Lemma get_record_fresh s cns : forall results,
  (forall cn, In cn cns -> PyStr.startswith "_" (snd cn) = false) ->
  (forall cn, In cn cns ->
     exists st, lookup (_registered_settings s) (fst cn) (snd cn) = Some st) ->
  NoDup (map qualified cns) ->
  (forall cn, In cn cns -> PyDict.get (qualified cn) results = None) ->
  get_record cns results s
  = (Ret (results
          ++ map (fun cn => (qualified cn, value_at (_registered_settings s) cn)) cns)%list,
     s).
Proof.
  induction cns as [|[c n] tl IH]; intros results Hvis Hreg Hnd Hfresh; simpl.
  - now rewrite app_nil_r.
  - pose proof (Hvis (c, n) (or_introl eq_refl)) as Hv. simpl in Hv. rewrite Hv. simpl.
    destruct (Hreg (c, n) (or_introl eq_refl)) as [st Hst]. simpl in Hst. rewrite Hst.
    inversion Hnd as [|? ? Hnotin Hnd']; subst.
    rewrite (set_absent _ _ _ (Hfresh (c, n) (or_introl eq_refl))).
    rewrite IH.
    + unfold value_at at 2. simpl. rewrite Hst, <- app_assoc. reflexivity.
    + intros cn Hcn. apply Hvis. now right.
    + intros cn Hcn. apply Hreg. now right.
    + exact Hnd'.
    + intros cn Hcn. rewrite get_app_absent by (apply Hfresh; now right). simpl.
      destruct (String.eqb_spec (qualified cn) (qualified (c, n))) as [E|_];
        [|reflexivity].
      exfalso. apply Hnotin. rewrite <- E. now apply in_map.
Qed.

Lemma max_of_cons x l : exists m, PyStr.max_of (x :: l) = Some m.
Proof. simpl. eauto. Qed.

Lemma get_ambiguous s name c1 c2 more :
  PyStr.contains "." name = false ->
  PyStr.startswith "_" name = false ->
  matching (_registered_settings s) "" name = c1 :: c2 :: more ->
  registry_wf (_registered_settings s) ->
  PyDict.get name (_registered_settings s) = None ->
  exists max_length,
    get [name] s
    = (Ret 0%Z,
       prints (map (fun cn => get_line max_length
                                (qualified cn, value_at (_registered_settings s) cn))
                   (c1 :: c2 :: more)) s).
Proof.
  intros Hdot Hprot Hm Hwf Hctx.
  assert (Hin : forall cn, In cn (c1 :: c2 :: more) ->
                  snd cn = name /\
                  exists st, lookup (_registered_settings s) (fst cn) (snd cn) = Some st).
  { intros [c n] Hcn. rewrite <- Hm in Hcn.
    apply (matching_lookup _ _ _ _ _ Hwf) in Hcn as [-> Hst]. auto. }
  assert (Hrec := get_record_fresh s (c1 :: c2 :: more) []).
  rewrite app_nil_l in Hrec.
  unfold get, bind. cbn [get_args get_loop].
  unfold get_matches. rewrite Hctx, (qualify_unqualified name Hdot), Hm.
  unfold bind. rewrite Hrec.
  - cbn [get_loop ret].
    destruct (max_of_cons
                (String.length (qualified c1))
                (map String.length
                   (PyDict.keys (map (fun cn => (qualified cn,
                                                 value_at (_registered_settings s) cn))
                                     (c2 :: more))))) as [m Hmax].
    exists m. cbn [map PyDict.keys fst] in *. unfold PyDict.keys in *.
    cbn [map fst] in *. rewrite Hmax.
    rewrite for_each_emit. unfold ret. f_equal. f_equal.
    cbn [map]. now rewrite map_map.
  - intros cn Hcn. destruct (Hin cn Hcn) as [-> _]. exact Hprot.
  - intros cn Hcn. now destruct (Hin cn Hcn).
  - apply qualified_nodup with (nm := name).
    + rewrite <- Hm. now apply matching_nodup.
    + intros cn Hcn. now destruct (Hin cn Hcn).
  - reflexivity.
Qed.

(** C1, as the code has it. Let an unqualified, unprotected name be
    registered under two contexts or more.  [set], [add] and [remove] of it
    print one warning that lists every [context.name] candidate in the
    order of registration, return [-1] and change nothing; [help] of it
    prints the same warning and then, when no verb has that name, reports
    an unknown option and returns [-1].  [get] does not go through that
    resolution: when the name is not itself the name of a context it prints
    one line for each candidate, in the same order, and returns [0]. *)
Theorem ambiguous_setting_name :
  forall s name c1 c2 more,
    PyStr.contains "." name = false ->
    PyStr.startswith "_" name = false ->
    matching (_registered_settings s) "" name = c1 :: c2 :: more ->
    let warned := says (Warning (ambiguous_setting_msg (c1 :: c2 :: more))) s in
    (forall arg1 rest,
       set (name :: arg1 :: rest) s = (Ret (-1)%Z, warned) /\
       add (name :: arg1 :: rest) s = (Ret (-1)%Z, warned) /\
       remove (name :: arg1 :: rest) s = (Ret (-1)%Z, warned)) /\
    (forall dissect_doc py_str,
       _resolve_verbs s name = [] ->
       help dissect_doc py_str [name] s
       = (Ret (-1)%Z, says (Info ("Unknown option: " ++ name) false 0) warned)) /\
    (registry_wf (_registered_settings s) ->
     PyDict.get name (_registered_settings s) = None ->
     exists max_length,
       get [name] s
       = (Ret 0%Z,
          prints (map (fun cn => get_line max_length
                                   (qualified cn, value_at (_registered_settings s) cn))
                      (c1 :: c2 :: more)) s)).
Proof.
  intros s name c1 c2 more Hdot Hprot Hm warned.
  assert (Hres : forall graceful,
            _resolve_setting name graceful false s = (Ret None, warned)).
  { intros graceful. apply resolve_ambiguous.
    - rewrite (qualify_unqualified name Hdot). simpl snd. now rewrite Hprot.
    - now rewrite (qualify_unqualified name Hdot). }
  split; [|split].
  - intros arg1 rest. unfold set, add, remove, bind. rewrite (Hres false).
    repeat split.
  - intros dissect_doc py_str Hverbs. unfold help, help_topics, bind.
    rewrite Hverbs, (Hres true). reflexivity.
  - intros Hwf Hctx. now apply get_ambiguous.
Qed.

Lemma sample_registry_wf : registry_wf (_registered_settings sample).
Proof.
  assert (Hne : forall a b : string, String.eqb a b = false -> a <> b).
  { intros a b H. now apply String.eqb_neq. }
  split.
  - repeat constructor; simpl; intros H; repeat destruct H as [H|H];
      try discriminate; auto.
  - intros c settings Hin. simpl in Hin.
    repeat destruct Hin as [Hin|Hin]; try contradiction; injection Hin as <- <-;
      repeat constructor; simpl; intros H; repeat destruct H as [H|H];
        try discriminate; auto.
Qed.

Lemma ambiguous_setting_name_witness :
  set ["verbose"; "on"] sample
  = (Ret (-1)%Z,
     says (Warning (ambiguous_setting_msg [("build", "verbose"); ("lets", "verbose")]))
          sample) /\
  exists max_length,
    get ["verbose"] sample
    = (Ret 0%Z,
       prints [get_line max_length ("build.verbose", VStr "low");
               get_line max_length ("lets.verbose", VStr "off")] sample).
Proof.
  assert (Hm : matching (_registered_settings sample) "" "verbose"
               = [("build", "verbose"); ("lets", "verbose")]) by reflexivity.
  pose proof (ambiguous_setting_name sample "verbose" ("build", "verbose")
                ("lets", "verbose") [] eq_refl eq_refl Hm) as H.
  cbv zeta in H. destruct H as (Hset & _ & Hget). split.
  - apply (Hset "on" []).
  - apply (Hget sample_registry_wf eq_refl).
Defined.

(** C1 as stated fails: on the sample, where [verbose] is registered under
    [build] and under [lets], [set verbose on] stops with the warning and
    [-1], but [get verbose] prints both candidates and returns [0]. *)
Lemma get_does_not_report_ambiguity :
  set ["verbose"; "on"] sample
  = (Ret (-1)%Z,
     says (Warning "Ambiguous setting found. Use one of following settings: build.verbose, lets.verbose")
          sample) /\
  get ["verbose"] sample
  = (Ret 0%Z,
     prints [Info "build.verbose: low" false 0; Info " lets.verbose: off" false 0] sample) /\
  fst (get ["verbose"] sample) <> fst (set ["verbose"; "on"] sample).
Proof.
  vm_compute. repeat split. discriminate.
Qed.

(** ** More of the code *)

(** *** What the operations leave alone *)

(** What [register_setting] fixes for a setting besides its value. *)
Definition meta (st : Setting) : string * option (list string) * pytype :=
  (description st, options st, stype st).

(** The registry without the values: the contexts, the names in each, and
    what was registered for each name, all in order. *)
Definition layout (r : SettingsType)
  : list (string * list (string * (string * option (list string) * pytype))) :=
  map (fun cs => (fst cs, map (fun ns => (fst ns, meta (snd ns))) (snd cs))) r.

(** A computation that does nothing to the state but print. *)
Definition only_prints {A} (m : M A) : Prop :=
  forall s r s', m s = (r, s') -> exists es, s' = prints es s.

Lemma only_prints_ret {A} (a : A) : only_prints (ret a).
Proof. intros s r s' [= <- <-]. exists []. now rewrite prints_nil. Qed.

Lemma only_prints_raise {A} e : only_prints (@raise A e).
Proof. intros s r s' [= <- <-]. exists []. now rewrite prints_nil. Qed.

Lemma only_prints_emit e : only_prints (emit e).
Proof. intros s r s' [= <- <-]. now exists [e]. Qed.

Lemma only_prints_bind {A B} (m : M A) (k : A -> M B) :
  only_prints m -> (forall a, only_prints (k a)) -> only_prints (bind m k).
Proof.
  intros Hm Hk s r s'. unfold bind.
  destruct (m s) as [[a|e] s1] eqn:E; destruct (Hm _ _ _ E) as [es1 ->].
  - intros H. destruct (Hk a _ _ _ H) as [es2 ->].
    exists (es1 ++ es2)%list. apply prints_prints.
  - intros [= <- <-]. now exists es1.
Qed.

Lemma only_prints_for_each {A} (l : list A) (body : A -> M unit) :
  (forall x, only_prints (body x)) -> only_prints (for_each l body).
Proof.
  intros Hb. induction l as [|x tl IH]; simpl.
  - apply only_prints_ret.
  - apply only_prints_bind; [apply Hb | intros _; exact IH].
Qed.

(** A computation that reads the state to choose what it does. *)
Lemma only_prints_read {A} (f : state -> M A) :
  (forall s0, only_prints (f s0)) -> only_prints (fun s => f s s).
Proof. intros H s r s' E. exact (H s s r s' E). Qed.

Ltac prints_step :=
  lazymatch goal with
  | |- only_prints (ret _) => apply only_prints_ret
  | |- only_prints (raise _) => apply only_prints_raise
  | |- only_prints (emit _) => apply only_prints_emit
  | |- only_prints (bind _ _) => apply only_prints_bind; [|intros ?]
  | |- only_prints (for_each _ _) => apply only_prints_for_each; intros ?
  end.

Ltac prints_done :=
  first [ exists []; symmetry; apply prints_nil | eexists; reflexivity ].

Lemma only_prints_resolve arg graceful allow :
  only_prints (_resolve_setting arg graceful allow).
Proof.
  unfold _resolve_setting. destruct (qualify arg) as [ctx nm].
  destruct (PyStr.startswith "_" nm && negb allow).
  - unfold error. repeat prints_step.
  - intros s r s'.
    destruct (matching (_registered_settings s) ctx nm) as [|[c n] [|c2 more]].
    + destruct graceful; run; intros [= <- <-]; prints_done.
    + destruct (lookup (_registered_settings s) c n); intros [= <- <-]; prints_done.
    + run. intros [= <- <-]. prints_done.
Qed.

Lemma only_prints_get_record cns : forall results, only_prints (get_record cns results).
Proof.
  induction cns as [|[c n] tl IH]; intros results; simpl.
  - apply only_prints_ret.
  - destruct (negb (PyStr.startswith "_" n)); [|apply IH].
    intros s r s'. destruct (lookup (_registered_settings s) c n).
    + apply IH.
    + intros [= <- <-]. prints_done.
Qed.

Lemma only_prints_get_loop args : forall results, only_prints (get_loop args results).
Proof.
  induction args as [|arg tl IH]; intros results; simpl.
  - apply only_prints_ret.
  - intros s r s'. destruct (get_matches (_registered_settings s) arg) as [|cn cns].
    + run. intros [= <- <-]. prints_done.
    + apply only_prints_bind; [apply only_prints_get_record | intros a; apply IH].
Qed.

Lemma only_prints_get args : only_prints (get args).
Proof.
  intros s. unfold get. generalize (get_args (_registered_settings s) args). intros l.
  revert s. change (only_prints
    (r <- get_loop l [] ;;
     match r with
     | None => ret (-1)%Z
     | Some results =>
         match PyStr.max_of (map String.length (PyDict.keys results)) with
         | None => raise (ValueError "max() arg is an empty sequence")
         | Some max_length =>
             for_each results (fun kv => emit (get_line max_length kv)) ;;; ret 0%Z
         end
     end)).
  apply only_prints_bind; [apply only_prints_get_loop|].
  intros [results|]; [|apply only_prints_ret].
  destruct (PyStr.max_of _); repeat prints_step.
Qed.

Lemma only_prints_list_settings m r : only_prints (list_settings m r).
Proof.
  unfold list_settings. repeat prints_step.
  destruct (PyStr.startswith "_" _); prints_step.
Qed.

Section ReadOnly.
Variable dissect_doc : func -> result Doc.
Variable py_str : value -> string.

Lemma only_prints_dissect f : only_prints (dissect dissect_doc f).
Proof. intros s r s' [= <- <-]. prints_done. Qed.

Lemma only_prints_list_verbs m verbs : only_prints (list_verbs dissect_doc m verbs).
Proof.
  unfold list_verbs. repeat prints_step. apply only_prints_dissect.
Qed.

Lemma only_prints_help_overview : only_prints (help_overview dissect_doc).
Proof.
  unfold help_overview, info, info_at. repeat prints_step.
  - intros s r s'. destruct (PyStr.max_of _).
    + apply only_prints_list_verbs.
    + intros [= <- <-]. prints_done.
  - intros s r s'. destruct (PyStr.max_of _).
    + apply only_prints_list_settings.
    + intros [= <- <-]. prints_done.
Qed.

Lemma only_prints_help_verb cmd : only_prints (help_verb dissect_doc cmd).
Proof.
  unfold help_verb, info, info_at. repeat prints_step.
  - apply only_prints_dissect.
  - destruct (String.eqb _ ""); repeat prints_step.
  - destruct (doc_options _); repeat prints_step.
  - destruct (examples _); repeat prints_step.
Qed.

Lemma only_prints_help_setting arg st : only_prints (help_setting py_str arg st).
Proof.
  unfold help_setting, info, info_at. cbv zeta. repeat prints_step.
  - destruct (match options st with Some o => o | None => [] end); prints_step.
  - destruct (stype st); repeat prints_step.
Qed.

Lemma only_prints_help_topics args : only_prints (help_topics dissect_doc py_str args).
Proof.
  induction args as [|arg tl IH]; simpl; [apply only_prints_ret|].
  intros s. apply only_prints_bind; [apply only_prints_resolve|].
  intros setting.
  destruct (_resolve_verbs s arg) as [|cmd [|cmd2 more]], setting as [[[c n] st]|];
    unfold info, warning; repeat prints_step;
    try apply only_prints_help_verb; try apply only_prints_help_setting; exact IH.
Qed.

Lemma only_prints_help args : only_prints (help dissect_doc py_str args).
Proof.
  destruct args; [apply only_prints_help_overview | apply only_prints_help_topics].
Qed.
End ReadOnly.

(** X1. [get] and [help] are read-only: whatever they are given and however
    they end, by a return or by an exception, they have only printed; the
    registry, the verbs, the file and the writes are as they were. *)
Theorem get_and_help_only_print :
  forall dissect_doc py_str args s r s',
    get args s = (r, s') \/ help dissect_doc py_str args s = (r, s') ->
    exists lines, s' = prints lines s.
Proof.
  intros dissect_doc py_str args s r s' [H|H].
  - exact (only_prints_get args s r s' H).
  - exact (only_prints_help dissect_doc py_str args s r s' H).
Qed.

Lemma get_and_help_only_print_witness :
  exists lines,
    snd (help sample_docs sample_str ["build.run"; "build.env"; "nothing"] sample)
    = prints lines sample.
Proof.
  apply (get_and_help_only_print sample_docs sample_str
           ["build.run"; "build.env"; "nothing"] sample
           (fst (help sample_docs sample_str ["build.run"; "build.env"; "nothing"] sample))).
  right. apply surjective_pairing.
Defined.

(** A computation that keeps every setting registered as it was, value
    apart, and keeps the verbs. *)
Definition keeps_layout {A} (m : M A) : Prop :=
  forall s r s',
    m s = (r, s') ->
    layout (_registered_settings s') = layout (_registered_settings s) /\
    _verbs s' = _verbs s.

Lemma keeps_layout_prints {A} (m : M A) : only_prints m -> keeps_layout m.
Proof. intros H s r s' E. destruct (H s r s' E) as [es ->]. split; reflexivity. Qed.

Lemma keeps_layout_bind {A B} (m : M A) (k : A -> M B) :
  keeps_layout m -> (forall a, keeps_layout (k a)) -> keeps_layout (bind m k).
Proof.
  intros Hm Hk s r s'. unfold bind.
  destruct (m s) as [[a|e] s1] eqn:E; destruct (Hm _ _ _ E) as [H1 H2].
  - intros H. destruct (Hk a _ _ _ H) as [H3 H4]. split; congruence.
  - intros [= <- <-]. now split.
Qed.

Lemma map_values_set {V W} (g : V -> W) k v v0 (d : PyDict.t V) :
  PyDict.get k d = Some v0 -> g v = g v0 ->
  map (fun kv => (fst kv, g (snd kv))) (PyDict.set k v d)
  = map (fun kv => (fst kv, g (snd kv))) d.
Proof.
  intros Hget Hg. induction d as [|[k0 x0] tl IH]; simpl in *; [discriminate|].
  destruct (String.eqb_spec k k0) as [->|Hne]; simpl.
  - injection Hget as ->. now rewrite Hg.
  - now rewrite IH.
Qed.

Lemma layout_assign c n v r : layout (assign c n v r) = layout r.
Proof.
  unfold assign. destruct (PyDict.get c r) as [settings|] eqn:Hc; [|reflexivity].
  destruct (PyDict.get n settings) as [st|] eqn:Hn; [|reflexivity].
  unfold layout.
  apply (map_values_set (fun x => map (fun ns => (fst ns, meta (snd ns))) x)
                        c _ settings r Hc).
  now apply (map_values_set meta n _ st settings Hn).
Qed.

Lemma keeps_layout_set_value c n v : keeps_layout (set_value c n v).
Proof. intros s r s' [= <- <-]. simpl. split; [apply layout_assign | reflexivity]. Qed.

Lemma keeps_layout_save : keeps_layout _save_settings.
Proof. intros s r s' [= <- <-]. split; reflexivity. Qed.

Ltac layout_step :=
  lazymatch goal with
  | |- keeps_layout (bind _ _) => apply keeps_layout_bind; [|intros ?]
  | |- keeps_layout (set_value _ _ _) => apply keeps_layout_set_value
  | |- keeps_layout _save_settings => apply keeps_layout_save
  | |- keeps_layout (_resolve_setting _ _ _) =>
      apply keeps_layout_prints, only_prints_resolve
  | |- keeps_layout (ret _) => apply keeps_layout_prints, only_prints_ret
  | |- keeps_layout (raise _) => apply keeps_layout_prints, only_prints_raise
  | |- keeps_layout (error _) => apply keeps_layout_prints, only_prints_emit
  | |- keeps_layout (warning _) => apply keeps_layout_prints, only_prints_emit
  end.

Lemma keeps_layout_store c n st v : keeps_layout (store_if_changed c n st v).
Proof.
  unfold store_if_changed. layout_step; [|layout_step].
  destruct (negb (value_eqb (svalue st) v)); repeat layout_step.
Qed.

Lemma keeps_layout_refused st arg1 : keeps_layout (set_refused st arg1).
Proof.
  unfold set_refused. destruct (options st); [|layout_step].
  destruct (candidate (stype st) arg1); layout_step.
Qed.

Lemma keeps_layout_set args : keeps_layout (set args).
Proof.
  unfold set. destruct args as [|name [|arg1 rest]]; repeat layout_step.
  destruct a as [[[c n] st]|]; [|layout_step].
  layout_step; [apply keeps_layout_refused|].
  destruct a; [repeat layout_step|].
  destruct (stype st); try apply keeps_layout_store.
  destruct (invalid_values (arg1 :: rest)); [apply keeps_layout_store|repeat layout_step].
Qed.

Lemma keeps_layout_add args : keeps_layout (add args).
Proof.
  unfold add. destruct args as [|name [|arg1 rest]]; repeat layout_step.
  destruct a as [[[c n] st]|]; [|layout_step].
  destruct (stype st); [repeat layout_step| |].
  - destruct (svalue st); repeat layout_step.
  - destruct (invalid_values (arg1 :: rest)); [|repeat layout_step].
    destruct (svalue st); repeat layout_step.
Qed.

Lemma keeps_layout_remove args : keeps_layout (remove args).
Proof.
  unfold remove. destruct args as [|name [|arg1 rest]]; repeat layout_step.
  destruct a as [[[c n] st]|]; [|layout_step].
  assert (Hfin : forall vr, keeps_layout (remove_finish c n vr)).
  { intros [v [e|]]; unfold remove_finish; simpl; repeat layout_step. }
  destruct (stype st); [repeat layout_step | apply Hfin | apply Hfin].
Qed.

Lemma keeps_layout_set_setting name v : keeps_layout (set_setting name v).
Proof.
  unfold set_setting. repeat layout_step.
  destruct a as [[[c n] st]|]; [|layout_step].
  destruct (negb (value_eqb (svalue st) v)); repeat layout_step.
Qed.

Lemma layout_load_values file : forall r, layout (load_values file r) = layout r.
Proof.
  unfold load_values. induction file as [|[c fs] tl IH]; intros r; simpl; [reflexivity|].
  rewrite IH. clear IH. revert r.
  induction fs as [|[n v] fs IH]; intros r; simpl; [reflexivity|].
  rewrite IH. apply layout_assign.
Qed.

Lemma keeps_layout_load : keeps_layout _load_settings.
Proof.
  intros s r s'. destruct (letsrc s) as [file|] eqn:Hf.
  - rewrite (load_settings_cases s file Hf). cbv zeta.
    destruct (warned_spec file s) as [Hw _].
    assert (Hv : _verbs (warned file s) = _verbs s).
    { unfold warned. now destruct (unknown_contexts file (_registered_settings s)). }
    destruct (unknown_settings _ _); intros [= <- <-]; simpl.
    + split; [apply layout_load_values | exact Hv].
    + split; [now rewrite Hw | exact Hv].
  - unfold _load_settings. rewrite Hf. intros [= <- <-]. split; reflexivity.
Qed.

(** X2. Registration is final: [set], [add], [remove], [set_setting] and the
    load of the file, however they end, leave every context, every setting
    name, and the description, options and type of every setting as they
    were, in the same order, and leave the verbs; only values change. *)
Theorem mutators_keep_layout :
  forall args name v s r s',
    set args s = (r, s') \/ add args s = (r, s') \/ remove args s = (r, s') \/
    (exists r', set_setting name v s = (r', s')) \/
    (exists r', _load_settings s = (r', s')) ->
    layout (_registered_settings s') = layout (_registered_settings s) /\
    _verbs s' = _verbs s.
Proof.
  intros args name v s r s' [H|[H|[H|[[r' H]|[r' H]]]]].
  - exact (keeps_layout_set args s r s' H).
  - exact (keeps_layout_add args s r s' H).
  - exact (keeps_layout_remove args s r s' H).
  - exact (keeps_layout_set_setting name v s r' s' H).
  - exact (keeps_layout_load s r' s' H).
Qed.

Lemma mutators_keep_layout_witness :
  layout (_registered_settings (snd (set ["test.suites"; "a"; "b"] sample)))
  = layout (_registered_settings sample) /\
  _verbs (snd (set ["test.suites"; "a"; "b"] sample)) = _verbs sample.
Proof.
  apply (mutators_keep_layout ["test.suites"; "a"; "b"] "" (VStr "") sample
           (fst (set ["test.suites"; "a"; "b"] sample))).
  left. apply surjective_pairing.
Defined.

(** *** Registration *)

Lemma get_some_in {V} k (v : V) d : PyDict.get k d = Some v -> In (k, v) d.
Proof.
  induction d as [|[k0 v0] tl IH]; simpl; [discriminate|].
  destruct (String.eqb_spec k k0) as [->|Hne].
  - intros [= ->]. now left.
  - intros H. right. now apply IH.
Qed.

Lemma set_wf {V} k (v : V) d : PyDict.wf d -> PyDict.wf (PyDict.set k v d).
Proof.
  unfold PyDict.wf. intros Hnd. rewrite keys_set. unfold PyDict.contains.
  destruct (PyDict.get k d) eqn:E; [exact Hnd|].
  apply get_none_keys in E.
  apply NoDup_app; [exact Hnd | constructor; [tauto | constructor] |].
  intros x Hx [<-|[]]. tauto.
Qed.

Definition already_exists_msg (context setting : string) : string :=
  "Setting " ++ context ++ "." ++ setting ++ " already exists".

Lemma register_setting_new s c n d o v :
  lookup (_registered_settings s) c n = None ->
  exists r',
    register_setting c n d o v s = (Ret tt, with_settings r' s) /\
    lookup r' c n = Some (mkSetting d o v (type_of v)) /\
    (forall c' n', (c', n') <> (c, n) ->
       lookup r' c' n' = lookup (_registered_settings s) c' n') /\
    (registry_wf (_registered_settings s) -> registry_wf r').
Proof.
  intros Hl. unfold register_setting. rewrite Hl.
  set (r := _registered_settings s) in *.
  set (r1 := if PyDict.contains c r then r else PyDict.set c [] r).
  set (settings := match PyDict.get c r1 with Some x => x | None => [] end).
  assert (Hc1 : PyDict.get c r1 = Some settings).
  { unfold settings, r1, PyDict.contains.
    destruct (PyDict.get c r) eqn:E; [now rewrite E | now rewrite get_set_same]. }
  assert (Hsame : forall n', PyDict.get n' settings = lookup r c n').
  { intros n'. unfold lookup. revert Hc1. unfold r1, PyDict.contains.
    destruct (PyDict.get c r) eqn:E.
    - rewrite E. now intros [= ->].
    - rewrite get_set_same. now intros [= <-]. }
  assert (Hother : forall c', c' <> c -> PyDict.get c' r1 = PyDict.get c' r).
  { intros c' Hne. unfold r1. destruct (PyDict.contains c r); [reflexivity|].
    apply get_set_other. congruence. }
  eexists. split; [reflexivity|]. split; [|split].
  - unfold lookup. now rewrite !get_set_same.
  - intros c' n' Hne. unfold lookup at 1.
    destruct (string_dec c' c) as [->|Hcc].
    + rewrite get_set_same, get_set_other by congruence. apply Hsame.
    + rewrite get_set_other by congruence. rewrite (Hother c' Hcc). reflexivity.
  - intros [Hwf Hin].
    assert (Hwf1 : PyDict.wf r1).
    { unfold r1. destruct (PyDict.contains c r); [exact Hwf | now apply set_wf]. }
    assert (Hin1 : forall c' s', In (c', s') r1 -> PyDict.wf s').
    { intros c' s'. unfold r1. destruct (PyDict.contains c r); [apply Hin|].
      intros H. apply in_set in H as [H|[= -> ->]]; [now apply (Hin c' s')|].
      constructor. }
    split; [now apply set_wf|].
    intros c' s' H. apply in_set in H as [H|[= -> ->]]; [now apply (Hin1 c' s')|].
    apply set_wf. apply (Hin1 c settings). now apply get_some_in.
Qed.

(** X3. [register_setting] refuses a pair (context, name) that is registered,
    with a [ValueError] that names it, and changes nothing.  Otherwise it
    returns without printing or writing the file, the new setting holds the
    default and has the type of the default, every other setting is as it
    was, the registry is still a dict of dicts, and registering the same
    pair again is refused. *)
Theorem register_setting_once :
  forall s c n d o v,
    (forall st, lookup (_registered_settings s) c n = Some st ->
       register_setting c n d o v s = (Raise (ValueError (already_exists_msg c n)), s)) /\
    (lookup (_registered_settings s) c n = None ->
     exists s',
       register_setting c n d o v s = (Ret tt, s') /\
       (_verbs s' = _verbs s /\ printed s' = printed s /\
        letsrc s' = letsrc s /\ saved s' = saved s) /\
       get_setting s' c n = Some v /\
       lookup (_registered_settings s') c n = Some (mkSetting d o v (type_of v)) /\
       (forall c' n', (c', n') <> (c, n) -> get_setting s' c' n' = get_setting s c' n') /\
       (registry_wf (_registered_settings s) -> registry_wf (_registered_settings s')) /\
       exists e, register_setting c n d o v s' = (Raise e, s')).
Proof.
  intros s c n d o v. split.
  - intros st Hl. unfold register_setting. now rewrite Hl.
  - intros Hl. destruct (register_setting_new s c n d o v Hl) as (r' & Hreg & Hnew & Hoth & Hwf).
    exists (with_settings r' s). split; [exact Hreg|].
    split; [repeat split|]. split; [|split; [exact Hnew|split; [|split; [exact Hwf|]]]].
    + unfold get_setting. simpl. now rewrite Hnew.
    + intros c' n' Hne. unfold get_setting. simpl. now rewrite (Hoth c' n' Hne).
    + eexists. unfold register_setting. simpl. rewrite Hnew. reflexivity.
Qed.

Lemma register_setting_once_witness :
  exists s',
    register_setting "test" "jobs" "Parallel jobs" None (VStr "4") sample = (Ret tt, s') /\
    get_setting s' "test" "jobs" = Some (VStr "4") /\
    registry_wf (_registered_settings s').
Proof.
  destruct (proj2 (register_setting_once sample "test" "jobs" "Parallel jobs" None (VStr "4"))
              eq_refl) as (s' & H1 & _ & H2 & _ & _ & H3 & _).
  exists s'. split; [exact H1|]. split; [exact H2|]. apply H3, sample_registry_wf.
Defined.

Definition verb_key (v : VerbType) : string * string := (vcontext v, verb v).

Definition registered_key (rv : RegisteredVerbType) : string * string :=
  (rmodule rv, rname rv).

(** The entry the loop of [__init__] appends for a registered verb. *)
Definition to_verb (rv : RegisteredVerbType) : VerbType :=
  mkVerb (rmodule rv) (rname rv) (rfunc rv).

Lemma key_dec (a b : string * string) : {a = b} + {a <> b}.
Proof. decide equality; apply string_dec. Defined.

Lemma existing_verbs_nil verbs context name :
  filter (fun c => String.eqb (vcontext c) context && String.eqb (verb c) name) verbs = []
  <-> ~ In (context, name) (map verb_key verbs).
Proof.
  induction verbs as [|v tl IH]; simpl; [tauto|].
  destruct (String.eqb_spec (vcontext v) context) as [Hc|Hc];
    destruct (String.eqb_spec (verb v) name) as [Hn|Hn]; simpl;
    unfold verb_key at 1; rewrite ?IH.
  - subst. split; [discriminate | intros H; exfalso; apply H; now left].
  - split; [intros H [[= _ E]|E]; tauto | tauto].
  - split; [intros H [[= E _]|E]; tauto | tauto].
  - split; [intros H [[= E _]|E]; tauto | tauto].
Qed.

Lemma register_verbs_spec registered : forall s,
  (NoDup (map registered_key registered) /\
   (forall rv, In rv registered ->
      ~ In (registered_key rv) (map verb_key (_verbs s))) ->
   register_verbs registered s
   = (Ret tt,
      mkState (_registered_settings s) (_verbs s ++ map to_verb registered)
              (printed s) (letsrc s) (saved s))) /\
  (forall s', register_verbs registered s = (Ret tt, s') ->
     NoDup (map registered_key registered) /\
     forall rv, In rv registered ->
       ~ In (registered_key rv) (map verb_key (_verbs s))).
Proof.
  induction registered as [|rv tl IH]; intros s; simpl.
  - split.
    + intros _. destruct s. simpl. now rewrite app_nil_r.
    + intros s' _. split; [constructor | tauto].
  - pose proof (existing_verbs_nil (_verbs s) (rmodule rv) (rname rv)) as Hnil.
    destruct (filter _ (_verbs s)) as [|x xs] eqn:Hf.
    + assert (Hfresh : ~ In (registered_key rv) (map verb_key (_verbs s))).
      { apply Hnil. reflexivity. }
      destruct (IH (mkState (_registered_settings s)
                            (_verbs s ++ [mkVerb (rmodule rv) (rname rv) (rfunc rv)])
                            (printed s) (letsrc s) (saved s))) as [IH1 IH2].
      simpl in IH1, IH2. split.
      * intros [Hnd Hall]. inversion Hnd as [|? ? Hnotin Hnd']; subst.
        rewrite IH1.
        -- now rewrite <- app_assoc.
        -- split; [exact Hnd'|]. intros rv' Hin. rewrite map_app, in_app_iff.
           intros [H|[H|[]]]; [apply (Hall rv'); auto|].
           apply Hnotin.
           assert (E : registered_key rv = registered_key rv') by exact H.
           rewrite E. now apply in_map.
      * intros s' H. apply IH2 in H as [Hnd Hall]. split.
        -- constructor; [|exact Hnd]. intros Hin.
           apply in_map_iff in Hin as (rv' & Hk & Hin).
           apply (Hall rv' Hin). rewrite map_app, in_app_iff. right. left.
           symmetry. exact Hk.
        -- intros rv' [<-|Hin]; [exact Hfresh|].
           intros H. apply (Hall rv' Hin). rewrite map_app, in_app_iff. now left.
    + split.
      * intros [_ Hall]. exfalso. apply (Hall rv (or_introl eq_refl)).
        destruct (in_dec key_dec (registered_key rv) (map verb_key (_verbs s))) as [H|H];
          [exact H|]. apply Hnil in H. discriminate.
      * discriminate.
Qed.

(** lets.py:62-66 the verbs [__init__] registers itself, after those of the
    plugins. *)
Definition builtin_verbs (this_module : string) : list RegisteredVerbType :=
  [mkRegistered "help" this_module FHelp;
   mkRegistered "get" this_module FGet;
   mkRegistered "set" this_module FSet;
   mkRegistered "add" this_module FAdd;
   mkRegistered "remove" this_module FRemove].

Lemma get_map_values {V W} (g : V -> W) k (d : PyDict.t V) :
  PyDict.get k (map (fun kv => (fst kv, g (snd kv))) d) = option_map g (PyDict.get k d).
Proof.
  induction d as [|[k0 v0] tl IH]; simpl; [reflexivity|].
  now destruct (String.eqb k k0).
Qed.

(** What is registered for a pair is read off the layout. *)
Lemma meta_lookup r c n :
  option_map meta (lookup r c n)
  = match PyDict.get c (layout r) with
    | Some names => PyDict.get n names
    | None => None
    end.
Proof.
  unfold lookup, layout.
  rewrite (get_map_values (fun x => map (fun ns => (fst ns, meta (snd ns))) x) c r).
  unfold SettingsType, SettingContextType, PyDict.t in *.
  destruct (PyDict.get c r) as [settings|]; simpl; [|reflexivity].
  symmetry. apply (get_map_values meta).
Qed.

Lemma register_setting_ret s c n d o v s' :
  register_setting c n d o v s = (Ret tt, s') ->
  lookup (_registered_settings s) c n = None.
Proof.
  unfold register_setting. now destruct (lookup (_registered_settings s) c n).
Qed.

(** X4. When [__init__] returns, with plugins that registered no verb behind
    its back: the verbs are those of [_registered_verbs] followed by the
    five built-in ones, in order, no two with the same context and name;
    and the reserved settings [lets.plugin_folders] and [lets.verbose] are
    registered as a list without options and a string with the options
    [on] and [off], whatever the file held. *)
Theorem init_establishes_registries :
  forall this_module plugins registered file s',
    (forall s r s1, plugins s = (r, s1) -> _verbs s1 = _verbs s) ->
    __init__ this_module plugins registered file = (Ret tt, s') ->
    _verbs s' = map to_verb (registered ++ builtin_verbs this_module) /\
    NoDup (map verb_key (_verbs s')) /\
    option_map meta (lookup (_registered_settings s') "lets" "plugin_folders")
    = Some ("List of folders to look for plugins", None, TList) /\
    option_map meta (lookup (_registered_settings s') "lets" "verbose")
    = Some ("Sets the default verbose mode", Some ["on"; "off"], TStr).
Proof.
  intros this_module plugins registered file s' Hplug.
  unfold __init__. fold (builtin_verbs this_module).
  unfold bind at 1.
  destruct (plugins _) as [[[]|e] s1] eqn:E1; [|discriminate].
  apply Hplug in E1. simpl in E1.
  unfold bind at 1.
  destruct (register_verbs _ s1) as [[[]|e] s2] eqn:E2; [|discriminate].
  destruct (register_verbs_spec (registered ++ builtin_verbs this_module) s1) as [Hv1 Hv2].
  pose proof (Hv2 s2 E2) as Hnd. rewrite (Hv1 Hnd) in E2. injection E2 as <-.
  rewrite E1 in *. simpl app in *. destruct Hnd as [Hnd _].
  unfold bind at 1.
  destruct (register_setting "lets" "plugin_folders" _ _ _ _) as [[[]|e] s3] eqn:E3;
    [|discriminate].
  pose proof (register_setting_ret _ _ _ _ _ _ _ E3) as Hn3.
  destruct (register_setting_new _ "lets" "plugin_folders"
              "List of folders to look for plugins" None (VList []) Hn3)
    as (r3 & E3' & Hl3 & _ & _).
  rewrite E3' in E3. injection E3 as <-.
  unfold bind at 1.
  destruct (register_setting "lets" "verbose" _ _ _ _) as [[[]|e] s4] eqn:E4;
    [|discriminate].
  pose proof (register_setting_ret _ _ _ _ _ _ _ E4) as Hn4.
  destruct (register_setting_new _ "lets" "verbose"
              "Sets the default verbose mode" (Some ["on"; "off"]) (VStr "off") Hn4)
    as (r4 & E4' & Hl4 & Ho4 & _).
  rewrite E4' in E4. injection E4 as <-.
  intros E5. destruct (keeps_layout_load _ _ _ E5) as [Hlay Hverbs].
  simpl in Hlay, Hverbs, Ho4, Hl3.
  split; [exact Hverbs|]. split.
  - rewrite Hverbs, map_map.
    erewrite map_ext; [exact Hnd|]. reflexivity.
  - rewrite !meta_lookup, Hlay, <- !meta_lookup.
    rewrite (Ho4 "lets" "plugin_folders") by discriminate.
    now rewrite Hl3, Hl4.
Qed.

(** What a plugin's [init] may be assumed to do: register settings. *)
Definition keeps_verbs {A} (m : M A) : Prop :=
  forall s r s1, m s = (r, s1) -> _verbs s1 = _verbs s.

Lemma keeps_verbs_bind {A B} (m : M A) (k : A -> M B) :
  keeps_verbs m -> (forall a, keeps_verbs (k a)) -> keeps_verbs (bind m k).
Proof.
  intros Hm Hk s r s'. unfold bind.
  destruct (m s) as [[a|e] s1] eqn:E; pose proof (Hm _ _ _ E) as H1.
  - intros H. rewrite (Hk a _ _ _ H). exact H1.
  - now intros [= <- <-].
Qed.

Lemma keeps_verbs_register c n d o v : keeps_verbs (register_setting c n d o v).
Proof.
  intros s r s1. unfold register_setting.
  destruct (lookup (_registered_settings s) c n); now intros [= <- <-].
Qed.

Lemma init_establishes_registries_witness :
  _verbs sample = map to_verb (sample_verbs ++ builtin_verbs "lets") /\
  NoDup (map verb_key (_verbs sample)).
Proof.
  destruct (init_establishes_registries "lets" sample_plugins sample_verbs None sample)
    as (H1 & H2 & _).
  - unfold sample_plugins.
    repeat (apply keeps_verbs_bind; [apply keeps_verbs_register | intros ?]).
    apply keeps_verbs_register.
  - reflexivity.
  - split; [exact H1 | exact H2].
Defined.

(** *** Qualified names *)

Lemma append_assoc (a b c : string) : (a ++ b) ++ c = a ++ (b ++ c).
Proof. induction a as [|ch a IH]; simpl; [reflexivity | now rewrite IH]. Qed.

Lemma contains_dot_cons ch rest :
  PyStr.contains "." (String ch rest) = Ascii.eqb ch "."%char || PyStr.contains "." rest.
Proof.
  unfold PyStr.contains; fold PyStr.contains. now rewrite prefix_colon.
Qed.

(** A name with a dot-free context in front splits back into the two. *)
Lemma qualify_qualified c n :
  PyStr.contains "." c = false -> qualify (c ++ "." ++ n) = (c, n).
Proof.
  intros Hc. unfold qualify.
  assert (Hsplit : PyStr.split1 "."%char (c ++ "." ++ n) = [c; n]).
  { induction c as [|ch c IH]; [reflexivity|].
    rewrite contains_dot_cons in Hc. apply orb_false_iff in Hc as [Hch Hc].
    simpl. rewrite Hch. simpl in IH. now rewrite (IH Hc). }
  assert (Hdot : PyStr.contains "." (c ++ "." ++ n) = true).
  { clear Hsplit. induction c as [|ch c IH]; [apply contains_dot_cons|].
    rewrite contains_dot_cons in Hc. apply orb_false_iff in Hc as [Hch Hc].
    change ((String ch c ++ "." ++ n)) with (String ch (c ++ "." ++ n)).
    rewrite contains_dot_cons, (IH Hc). apply orb_true_r. }
  now rewrite Hdot, Hsplit.
Qed.

Lemma contains_dot_split s :
  PyStr.contains "." s = true ->
  exists a b, s = a ++ "." ++ b /\ PyStr.contains "." a = false.
Proof.
  induction s as [|ch rest IH]; [discriminate|].
  rewrite contains_dot_cons. destruct (Ascii.eqb ch ".") eqn:Hch.
  - apply Ascii.eqb_eq in Hch. subst ch. intros _. now exists "", rest.
  - simpl. intros H. destruct (IH H) as (a & b & -> & Ha).
    exists (String ch a), b. split; [reflexivity|].
    now rewrite contains_dot_cons, Hch, Ha.
Qed.

Lemma mem_context c x : c <> "" -> PyStr.mem c [""; x] = String.eqb c x.
Proof.
  intros Hne. unfold PyStr.mem. simpl.
  apply String.eqb_neq in Hne. rewrite Hne. simpl. apply orb_false_r.
Qed.

Lemma filter_none {A} (p : A -> bool) (l : list A) :
  (forall y, In y l -> p y = false) -> filter p l = [].
Proof.
  induction l as [|x tl IH]; simpl; intros H; [reflexivity|].
  rewrite (H x (or_introl eq_refl)). apply IH. intros y Hy. apply H. now right.
Qed.

Lemma filter_unique_key {A} (key : A -> string * string) (l : list A) v :
  NoDup (map key l) -> In v l ->
  filter (fun x => if key_dec (key x) (key v) then true else false) l = [v].
Proof.
  induction l as [|x tl IH]; simpl; [tauto|].
  intros Hnd. inversion Hnd as [|? ? Hnotin Hnd']; subst. intros [->|Hin].
  - destruct (key_dec (key v) (key v)); [|congruence]. f_equal.
    apply filter_none. intros y Hy.
    destruct (key_dec (key y) (key v)) as [E|_]; [|reflexivity].
    exfalso. apply Hnotin. rewrite <- E. now apply in_map.
  - destruct (key_dec (key x) (key v)) as [E|_]; [|now apply IH].
    exfalso. apply Hnotin. rewrite E. now apply in_map.
Qed.

Lemma nodup_singleton {A} (l : list A) x :
  NoDup l -> In x l -> (forall y, In y l -> y = x) -> l = [x].
Proof.
  destruct l as [|a [|b tl]]; simpl.
  - tauto.
  - intros _ [->|[]] _. reflexivity.
  - intros Hnd _ Hall. inversion Hnd as [|? ? Hnotin _]; subst.
    exfalso. apply Hnotin. left.
    rewrite (Hall a (or_introl eq_refl)). apply Hall. auto.
Qed.

Lemma matching_spec r ctx nm c n :
  In (c, n) (matching r ctx nm) <->
  n = nm /\ (ctx = "" \/ ctx = c) /\
  exists settings, In (c, settings) r /\ In nm (PyDict.keys settings).
Proof.
  unfold matching. rewrite in_flat_map. split.
  - intros ([c0 settings] & Hin & Hx).
    apply in_map_iff in Hx as (n0 & [= -> ->] & Hn).
    apply filter_In in Hn as [Hn Hp]. apply andb_true_iff in Hp as [Hp Hctx].
    apply String.eqb_eq in Hp. subst. cbn [fst snd] in *. split; [reflexivity|]. split.
    + apply mem_true_iff in Hctx. simpl in Hctx. intuition.
    + now exists settings.
  - intros (-> & Hctx & settings & Hin & Hn). exists (c, settings). split; [exact Hin|].
    apply in_map_iff. exists nm. split; [reflexivity|].
    apply filter_In. split; [exact Hn|]. cbn [fst snd]. rewrite String.eqb_refl.
    cbn [andb]. apply mem_true_iff. simpl. intuition.
Qed.

Lemma lookup_in r c n st :
  lookup r c n = Some st ->
  exists settings, In (c, settings) r /\ In n (PyDict.keys settings).
Proof.
  unfold lookup. destruct (PyDict.get c r) as [settings|] eqn:Hc; [|discriminate].
  intros Hn. exists settings. split; [now apply get_some_in|].
  apply get_some_in in Hn. now apply (in_map fst) in Hn.
Qed.

Lemma resolve_unique arg graceful allow s c n st :
  PyStr.startswith "_" (snd (qualify arg)) && negb allow = false ->
  matching (_registered_settings s) (fst (qualify arg)) (snd (qualify arg)) = [(c, n)] ->
  lookup (_registered_settings s) c n = Some st ->
  _resolve_setting arg graceful allow s = (Ret (Some (c, n, st)), s).
Proof.
  intros Hp Hm Hl. unfold _resolve_setting. destruct (qualify arg) as [ctx nm].
  simpl in Hp, Hm. now rewrite Hp, Hm, Hl.
Qed.

(** X5. In a registry that is a dict of dicts, a registered setting one is
    allowed to name is found, and never reported ambiguous, by its name
    qualified with its context when the context is not empty and has no
    dot, and by its bare name when the name has no dot and no other context
    registers it. *)
Theorem registered_setting_resolves :
  forall s c n st graceful allow,
    registry_wf (_registered_settings s) ->
    lookup (_registered_settings s) c n = Some st ->
    PyStr.startswith "_" n && negb allow = false ->
    (c <> "" -> PyStr.contains "." c = false ->
     _resolve_setting (c ++ "." ++ n) graceful allow s = (Ret (Some (c, n, st)), s)) /\
    (PyStr.contains "." n = false ->
     (forall c', lookup (_registered_settings s) c' n <> None -> c' = c) ->
     _resolve_setting n graceful allow s = (Ret (Some (c, n, st)), s)).
Proof.
  intros s c n st graceful allow Hwf Hl Hp.
  destruct (lookup_in _ _ _ _ Hl) as (settings & Hc & Hn).
  split.
  - intros Hne Hdot. apply resolve_unique; rewrite ?(qualify_qualified c n Hdot);
      cbn [fst snd]; [exact Hp| |exact Hl].
    apply nodup_singleton.
    + now apply matching_nodup.
    + apply matching_spec. split; [reflexivity|]. split; [now right|]. now exists settings.
    + intros [c' n'] H. apply matching_spec in H as (-> & [E|E] & _); congruence.
  - intros Hdot Honly. apply resolve_unique; rewrite ?(qualify_unqualified n Hdot);
      cbn [fst snd]; [exact Hp| |exact Hl].
    apply nodup_singleton.
    + now apply matching_nodup.
    + apply matching_spec. split; [reflexivity|]. split; [now left|]. now exists settings.
    + intros [c' n'] H. pose proof H as H'.
      apply (matching_lookup _ _ _ _ _ Hwf) in H' as (-> & st' & Hst').
      f_equal. apply Honly. congruence.
Qed.

Lemma registered_setting_resolves_witness :
  _resolve_setting "test.suites" false false sample
  = (Ret (Some ("test", "suites",
                mkSetting "Suites to run" None (VList ["unit"; "smoke"]) TList)), sample).
Proof.
  apply (proj1 (registered_setting_resolves sample "test" "suites"
                  (mkSetting "Suites to run" None (VList ["unit"; "smoke"]) TList)
                  false false sample_registry_wf eq_refl eq_refl));
    [discriminate | reflexivity].
Defined.

(** X6. Among verbs no two of which share context and name, as [__init__]
    leaves them, a verb is the one and only answer to its name qualified
    with its context when the context is not empty and has no dot, and to
    its bare name when the name has no dot and no other context has a verb
    of that name. *)
Theorem registered_verb_resolves :
  forall s v,
    NoDup (map verb_key (_verbs s)) -> In v (_verbs s) ->
    (vcontext v <> "" -> PyStr.contains "." (vcontext v) = false ->
     _resolve_verbs s (vcontext v ++ "." ++ verb v) = [v]) /\
    (PyStr.contains "." (verb v) = false ->
     (forall w, In w (_verbs s) -> verb w = verb v -> vcontext w = vcontext v) ->
     _resolve_verbs s (verb v) = [v]).
Proof.
  intros s v Hnd Hin. split.
  - intros Hne Hdot. unfold _resolve_verbs.
    rewrite (qualify_qualified _ _ Hdot). rewrite <- (filter_unique_key verb_key _ v Hnd Hin).
    apply filter_ext. intros w. rewrite (mem_context _ _ Hne). unfold verb_key.
    destruct (key_dec _ _) as [[= -> ->]|Hk].
    + now rewrite !String.eqb_refl.
    + destruct (String.eqb_spec (verb w) (verb v)) as [E1|_]; [|reflexivity].
      destruct (String.eqb_spec (vcontext v) (vcontext w)) as [E2|_]; [|reflexivity].
      congruence.
  - intros Hdot Honly. rewrite (resolve_verbs_unqualified _ _ Hdot).
    rewrite <- (filter_unique_key verb_key _ v Hnd Hin).
    apply filter_ext_in. intros w Hw. unfold verb_key.
    destruct (key_dec _ _) as [[= _ E]|Hk].
    + rewrite E. apply String.eqb_refl.
    + destruct (String.eqb_spec (verb w) (verb v)) as [E1|_]; [|reflexivity].
      exfalso. apply Hk. unfold verb_key.
      f_equal; [apply (Honly w Hw E1) | exact E1].
Qed.

Lemma registered_verb_resolves_witness :
  _resolve_verbs sample "test.run" = [mkVerb "test" "run" (FPlugin "test" "run")] /\
  _resolve_verbs sample "deploy" = [mkVerb "build" "deploy" (FPlugin "build" "deploy")].
Proof.
  assert (Hnd : NoDup (map verb_key (_verbs sample))).
  { repeat constructor; simpl; intros H; repeat destruct H as [H|H];
      try discriminate; auto. }
  split.
  - apply (proj1 (registered_verb_resolves sample
                    (mkVerb "test" "run" (FPlugin "test" "run")) Hnd
                    ltac:(simpl; tauto))); [discriminate | reflexivity].
  - apply (proj2 (registered_verb_resolves sample
                    (mkVerb "build" "deploy" (FPlugin "build" "deploy")) Hnd
                    ltac:(simpl; tauto))); [reflexivity|].
    intros w Hw E. simpl in Hw.
    repeat destruct Hw as [<-|Hw]; try discriminate E; try reflexivity. contradiction.
Defined.

Lemma qualify_dotted_context c n :
  PyStr.contains "." c = true ->
  exists a b, qualify (c ++ "." ++ n) = (a, b ++ "." ++ n).
Proof.
  intros H. destruct (contains_dot_split c H) as (a & b & -> & Ha).
  exists a, b. rewrite append_assoc.
  change (("." ++ b) ++ "." ++ n) with ("." ++ (b ++ "." ++ n)).
  now apply qualify_qualified.
Qed.

Lemma longer_name (b n : string) : b ++ "." ++ n <> n.
Proof.
  intros H. apply (f_equal String.length) in H.
  rewrite length_append in H. simpl in H. lia.
Qed.

(** X7. The split of a qualified name is at its first dot.  So a verb of a
    context whose name has a dot is never among the answers to its own
    qualified name, and that name of a setting of such a context never
    resolves to the setting. *)
Theorem dotted_context_unreachable :
  forall s,
    (forall v,
       PyStr.contains "." (vcontext v) = true ->
       ~ In v (_resolve_verbs s (vcontext v ++ "." ++ verb v))) /\
    (forall c n graceful allow c' n' st s',
       PyStr.contains "." c = true ->
       _resolve_setting (c ++ "." ++ n) graceful allow s = (Ret (Some (c', n', st)), s') ->
       n' <> n).
Proof.
  intros s. split.
  - intros v Hdot Hin. unfold _resolve_verbs in Hin.
    destruct (qualify_dotted_context _ (verb v) Hdot) as (a & b & Hq).
    rewrite Hq in Hin. apply filter_In in Hin as [_ Hp]. apply andb_true_iff in Hp as [Hp _].
    apply String.eqb_eq in Hp. symmetry in Hp. now apply longer_name in Hp.
  - intros c n graceful allow c' n' st s' Hdot. unfold _resolve_setting.
    destruct (qualify_dotted_context c n Hdot) as (a & b & ->).
    destruct (PyStr.startswith "_" (b ++ "." ++ n) && negb allow); [run; discriminate|].
    destruct (matching (_registered_settings s) a (b ++ "." ++ n))
      as [|[c1 n1] [|c2 more]] eqn:Hm.
    + destruct graceful; run; discriminate.
    + assert (Hn1 : n1 = b ++ "." ++ n).
      { apply (matching_spec (_registered_settings s) a (b ++ "." ++ n) c1 n1).
        rewrite Hm. now left. }
      destruct (lookup (_registered_settings s) c1 n1); [|discriminate].
      intros [= _ <- _ _]. rewrite Hn1. apply longer_name.
    + run. discriminate.
Qed.

(** A registry in which the context [ci.build] registers [flavor] and a verb
    [run] comes from the module [ci.build]. *)
Definition dotted : state :=
  Eval vm_compute in
    snd (__init__ "lets"
           (register_setting "ci.build" "flavor" "Build flavor" None (VStr "debug"))
           [mkRegistered "run" "ci.build" (FPlugin "ci.build" "run")] None).

Lemma dotted_context_unreachable_witness :
  ~ In (mkVerb "ci.build" "run" (FPlugin "ci.build" "run"))
       (_resolve_verbs dotted "ci.build.run") /\
  _resolve_verbs dotted "ci.build.run" = [] /\
  fst (_resolve_setting "ci.build.flavor" false false dotted) = Ret None.
Proof.
  split; [|split; reflexivity].
  apply (proj1 (dotted_context_unreachable dotted)
           (mkVerb "ci.build" "run" (FPlugin "ci.build" "run"))).
  reflexivity.
Defined.

(** *** What [set], [add] and [remove] store *)

Lemma list_eqb_refl l : list_eqb l l = true.
Proof. induction l as [|x tl IH]; simpl; [reflexivity|]. now rewrite String.eqb_refl. Qed.

Lemma dict_eqb_refl (d : PyDict.t string) :
  PyDict.wf d -> PyDict.eqb String.eqb d d = true.
Proof.
  intros Hwf. unfold PyDict.eqb. rewrite Nat.eqb_refl. simpl.
  apply forallb_forall. intros [k v] Hin. simpl.
  rewrite (in_get k v d Hwf Hin). apply String.eqb_refl.
Qed.

Lemma new_value_eqb_refl t arg1 rest :
  value_eqb (new_value t arg1 rest) (new_value t arg1 rest) = true.
Proof.
  destruct t; simpl.
  - apply String.eqb_refl.
  - now rewrite String.eqb_refl, list_eqb_refl.
  - apply dict_eqb_refl, (proj1 (parse_dict_keys _)).
Qed.

(** The value the last entry for key [k] gives it, if an entry has that
    key. *)
Definition entry_value (k : string) (entries : list string) : option string :=
  fold_left (fun acc e => if String.eqb (fst (key_val e)) k
                          then Some (snd (key_val e)) else acc)
            entries None.

Lemma entry_value_from acc k entries :
  fold_left (fun acc e => if String.eqb (fst (key_val e)) k
                          then Some (snd (key_val e)) else acc) entries acc
  = match entry_value k entries with Some v => Some v | None => acc end.
Proof.
  unfold entry_value. revert acc.
  induction entries as [|e tl IH]; intros acc; simpl; [reflexivity|].
  rewrite IH.
  rewrite (IH (if String.eqb (fst (key_val e)) k then Some (snd (key_val e)) else None)).
  destruct (fold_left _ tl None); [reflexivity|].
  now destruct (String.eqb (fst (key_val e)) k).
Qed.

Lemma get_update_entries k entries : forall d,
  PyDict.get k (PyDict.update d (map key_val entries))
  = match entry_value k entries with Some v => Some v | None => PyDict.get k d end.
Proof.
  unfold PyDict.update.
  induction entries as [|e tl IH]; intros d; simpl; [reflexivity|].
  rewrite IH. unfold entry_value at 2. simpl. rewrite entry_value_from.
  destruct (entry_value k tl); [reflexivity|].
  destruct (String.eqb_spec (fst (key_val e)) k) as [<-|Hne].
  - apply get_set_same.
  - now apply get_set_other.
Qed.

Lemma get_parse_dict k entries :
  PyDict.get k (parse_dict entries) = entry_value k entries.
Proof.
  unfold parse_dict, PyDict.of_pairs. rewrite get_update_entries.
  now destruct (entry_value k entries).
Qed.

Lemma key_val_entry k v :
  PyStr.contains ":" k = false -> key_val (k ++ ":" ++ v) = (k, v).
Proof.
  intros Hk. unfold key_val.
  assert (Hsplit : PyStr.split1 ":"%char (k ++ ":" ++ v) = [k; v]).
  { induction k as [|ch k IH]; [reflexivity|].
    unfold PyStr.contains in Hk; fold PyStr.contains in Hk.
    rewrite prefix_colon in Hk. apply orb_false_iff in Hk as [Hch Hk].
    simpl. rewrite Hch. simpl in IH. now rewrite (IH Hk). }
  now rewrite Hsplit.
Qed.

(** X8. A [set] that returns stores what it was given: afterwards the setting
    holds a value equal, by Python's [==], to the new value made of the
    arguments; it is that very value unless the setting already held an
    equal one.  The new value of a string setting is the first argument as
    it is, colons included; that of a list setting is all the arguments in
    order; that of a dict setting binds each key to the value of the last
    entry with that key. *)
Theorem set_stores_new_value :
  forall s args s',
    set args s = (Ret 0%Z, s') ->
    exists name arg1 rest c n st v,
      args = name :: arg1 :: rest /\
      _resolve_setting name false false s = (Ret (Some (c, n, st)), s) /\
      get_setting s' c n = Some v /\
      value_eqb v (new_value (stype st) arg1 rest) = true /\
      (value_eqb (svalue st) (new_value (stype st) arg1 rest) = false ->
       v = new_value (stype st) arg1 rest) /\
      match stype st with
      | TStr => new_value (stype st) arg1 rest = VStr arg1
      | TList => new_value (stype st) arg1 rest = VList (arg1 :: rest)
      | TDict =>
          exists d, new_value (stype st) arg1 rest = VDict d /\ PyDict.wf d /\
                    forall k, PyDict.get k d = entry_value k (arg1 :: rest)
      end.
Proof.
  intros s args s' H.
  destruct (set_success _ _ _ H) as (name & arg1 & rest & c & n & st & -> & Hr & Hs').
  pose proof (resolve_found _ _ _ _ _ _ _ _ Hr) as [_ Hl].
  exists name, arg1, rest, c, n, st.
  destruct (value_eqb (svalue st) (new_value (stype st) arg1 rest)) eqn:E.
  - exists (svalue st). subst s'. split; [reflexivity|]. split; [exact Hr|].
    split; [unfold get_setting; now rewrite Hl|]. split; [exact E|].
    split; [discriminate|].
    destruct (stype st); try reflexivity.
    eexists. split; [reflexivity|].
    split; [apply (proj1 (parse_dict_keys (arg1 :: rest)))
           | intros k; apply (get_parse_dict k (arg1 :: rest))].
  - exists (new_value (stype st) arg1 rest). subst s'.
    split; [reflexivity|]. split; [exact Hr|]. split.
    { unfold get_setting. simpl. now rewrite (lookup_assign_same _ _ _ _ _ Hl). }
    split; [apply new_value_eqb_refl|]. split; [reflexivity|].
    destruct (stype st); try reflexivity.
    eexists. split; [reflexivity|].
    split; [apply (proj1 (parse_dict_keys (arg1 :: rest)))
           | intros k; apply (get_parse_dict k (arg1 :: rest))].
Qed.

Lemma set_stores_new_value_witness :
  exists name arg1 rest c n st v,
    ["build.defines"; "a:1"; "b:2"; "a:3:4"] = name :: arg1 :: rest /\
    _resolve_setting name false false sample = (Ret (Some (c, n, st)), sample) /\
    get_setting (snd (set ["build.defines"; "a:1"; "b:2"; "a:3:4"] sample)) c n = Some v /\
    value_eqb v (new_value (stype st) arg1 rest) = true /\
    (value_eqb (svalue st) (new_value (stype st) arg1 rest) = false ->
     v = new_value (stype st) arg1 rest) /\
    match stype st with
    | TStr => new_value (stype st) arg1 rest = VStr arg1
    | TList => new_value (stype st) arg1 rest = VList (arg1 :: rest)
    | TDict =>
        exists d, new_value (stype st) arg1 rest = VDict d /\ PyDict.wf d /\
                  forall k, PyDict.get k d = entry_value k (arg1 :: rest)
    end.
Proof.
  apply (set_stores_new_value sample ["build.defines"; "a:1"; "b:2"; "a:3:4"]).
  reflexivity.
Defined.

(** Merging merges: a key of the other dict takes its value there, any
    other key keeps its own. *)
Lemma get_update_wf {V} k (other : PyDict.t V) : forall d,
  PyDict.wf other ->
  PyDict.get k (PyDict.update d other)
  = match PyDict.get k other with
    | Some v => Some v
    | None => PyDict.get k d
    end.
Proof.
  unfold PyDict.update, PyDict.wf.
  induction other as [|[k0 v0] tl IH]; intros d Hnd; simpl; [reflexivity|].
  inversion Hnd as [|? ? Hnotin Hnd']; subst. rewrite (IH _ Hnd').
  destruct (String.eqb_spec k k0) as [->|Hne].
  - apply get_none_keys in Hnotin. rewrite Hnotin. apply get_set_same.
  - destruct (PyDict.get k tl); [reflexivity|]. apply get_set_other. congruence.
Qed.

Lemma update_wf {V} (d other : PyDict.t V) : PyDict.wf d -> PyDict.wf (PyDict.update d other).
Proof. apply keys_update_nodup. Qed.

(** X9. [add] on a list setting appends its arguments, in order, to the list.
    On a dict setting, when every argument has a colon, it binds each key
    named to the value of the last entry with that key and leaves every
    other key as it was; when some argument has none, it reports all of
    them, in order, returns [-1] and changes nothing.  On a string setting
    it reports that the setting is no list or dict and returns [-1]. *)
Theorem add_appends_or_merges :
  forall s name arg1 rest c n st,
    _resolve_setting name false false s = (Ret (Some (c, n, st)), s) ->
    (forall l, stype st = TList -> svalue st = VList l ->
       exists s',
         add (name :: arg1 :: rest) s = (Ret 0%Z, s') /\
         get_setting s' c n = Some (VList (l ++ arg1 :: rest))) /\
    (forall d, stype st = TDict -> svalue st = VDict d ->
       invalid_values (arg1 :: rest) = [] ->
       exists s' d',
         add (name :: arg1 :: rest) s = (Ret 0%Z, s') /\
         get_setting s' c n = Some (VDict d') /\
         (PyDict.wf d -> PyDict.wf d') /\
         forall k, PyDict.get k d'
                   = match entry_value k (arg1 :: rest) with
                     | Some v => Some v
                     | None => PyDict.get k d
                     end) /\
    (stype st = TDict -> invalid_values (arg1 :: rest) <> [] ->
     add (name :: arg1 :: rest) s
     = (Ret (-1)%Z, says (Error (invalid_values_msg (invalid_values (arg1 :: rest)))) s) /\
     forall x, In x (invalid_values (arg1 :: rest)) <->
               In x (arg1 :: rest) /\ PyStr.contains ":" x = false) /\
    (stype st = TStr ->
     add (name :: arg1 :: rest) s
     = (Ret (-1)%Z, says (Error ("Setting " ++ name ++ " not a list or dict")) s)).
Proof.
  intros s name arg1 rest c n st Hres.
  pose proof (resolve_found _ _ _ _ _ _ _ _ Hres) as [_ Hl].
  split; [|split; [|split]].
  - intros l Hty Hval.
    destruct (add_list_spec s name arg1 rest c n st l Hres Hty Hval) as (s' & Hadd & Hr).
    exists s'. split; [exact Hadd|]. unfold get_setting.
    now rewrite Hr, (lookup_assign_same _ _ _ _ _ Hl).
  - intros d Hty Hval Hinv.
    destruct (add_dict_spec s name arg1 rest c n st d Hres Hty Hval Hinv) as (s' & Hadd & Hr).
    exists s', (PyDict.update d (parse_dict (arg1 :: rest))).
    split; [exact Hadd|]. split; [|split].
    + unfold get_setting. now rewrite Hr, (lookup_assign_same _ _ _ _ _ Hl).
    + apply update_wf.
    + intros k. rewrite get_update_wf by apply (proj1 (parse_dict_keys (arg1 :: rest))).
      now rewrite get_parse_dict.
  - intros Hty Hinv. split.
    + unfold add, bind. rewrite Hres, Hty.
      destruct (invalid_values (arg1 :: rest)); [congruence | reflexivity].
    + intros x. unfold invalid_values. rewrite filter_In, negb_true_iff. reflexivity.
  - intros Hty. unfold add, bind. now rewrite Hres, Hty.
Qed.

Lemma add_appends_or_merges_witness :
  (exists s',
     add ["test.suites"; "perf"; "unit"] sample = (Ret 0%Z, s') /\
     get_setting s' "test" "suites" = Some (VList ["unit"; "smoke"; "perf"; "unit"])) /\
  add ["build.verbose"; "high"] sample
  = (Ret (-1)%Z, says (Error "Setting build.verbose not a list or dict") sample).
Proof.
  split.
  - apply (proj1 (add_appends_or_merges sample "test.suites" "perf" ["unit"]
                    "test" "suites"
                    (mkSetting "Suites to run" None (VList ["unit"; "smoke"]) TList)
                    eq_refl) ["unit"; "smoke"]); reflexivity.
  - apply (proj2 (proj2 (proj2
             (add_appends_or_merges sample "build.verbose" "high" []
                "build" "verbose"
                (mkSetting "Verbosity of the build" None (VStr "low") TStr) eq_refl)))).
    reflexivity.
Defined.

Lemma count_list_remove a l x :
  In a l ->
  count_occ string_dec (PyStr.list_remove a l) x
  = count_occ string_dec l x - (if string_dec a x then 1 else 0).
Proof.
  induction l as [|y tl IH]; simpl; [tauto|].
  destruct (String.eqb_spec a y) as [->|Hne].
  - intros _. destruct (string_dec y x); lia.
  - intros [E|Hin]; [congruence|]. simpl. rewrite (IH Hin).
    destruct (string_dec y x) as [->|Hyx]; [|reflexivity].
    destruct (string_dec a x); [congruence | lia].
Qed.

Lemma list_remove_others a l (p : string -> bool) :
  p a = false -> filter p (PyStr.list_remove a l) = filter p l.
Proof.
  intros Hp. induction l as [|y tl IH]; simpl; [reflexivity|].
  destruct (String.eqb_spec a y) as [->|Hne].
  - now rewrite Hp.
  - simpl. now rewrite IH.
Qed.

(** The elements of a list that [remove] was not asked to remove. *)
Definition others (vals l : list string) : list string :=
  filter (fun x => negb (PyStr.mem x vals)) l.

Lemma others_cons a vs l :
  others (a :: vs) l = filter (fun x => negb (String.eqb x a)) (others vs l).
Proof.
  unfold others. rewrite <- filter_and. apply filter_ext. intros x.
  simpl. rewrite negb_orb. apply andb_comm.
Qed.

(** How [remove] goes through a list: each element named, in turn, takes
    away its first occurrence in the list as it then is, when there is
    one. *)
Inductive takes : list string -> list string -> list string -> Prop :=
| takes_done l : takes [] l l
| takes_absent v vals l l' :
    ~ In v l -> takes vals l l' -> takes (v :: vals) l l'
| takes_first v vals pre post l' :
    ~ In v pre -> takes vals (pre ++ post) l' ->
    takes (v :: vals) (pre ++ v :: post) l'.

Lemma list_remove_first a l :
  In a l ->
  exists pre post,
    l = (pre ++ a :: post)%list /\ ~ In a pre /\ PyStr.list_remove a l = (pre ++ post)%list.
Proof.
  induction l as [|y tl IH]; simpl; [tauto|].
  destruct (String.eqb_spec a y) as [->|Hne].
  - intros _. exists [], tl. simpl. auto.
  - intros [E|Hin]; [congruence|].
    destruct (IH Hin) as (pre & post & -> & Hpre & Hrem).
    exists (y :: pre), post. simpl. rewrite Hrem.
    split; [reflexivity|]. split; [|reflexivity]. intros [E|H]; [congruence | tauto].
Qed.

Lemma first_occurrence (v : string) (pre post pre' post' : list string) :
  ~ In v pre -> ~ In v pre' ->
  (pre ++ v :: post = pre' ++ v :: post')%list -> pre = pre' /\ post = post'.
Proof.
  revert pre'. induction pre as [|x tl IH]; intros [|x' tl']; simpl; intros H1 H2 E.
  - injection E as E. now split.
  - injection E as E _. subst. tauto.
  - injection E as E _. subst. tauto.
  - injection E as -> E. destruct (IH tl') as [-> ->]; [tauto | tauto | exact E|].
    now split.
Qed.

(** What [remove] takes from a list is fixed by the list and the elements
    named. *)
Lemma takes_functional vals l l1 l2 :
  takes vals l l1 -> takes vals l l2 -> l1 = l2.
Proof.
  intros H1. revert l2.
  induction H1 as [l|v vals l l' Hn H IH|v vals pre post l' Hp H IH]; intros l2 H2.
  - now inversion H2.
  - inversion H2 as [|? ? ? ? Hn2 Ht2|? ? pre2 post2 ? Hp2 Ht2]; subst.
    + now apply IH.
    + exfalso. apply Hn. apply in_or_app. right. now left.
  - remember (pre ++ v :: post)%list as l eqn:El.
    inversion H2 as [|? ? ? ? Hn2 Ht2|? ? pre2 post2 ? Hp2 Ht2]; subst.
    + exfalso. apply Hn2. apply in_or_app. right. now left.
    + match goal with
      | E : (_ ++ _ :: _)%list = (_ ++ _ :: _)%list |- _ =>
          destruct (first_occurrence _ _ _ _ _ Hp2 Hp E) as [-> ->]
      end.
      now apply IH.
Qed.

(** The loop of [remove] over a list takes away one occurrence, the first,
    for each time an element is named, as long as there is one. *)
Lemma remove_list_spec vals : forall l,
  exists l',
    remove_list (VList l) vals = (VList l', None) /\
    (forall x, count_occ string_dec l' x
               = count_occ string_dec l x - count_occ string_dec vals x) /\
    others vals l' = others vals l /\
    takes vals l l'.
Proof.
  induction vals as [|a vs IH]; intros l.
  - exists l. split; [reflexivity|].
    split; [intros x; simpl; lia | split; [reflexivity | constructor]].
  - simpl remove_list. destruct (PyStr.mem a l) eqn:Hmem.
    + destruct (IH (PyStr.list_remove a l)) as (l' & Hrem & Hcount & Hrest & Htakes).
      exists l'. split; [exact Hrem|]. split; [|split].
      * intros x. rewrite Hcount, count_list_remove by now apply mem_true_iff.
        simpl. destruct (string_dec a x); lia.
      * rewrite others_cons, Hrest, <- others_cons.
        apply list_remove_others. simpl. now rewrite String.eqb_refl.
      * apply mem_true_iff in Hmem.
        destruct (list_remove_first a l Hmem) as (pre & post & -> & Hpre & Hfirst).
        rewrite Hfirst in Htakes. now constructor.
    + destruct (IH l) as (l' & Hrem & Hcount & Hrest & Htakes).
      exists l'. split; [exact Hrem|]. split; [|split].
      * intros x. rewrite Hcount. simpl.
        destruct (string_dec a x) as [->|_]; [|reflexivity].
        apply mem_false_iff in Hmem.
        rewrite (proj1 (count_occ_not_In string_dec l x) Hmem). lia.
      * now rewrite !others_cons, Hrest.
      * apply mem_false_iff in Hmem. now constructor.
Qed.

Lemma get_del {V} k k0 (d : PyDict.t V) :
  PyDict.wf d ->
  PyDict.get k (PyDict.del k0 d) = if String.eqb k k0 then None else PyDict.get k d.
Proof.
  unfold PyDict.wf. induction d as [|[k1 v1] tl IH]; simpl; intros Hnd.
  - now destruct (String.eqb k k0).
  - inversion Hnd as [|? ? Hnotin Hnd']; subst.
    destruct (String.eqb_spec k0 k1) as [->|Hne01].
    + destruct (String.eqb_spec k k1) as [->|Hne]; [|reflexivity].
      now apply get_none_keys.
    + simpl. rewrite (IH Hnd').
      destruct (String.eqb_spec k k1) as [->|Hne1]; [|reflexivity].
      destruct (String.eqb_spec k1 k0); [congruence | reflexivity].
Qed.

(** The loop of [remove] over a dict deletes the keys named and keeps the
    other bindings. *)
Lemma remove_dict_spec ks : forall d,
  PyDict.wf d ->
  exists d',
    remove_dict (VDict d) ks = (VDict d', None) /\
    PyDict.wf d' /\
    forall k, PyDict.get k d' = if PyStr.mem k ks then None else PyDict.get k d.
Proof.
  induction ks as [|k0 ks' IH]; intros d Hwf.
  - exists d. repeat split; auto.
  - simpl remove_dict. unfold PyDict.contains.
    destruct (PyDict.get k0 d) eqn:Hk0.
    + destruct (IH (PyDict.del k0 d)) as (d' & Hrem & Hwf' & Hget).
      { apply keys_del_nodup, Hwf. }
      exists d'. split; [exact Hrem|]. split; [exact Hwf'|].
      intros k. rewrite Hget, get_del by exact Hwf. simpl.
      destruct (String.eqb k k0); simpl; [now destruct (PyStr.mem k ks') | reflexivity].
    + destruct (IH d Hwf) as (d' & Hrem & Hwf' & Hget).
      exists d'. split; [exact Hrem|]. split; [exact Hwf'|].
      intros k. rewrite Hget. simpl.
      destruct (String.eqb_spec k k0) as [->|_]; simpl; [|reflexivity].
      rewrite Hk0. now destruct (PyStr.mem k0 ks').
Qed.

(** X10. [remove] on a list setting returns [0] and goes through the
    elements named in turn: each takes away its first occurrence in the
    list as it then is, when there is one, and is passed over otherwise.
    So each element occurs as many times less as it is named, while there
    is one, and the elements not named stay, in their order.  On a dict
    setting without doubled keys it returns [0], deletes the keys named and
    leaves every other binding.  Elements and keys that are absent are
    passed over. *)
Theorem remove_takes_named :
  forall s name arg1 rest c n st,
    _resolve_setting name false false s = (Ret (Some (c, n, st)), s) ->
    (forall l, stype st = TList -> svalue st = VList l ->
       exists s' l',
         remove (name :: arg1 :: rest) s = (Ret 0%Z, s') /\
         get_setting s' c n = Some (VList l') /\
         takes (arg1 :: rest) l l' /\
         (forall l2, takes (arg1 :: rest) l l2 -> l2 = l') /\
         (forall x, count_occ string_dec l' x
                    = count_occ string_dec l x - count_occ string_dec (arg1 :: rest) x) /\
         others (arg1 :: rest) l' = others (arg1 :: rest) l) /\
    (forall d, stype st = TDict -> svalue st = VDict d -> PyDict.wf d ->
       exists s' d',
         remove (name :: arg1 :: rest) s = (Ret 0%Z, s') /\
         get_setting s' c n = Some (VDict d') /\
         PyDict.wf d' /\
         forall k, PyDict.get k d'
                   = if PyStr.mem k (arg1 :: rest) then None else PyDict.get k d).
Proof.
  intros s name arg1 rest c n st Hres.
  pose proof (resolve_found _ _ _ _ _ _ _ _ Hres) as [_ Hl]. split.
  - intros l Hty Hval.
    destruct (remove_list_spec (arg1 :: rest) l) as (l' & Hrem & Hcount & Hrest & Htakes).
    destruct (remove_spec s name arg1 rest c n st Hres (VList l')) as (s' & Hop & Hr).
    { left. now rewrite Hval. }
    exists s', l'. split; [exact Hop|]. split; [|split; [exact Htakes|split]].
    + unfold get_setting. now rewrite Hr, (lookup_assign_same _ _ _ _ _ Hl).
    + intros l2 H2. exact (takes_functional _ _ _ _ H2 Htakes).
    + split; assumption.
  - intros d Hty Hval Hwf.
    destruct (remove_dict_spec (arg1 :: rest) d Hwf) as (d' & Hrem & Hwf' & Hget).
    destruct (remove_spec s name arg1 rest c n st Hres (VDict d')) as (s' & Hop & Hr).
    { right. now rewrite Hval. }
    exists s', d'. split; [exact Hop|]. split; [|split; assumption].
    unfold get_setting. now rewrite Hr, (lookup_assign_same _ _ _ _ _ Hl).
Qed.

Lemma remove_takes_named_witness :
  let doubled := snd (set ["test.suites"; "a"; "b"; "a"] sample) in
  get_setting doubled "test" "suites" = Some (VList ["a"; "b"; "a"]) /\
  exists s',
    remove ["test.suites"; "a"] doubled = (Ret 0%Z, s') /\
    get_setting s' "test" "suites" = Some (VList ["b"; "a"]).
Proof.
  cbv zeta. split; [reflexivity|].
  destruct (proj1 (remove_takes_named (snd (set ["test.suites"; "a"; "b"; "a"] sample))
                     "test.suites" "a" [] "test" "suites"
                     (mkSetting "Suites to run" None (VList ["a"; "b"; "a"]) TList)
                     eq_refl) ["a"; "b"; "a"] eq_refl eq_refl)
    as (s' & l' & Hrem & Hget & _ & Honly & _).
  exists s'. split; [exact Hrem|].
  rewrite Hget. f_equal. f_equal. symmetry. apply Honly.
  apply (takes_first "a" [] [] ["b"; "a"]); [intros [] | constructor].
Defined.

(** *** What [get] prints *)

Lemma get_matches_lookup r arg c n :
  registry_wf r -> In (c, n) (get_matches r arg) -> exists st, lookup r c n = Some st.
Proof.
  intros Hwf. unfold get_matches.
  destruct (PyDict.get arg r) as [settings|] eqn:Harg.
  - intros Hin. apply in_map_iff in Hin as (n0 & [= <- <-] & Hn).
    unfold lookup. rewrite Harg. now apply in_keys_get.
  - destruct (qualify arg) as [ctx nm]. intros Hin.
    apply (matching_lookup _ _ _ _ _ Hwf) in Hin as [-> Hst]. exact Hst.
Qed.

Lemma get_record_total s cns : forall results,
  (forall cn, In cn cns ->
     exists st, lookup (_registered_settings s) (fst cn) (snd cn) = Some st) ->
  exists results', get_record cns results s = (Ret results', s).
Proof.
  induction cns as [|[c n] tl IH]; intros results Hreg; simpl.
  - now exists results.
  - destruct (negb (PyStr.startswith "_" n)).
    + destruct (Hreg (c, n) (or_introl eq_refl)) as [st Hst]. simpl in Hst. rewrite Hst.
      apply IH. intros cn Hcn. apply Hreg. now right.
    + apply IH. intros cn Hcn. apply Hreg. now right.
Qed.

Lemma get_loop_unknown s arg after before : forall results,
  registry_wf (_registered_settings s) ->
  (forall a, In a before -> get_matches (_registered_settings s) a <> []) ->
  get_matches (_registered_settings s) arg = [] ->
  get_loop (before ++ arg :: after) results s
  = (Ret None, says (Error ("Unknown setting " ++ arg)) s).
Proof.
  intros results Hwf. revert results.
  induction before as [|a tl IH]; intros results Hknown Hunk; simpl.
  - now rewrite Hunk.
  - pose proof (Hknown a (or_introl eq_refl)) as Hne.
    destruct (get_matches (_registered_settings s) a) as [|cn cns] eqn:Hm; [congruence|].
    destruct (get_record_total s (cn :: cns) results) as [results' Hrec].
    { intros [c n] Hin. rewrite <- Hm in Hin. now apply get_matches_lookup in Hin. }
    unfold bind. rewrite Hrec. apply IH; [|exact Hunk].
    intros a' Ha'. apply Hknown. now right.
Qed.

(** X11. One unknown argument makes [get] print nothing but the error for the
    first such argument and return [-1], whatever the arguments before and
    after it name. *)
Theorem get_unknown_prints_no_value :
  forall s before arg after,
    registry_wf (_registered_settings s) ->
    (forall a, In a before -> get_matches (_registered_settings s) a <> []) ->
    get_matches (_registered_settings s) arg = [] ->
    get (before ++ arg :: after) s
    = (Ret (-1)%Z, says (Error ("Unknown setting " ++ arg)) s).
Proof.
  intros s before arg after Hwf Hknown Hunk. unfold get, bind.
  assert (Hargs : get_args (_registered_settings s) (before ++ arg :: after)
                  = (before ++ arg :: after)%list).
  { now destruct before. }
  rewrite Hargs, (get_loop_unknown s arg after before [] Hwf Hknown Hunk). reflexivity.
Qed.

Lemma get_unknown_prints_no_value_witness :
  get ["test.suites"; "build.verbos"; "lets.verbose"] sample
  = (Ret (-1)%Z, says (Error "Unknown setting build.verbos") sample).
Proof.
  apply (get_unknown_prints_no_value sample ["test.suites"] "build.verbos" ["lets.verbose"]
           sample_registry_wf).
  - intros a [<-|[]]. discriminate.
  - reflexivity.
Defined.

Lemma get_record_skip s cns : forall results,
  get_record cns results s
  = get_record (filter (fun cn => negb (PyStr.startswith "_" (snd cn))) cns) results s.
Proof.
  induction cns as [|[c n] tl IH]; intros results; simpl; [reflexivity|].
  destruct (negb (PyStr.startswith "_" n)) eqn:E; simpl; rewrite ?E; [|apply IH].
  destruct (lookup (_registered_settings s) c n); [apply IH | reflexivity].
Qed.

Lemma append_inj_r (t : string) : forall a b : string, t ++ a = t ++ b -> a = b.
Proof. induction t as [|ch t IH]; simpl; intros a b H; [exact H|]. injection H. apply IH. Qed.

Lemma rjust_exact key : PyStr.rjust (String.length key) key = key.
Proof. unfold PyStr.rjust. now rewrite Nat.sub_diag. Qed.

Lemma matching_qualified r c n st :
  registry_wf r -> lookup r c n = Some st -> c <> "" -> matching r c n = [(c, n)].
Proof.
  intros Hwf Hl Hne. destruct (lookup_in _ _ _ _ Hl) as (settings & Hc & Hn).
  apply nodup_singleton.
  - now apply matching_nodup.
  - apply matching_spec. split; [reflexivity|]. split; [now right|]. now exists settings.
  - intros [c' n'] H. apply matching_spec in H as (-> & [E|E] & _); congruence.
Qed.

Lemma get_one_line s c n st :
    registry_wf (_registered_settings s) ->
    lookup (_registered_settings s) c n = Some st ->
    c <> "" -> PyStr.contains "." c = false ->
    PyStr.startswith "_" n = false ->
    PyDict.get (c ++ "." ++ n) (_registered_settings s) = None ->
    get [c ++ "." ++ n] s
    = (Ret 0%Z,
       says (Info (c ++ "." ++ n ++ ": " ++ show_value (svalue st)) false 0) s).
Proof.
  intros Hwf Hl Hne Hdot Hprot Hctx.
  unfold get, bind. cbn [get_args get_loop]. unfold get_matches.
  rewrite Hctx, (qualify_qualified c n Hdot), (matching_qualified _ _ _ _ Hwf Hl Hne).
  unfold bind. cbn [get_record]. rewrite Hprot. cbn [negb].
  rewrite Hl. cbn [get_loop ret PyDict.set PyDict.keys map fst PyStr.max_of fold_left].
  cbn [for_each]. unfold bind, emit, ret, says, get_line. cbn [fst snd emit].
  unfold qualified. cbn [fst snd]. rewrite rjust_exact.
  now rewrite !append_assoc.
Qed.

(** X12. [get] of the qualified name of a registered, unprotected setting, in a
    registry that is a dict of dicts, with a context that is not empty and
    has no dot: when that name is not itself the name of a context, [get]
    prints one line, the name, a colon and the value, and returns [0]. *)
Theorem get_prints_the_value :
  forall s c n st,
    registry_wf (_registered_settings s) ->
    lookup (_registered_settings s) c n = Some st ->
    c <> "" -> PyStr.contains "." c = false ->
    PyStr.startswith "_" n = false ->
    PyDict.get (c ++ "." ++ n) (_registered_settings s) = None ->
    get [c ++ "." ++ n] s
    = (Ret 0%Z,
       says (Info (c ++ "." ++ n ++ ": " ++ show_value (svalue st)) false 0) s).
Proof. exact get_one_line. Qed.

Lemma get_prints_the_value_witness :
  get ["test.suites"] sample
  = (Ret 0%Z, says (Info "test.suites: unit, smoke" false 0) sample).
Proof.
  apply (get_prints_the_value sample "test" "suites"
           (mkSetting "Suites to run" None (VList ["unit"; "smoke"]) TList)
           sample_registry_wf eq_refl); [discriminate|reflexivity..].
Defined.

(** The lines [get] has for a context: one for each of its unprotected
    settings. *)
Definition context_rows (c : string) (settings : SettingContextType)
  : list (string * value) :=
  map (fun ns => (c ++ "." ++ fst ns, svalue (snd ns))) (visible settings).

Lemma filter_map_fst {V} (p : string -> bool) (d : PyDict.t V) :
  filter p (map fst d) = map fst (filter (fun kv => p (fst kv)) d).
Proof.
  induction d as [|[k v] tl IH]; simpl; [reflexivity|].
  destruct (p k); simpl; now rewrite IH.
Qed.

Lemma get_context_record s c settings :
  PyDict.get c (_registered_settings s) = Some settings ->
  PyDict.wf settings ->
  get_record (map (fun n => (c, n)) (PyDict.keys settings)) [] s
  = (Ret (context_rows c settings), s).
Proof.
  intros Hc Hwf. rewrite get_record_skip.
  set (names := filter (fun n => negb (PyStr.startswith "_" n)) (PyDict.keys settings)).
  assert (Hfilter : filter (fun cn => negb (PyStr.startswith "_" (snd cn)))
                           (map (fun n => (c, n)) (PyDict.keys settings))
                    = map (fun n => (c, n)) names).
  { unfold names. induction (PyDict.keys settings) as [|n tl IH]; simpl; [reflexivity|].
    destruct (negb (PyStr.startswith "_" n)); simpl; now rewrite IH. }
  rewrite Hfilter.
  assert (Hnames : names = map fst (visible settings)).
  { unfold names, visible, PyDict.keys.
    apply (filter_map_fst (fun n => negb (PyStr.startswith "_" n))). }
  rewrite get_record_fresh.
  - f_equal. f_equal. rewrite app_nil_l, map_map. unfold context_rows.
    rewrite Hnames, map_map. apply map_ext_in. intros [n st] Hin.
    unfold qualified, value_at, lookup. cbn [fst snd]. rewrite Hc.
    apply filter_In in Hin as [Hin _]. now rewrite (in_get n st settings Hwf Hin).
  - intros cn Hcn. apply in_map_iff in Hcn as (n & <- & Hn).
    unfold names in Hn. apply filter_In in Hn as [_ Hn]. now apply negb_true_iff in Hn.
  - intros cn Hcn. apply in_map_iff in Hcn as (n & <- & Hn).
    unfold names in Hn. apply filter_In in Hn as [Hn _].
    unfold lookup. cbn [fst snd]. rewrite Hc. now apply in_keys_get.
  - rewrite map_map. apply Finite.Injective_map_NoDup.
    + intros a b H. unfold qualified in H. cbn [fst snd] in H.
      now apply append_inj_r in H; apply append_inj_r in H.
    + apply NoDup_filter, Hwf.
  - reflexivity.
Qed.

(** X13. [get] of the name of a context that has settings prints one line for
    each unprotected setting of that context, in the order of registration,
    the names right aligned to the longest, and returns [0]; when all the
    settings of the context are protected it raises [ValueError]. *)
Theorem get_context_lists_its_settings :
  forall s c settings,
    PyDict.get c (_registered_settings s) = Some settings ->
    PyDict.wf settings -> settings <> [] ->
    get [c] s
    = match PyStr.max_of (map String.length (map fst (context_rows c settings))) with
      | Some width => (Ret 0%Z, prints (map (get_line width) (context_rows c settings)) s)
      | None => (Raise (ValueError "max() arg is an empty sequence"), s)
      end.
Proof.
  intros s c settings Hc Hwf Hne. unfold get, bind. cbn [get_args get_loop].
  unfold get_matches. rewrite Hc.
  pose proof (get_context_record s c settings Hc Hwf) as Hrec.
  destruct (map (fun n => (c, n)) (PyDict.keys settings)) as [|cn cns] eqn:Hm.
  - destruct settings; [congruence | discriminate].
  - unfold bind. rewrite Hrec. cbn [get_loop ret]. unfold PyDict.keys.
    destruct (PyStr.max_of _); [|reflexivity].
    now rewrite for_each_emit.
Qed.

Lemma get_context_lists_its_settings_witness :
  get ["build"] sample
  = (Ret 0%Z,
     prints [Info "build.verbose: low" false 0;
             Info "    build.env: stage:dev" false 0;
             Info "build.defines: k:1" false 0] sample).
Proof.
  apply (get_context_lists_its_settings sample "build"
           [("verbose", mkSetting "Verbosity of the build" None (VStr "low") TStr);
            ("_token", mkSetting "Access token" None (VStr "t0") TStr);
            ("env", mkSetting "Environment of the build" (Some ["dev"; "prod"])
                              (VDict [("stage", "dev")]) TDict);
            ("defines", mkSetting "Preprocessor symbols" None (VDict [("k", "1")]) TDict)]
           eq_refl).
  - repeat constructor; simpl; intros H; repeat destruct H as [H|H];
      try discriminate; auto.
  - discriminate.
Defined.

(** *** [set] then [get] *)

Lemma layout_keys r : map fst (layout r) = PyDict.keys r.
Proof. unfold layout, PyDict.keys. rewrite map_map. reflexivity. Qed.

Lemma registry_wf_layout r r' :
  layout r' = layout r -> registry_wf r -> registry_wf r'.
Proof.
  intros Hlay [Hwf Hin]. split.
  - unfold PyDict.wf. now rewrite <- layout_keys, Hlay, layout_keys.
  - intros c settings' H.
    assert (H' : In (c, map (fun ns => (fst ns, meta (snd ns))) settings') (layout r')).
    { unfold layout. apply in_map_iff. now exists (c, settings'). }
    rewrite Hlay in H'. unfold layout in H'.
    apply in_map_iff in H' as ([c0 settings] & [= Hc0 Hnames] & H0).
    unfold PyDict.wf, PyDict.keys.
    assert (Hk : map fst settings' = map fst settings).
    { apply (f_equal (map fst)) in Hnames. now rewrite !map_map in Hnames. }
    rewrite Hk. apply (Hin c0 settings H0).
Qed.

Lemma value_eqb_str x v : value_eqb x (VStr v) = true -> x = VStr v.
Proof.
  destruct x; simpl; try discriminate. intros H. apply String.eqb_eq in H. now subst.
Qed.

(** X14. Round trip on the command line.  For a registered, unprotected string
    setting of a context that is not empty and has no dot, in a registry
    that is a dict of dicts where the qualified name is not the name of a
    context: [set] of that name to a value its options allow returns [0],
    and [get] of the name then prints the name, a colon and that value, and
    returns [0]. *)
Theorem set_then_get_prints_it :
  forall s c n st v,
    registry_wf (_registered_settings s) ->
    lookup (_registered_settings s) c n = Some st ->
    c <> "" -> PyStr.contains "." c = false ->
    PyStr.startswith "_" n = false ->
    PyDict.get (c ++ "." ++ n) (_registered_settings s) = None ->
    stype st = TStr ->
    (forall opts, options st = Some opts -> In v opts) ->
    exists s1,
      set [c ++ "." ++ n; v] s = (Ret 0%Z, s1) /\
      get [c ++ "." ++ n] s1
      = (Ret 0%Z, says (Info (c ++ "." ++ n ++ ": " ++ v) false 0) s1).
Proof.
  intros s c n st v Hwf Hl Hne Hdot Hprot Hctx Hty Hopts.
  assert (Hres : _resolve_setting (c ++ "." ++ n) false false s
                 = (Ret (Some (c, n, st)), s)).
  { apply resolve_unique; rewrite ?(qualify_qualified c n Hdot); cbn [fst snd].
    - now rewrite Hprot.
    - now apply matching_qualified with (st := st).
    - exact Hl. }
  assert (Hset : set [c ++ "." ++ n; v] s
                 = store_if_changed c n st (VStr v) s).
  { unfold set, bind at 1. rewrite Hres. unfold bind at 1, set_refused, candidate.
    rewrite Hty. destruct (options st) as [opts|] eqn:Ho; [|reflexivity].
    unfold ret. now rewrite (proj2 (mem_true_iff v opts) (Hopts opts eq_refl)). }
  rewrite Hset, store_if_changed_spec.
  eexists. split; [reflexivity|].
  destruct (value_eqb (svalue st) (VStr v)) eqn:E.
  - apply value_eqb_str in E.
    rewrite (get_one_line s c n st Hwf Hl Hne Hdot Hprot Hctx), E. reflexivity.
  - set (s1 := snd (_save_settings (snd (set_value c n (VStr v) s)))).
    assert (Hr1 : _registered_settings s1 = assign c n (VStr v) (_registered_settings s))
      by reflexivity.
    rewrite (get_one_line s1 c n (with_value (VStr v) st)); [reflexivity| | |assumption..|].
    + rewrite Hr1. apply (registry_wf_layout (_registered_settings s));
        [apply layout_assign | exact Hwf].
    + rewrite Hr1. now apply lookup_assign_same.
    + rewrite Hr1. apply get_none_keys. rewrite keys_assign. now apply get_none_keys.
Qed.

Lemma set_then_get_prints_it_witness :
  exists s1,
    set ["lets.verbose"; "on"] sample = (Ret 0%Z, s1) /\
    get ["lets.verbose"] s1 = (Ret 0%Z, says (Info "lets.verbose: on" false 0) s1).
Proof.
  apply (set_then_get_prints_it sample "lets" "verbose"
           (mkSetting "Sets the default verbose mode" (Some ["on"; "off"]) (VStr "off") TStr)
           "on" sample_registry_wf eq_refl); try reflexivity; [discriminate|].
  intros opts [= <-]. now left.
Defined.

(** *** Saving and loading *)

Lemma dict_ext {V} (d1 d2 : PyDict.t V) :
  PyDict.wf d1 -> PyDict.keys d1 = PyDict.keys d2 ->
  (forall k, PyDict.get k d1 = PyDict.get k d2) -> d1 = d2.
Proof.
  unfold PyDict.wf, PyDict.keys. revert d2.
  induction d1 as [|[k1 v1] t1 IH]; intros [|[k2 v2] t2]; simpl; try discriminate.
  - reflexivity.
  - intros Hnd Hkeys Hget. injection Hkeys as Hk1 Hk. subst k2.
    inversion Hnd as [|? ? Hnotin Hnd']; subst.
    pose proof (Hget k1) as H1. rewrite String.eqb_refl in H1. injection H1 as <-.
    f_equal. apply IH; [exact Hnd' | exact Hk|].
    intros k. specialize (Hget k).
    destruct (String.eqb_spec k k1) as [E|Hne]; [subst k | exact Hget].
    pose proof Hnotin as Hnotin2. rewrite Hk in Hnotin2.
    apply get_none_keys in Hnotin. apply get_none_keys in Hnotin2. congruence.
Qed.

(** Two registries with the same layout that hold the same setting at every
    pair are the same. *)
Lemma registry_ext r1 r2 :
  registry_wf r1 -> layout r1 = layout r2 ->
  (forall c n, lookup r1 c n = lookup r2 c n) -> r1 = r2.
Proof.
  intros [Hwf Hin] Hlay Hlook. apply dict_ext; [exact Hwf| |].
  - now rewrite <- !layout_keys, Hlay.
  - intros c.
    assert (G : forall r : SettingsType,
               PyDict.get c (layout r)
               = option_map (fun x : SettingContextType =>
                               map (fun ns => (fst ns, meta (snd ns))) x)
                            (PyDict.get c r)).
    { intros r. unfold layout.
      apply (get_map_values (fun x : SettingContextType =>
                               map (fun ns => (fst ns, meta (snd ns))) x)). }
    pose proof (G r1) as G1. rewrite Hlay, (G r2) in G1. clear G.
    pose proof (Hlook c) as Hc. unfold lookup in Hc.
    unfold SettingsType, SettingContextType, PyDict.t in *.
    destruct (PyDict.get c r1) as [s1|] eqn:E1, (PyDict.get c r2) as [s2|] eqn:E2;
      simpl in G1; try discriminate; [|reflexivity].
    f_equal. apply dict_ext.
    + apply (Hin c s1). now apply get_some_in.
    + injection G1 as G1. apply (f_equal (map fst)) in G1.
      rewrite !map_map in G1. simpl in G1. symmetry. exact G1.
    + exact Hc.
Qed.

Lemma dump_wf r : registry_wf r -> file_wf (dump r).
Proof.
  intros [Hwf Hin]. unfold dump. split.
  - unfold PyDict.wf, PyDict.keys. rewrite map_map. exact Hwf.
  - intros c fs H. apply in_map_iff in H as ([c0 settings] & [= <- <-] & H).
    unfold PyDict.wf, PyDict.keys. rewrite map_map. apply (Hin c0 settings H).
Qed.

Lemma dump_value r c n : file_value (dump r) c n = option_map svalue (lookup r c n).
Proof.
  assert (G : PyDict.get c (dump r)
              = option_map (fun x : SettingContextType =>
                              map (fun ns => (fst ns, svalue (snd ns))) x)
                           (PyDict.get c r)).
  { unfold dump.
    apply (get_map_values (fun x : SettingContextType =>
                             map (fun ns => (fst ns, svalue (snd ns))) x)). }
  unfold file_value, lookup. rewrite G.
  unfold SettingsType, SettingContextType, PyDict.t in *.
  destruct (PyDict.get c r) as [settings|]; simpl; [|reflexivity].
  apply (get_map_values svalue).
Qed.

Lemma dump_keys r : PyDict.keys (dump r) = PyDict.keys r.
Proof. unfold dump, PyDict.keys. now rewrite map_map. Qed.

Lemma with_value_meta st st0 : meta st0 = meta st -> with_value (svalue st) st0 = st.
Proof. destruct st, st0. unfold meta, with_value. simpl. now intros [= -> -> ->]. Qed.

Lemma filter_all {A} (p : A -> bool) (l : list A) :
  (forall x, In x l -> p x = true) -> filter p l = l.
Proof.
  induction l as [|x tl IH]; simpl; intros H; [reflexivity|].
  rewrite (H x (or_introl eq_refl)). f_equal. apply IH. intros y Hy. apply H. now right.
Qed.

Lemma no_member {A} (l : list A) : (forall x, ~ In x l) -> l = [].
Proof. destruct l as [|a tl]; [reflexivity|]. intros H. exfalso. apply (H a). now left. Qed.

Lemma meta_lookup_layout r0 r c n :
  layout r0 = layout r ->
  option_map meta (lookup r0 c n) = option_map meta (lookup r c n).
Proof. intros H. now rewrite !meta_lookup, H. Qed.

Lemma in_lookup (r : SettingsType) c (settings : SettingContextType) n :
  registry_wf r -> In (c, settings) r -> In n (map fst settings) ->
  exists st, lookup r c n = Some st.
Proof.
  intros [Hwf _] Hc Hn. unfold lookup. rewrite (in_get _ _ _ Hwf Hc).
  now apply in_keys_get.
Qed.

Lemma leb_refl x : String.leb x x = true.
Proof. now destruct (String.leb_total x x). Qed.

Lemma get_insert_sorted {V} k k' (v : V) d :
  PyDict.get k (insert_sorted (k', v) d)
  = if String.eqb k k' then Some v else PyDict.get k d.
Proof.
  induction d as [|[k1 v1] tl IH]; [reflexivity|].
  cbn [insert_sorted fst]. destruct (String.leb k' k1) eqn:Hle; [reflexivity|].
  cbn [PyDict.get]. rewrite IH.
  destruct (String.eqb_spec k k1) as [->|Hne]; [|reflexivity].
  destruct (String.eqb_spec k1 k') as [->|_]; [|reflexivity].
  now rewrite leb_refl in Hle.
Qed.

(** Sorting the keys of a dict changes no binding. *)
Lemma get_sort_keys {V} k (d : PyDict.t V) : PyDict.get k (sort_keys d) = PyDict.get k d.
Proof.
  induction d as [|[k0 v0] tl IH]; [reflexivity|].
  cbn [sort_keys fold_right]. fold (sort_keys tl). rewrite get_insert_sorted, IH.
  reflexivity.
Qed.

Lemma insert_sorted_perm {V} (kv : string * V) d : Permutation (insert_sorted kv d) (kv :: d).
Proof.
  induction d as [|kv' tl IH]; [reflexivity|].
  cbn [insert_sorted]. destruct (String.leb (fst kv) (fst kv')); [reflexivity|].
  transitivity (kv' :: kv :: tl); [now constructor | apply perm_swap].
Qed.

Lemma sort_keys_perm {V} (d : PyDict.t V) : Permutation (sort_keys d) d.
Proof.
  induction d as [|kv tl IH]; [reflexivity|].
  cbn [sort_keys fold_right]. fold (sort_keys tl).
  transitivity (kv :: sort_keys tl); [apply insert_sorted_perm | now constructor].
Qed.

(** The keys of the one binding come no later than those of the other. *)
Definition key_le {V} (a b : string * V) : Prop := String.leb (fst a) (fst b) = true.

Lemma insert_sorted_sorted {V} (kv : string * V) d :
  Sorted key_le d -> Sorted key_le (insert_sorted kv d).
Proof.
  induction d as [|kv' tl IH]; intros Hs; [repeat constructor|].
  cbn [insert_sorted]. destruct (String.leb (fst kv) (fst kv')) eqn:Hle.
  - constructor; [exact Hs | now constructor].
  - inversion Hs as [|? ? Hs' Hhd]; subst. constructor; [now apply IH|].
    assert (Hge : key_le kv' kv).
    { unfold key_le. destruct (String.leb_total (fst kv') (fst kv)); congruence. }
    destruct tl as [|kv2 tl2]; cbn [insert_sorted]; [now constructor|].
    destruct (String.leb (fst kv) (fst kv2)); constructor; [exact Hge|].
    now inversion Hhd.
Qed.

Lemma sort_keys_sorted {V} (d : PyDict.t V) : Sorted key_le (sort_keys d).
Proof.
  induction d as [|kv tl IH]; [constructor|].
  cbn [sort_keys fold_right]. now apply insert_sorted_sorted.
Qed.

Lemma sort_keys_keys {V} (d : PyDict.t V) :
  Permutation (PyDict.keys (sort_keys d)) (PyDict.keys d).
Proof. unfold PyDict.keys. apply Permutation_map, sort_keys_perm. Qed.

Lemma sort_keys_wf {V} (d : PyDict.t V) : PyDict.wf d -> PyDict.wf (sort_keys d).
Proof.
  unfold PyDict.wf. intros H.
  apply (Permutation_NoDup (Permutation_sym (sort_keys_keys d)) H).
Qed.

(** A value as it comes back from the file: what differs is the order of
    the keys of a dict. *)
Definition reordered (v v' : value) : Prop :=
  match v, v' with
  | VStr a, VStr b => a = b
  | VList a, VList b => a = b
  | VDict d, VDict d' =>
      Permutation d d' /\ Sorted key_le d' /\
      forall k, PyDict.get k d' = PyDict.get k d
  | _, _ => False
  end.

Lemma yaml_value_reordered v : reordered v (yaml_value v).
Proof.
  destruct v as [a|l|d]; simpl; [reflexivity | reflexivity|].
  split; [apply Permutation_sym, sort_keys_perm|].
  split; [apply sort_keys_sorted | intros k; apply get_sort_keys].
Qed.

Lemma yaml_dump_keys d c : In c (PyDict.keys (yaml_dump d)) <-> In c (PyDict.keys d).
Proof.
  unfold yaml_dump.
  assert (Hk : PyDict.keys
                 (map (fun cs : string * PyDict.t value =>
                         (fst cs,
                          sort_keys (map (fun nv => (fst nv, yaml_value (snd nv))) (snd cs))))
                      d)
               = PyDict.keys d).
  { unfold PyDict.keys. rewrite map_map. reflexivity. }
  rewrite <- Hk. split; apply Permutation_in;
    [apply sort_keys_keys | apply Permutation_sym, sort_keys_keys].
Qed.

Lemma yaml_dump_in d c fs :
  In (c, fs) (yaml_dump d) ->
  exists fs0,
    In (c, fs0) d /\
    fs = sort_keys (map (fun nv => (fst nv, yaml_value (snd nv))) fs0).
Proof.
  unfold yaml_dump. intros H.
  apply (Permutation_in _ (sort_keys_perm _)) in H.
  apply in_map_iff in H as ([c0 fs0] & [= <- <-] & H). now exists fs0.
Qed.

Lemma yaml_dump_wf d : file_wf d -> file_wf (yaml_dump d).
Proof.
  intros [Hwf Hin]. split.
  - unfold yaml_dump. apply sort_keys_wf.
    unfold PyDict.wf, PyDict.keys. rewrite map_map. exact Hwf.
  - intros c fs H. apply yaml_dump_in in H as (fs0 & H & ->).
    apply sort_keys_wf. unfold PyDict.wf, PyDict.keys. rewrite map_map.
    exact (Hin c fs0 H).
Qed.

Lemma yaml_dump_value d c n :
  file_value (yaml_dump d) c n = option_map yaml_value (file_value d c n).
Proof.
  unfold file_value, yaml_dump. rewrite get_sort_keys.
  set (F := fun fs : PyDict.t value =>
              sort_keys (map (fun nv => (fst nv, yaml_value (snd nv))) fs)).
  match goal with
  | |- match ?g with _ => _ end = _ =>
      replace g with (option_map F (PyDict.get c d))
        by (symmetry; apply (get_map_values F))
  end.
  unfold FileSettings, PyDict.t in *.
  destruct (PyDict.get c d) as [fs|]; simpl; [|reflexivity].
  unfold F. rewrite get_sort_keys. apply (get_map_values yaml_value).
Qed.

Lemma with_value_same_meta v st st0 : meta st0 = meta st -> with_value v st0 = with_value v st.
Proof. destruct st, st0. unfold meta, with_value. simpl. now intros [= -> -> ->]. Qed.

(** X15. The file [_save_settings] writes for a registry that is a dict of
    dicts is read back whole, up to the order of keys that [yaml.dump]
    sorts: an object with the same settings registered, whatever their
    values, that loads this file warns about nothing, does not fail, and
    ends with the registered settings as they are and, for each, the saved
    value: the same string, the same list, and for a dict the same
    bindings with the keys in sorted order.  When the keys of every saved
    dict value were in sorted order, the registry is exactly the one that
    was saved. *)
Theorem saved_file_loads_back :
  forall s s0,
    registry_wf (_registered_settings s) ->
    layout (_registered_settings s0) = layout (_registered_settings s) ->
    letsrc s0 = letsrc (snd (_save_settings s)) ->
    exists r',
      _load_settings s0 = (Ret tt, with_settings r' s0) /\
      layout r' = layout (_registered_settings s) /\
      (forall c n,
         lookup r' c n
         = option_map (fun st => with_value (yaml_value (svalue st)) st)
                      (lookup (_registered_settings s) c n)) /\
      (forall c n st,
         lookup (_registered_settings s) c n = Some st ->
         exists v', get_setting (with_settings r' s0) c n = Some v' /\
                    reordered (svalue st) v') /\
      ((forall c n st,
          lookup (_registered_settings s) c n = Some st ->
          yaml_value (svalue st) = svalue st) ->
       r' = _registered_settings s).
Proof.
  intros s s0 Hwf Hlay Hfile. simpl in Hfile.
  set (r := _registered_settings s) in *. set (r0 := _registered_settings s0) in *.
  set (file := yaml_dump (dump r)) in *.
  assert (Hwf0 : registry_wf r0) by now apply (registry_wf_layout r).
  assert (Hkeys : PyDict.keys r0 = PyDict.keys r) by now rewrite <- !layout_keys, Hlay.
  assert (Hcontains : forall c, In c (PyDict.keys file) -> PyDict.contains c r0 = true).
  { intros c Hc. apply (proj1 (yaml_dump_keys (dump r) c)) in Hc.
    rewrite dump_keys, <- Hkeys in Hc.
    unfold PyDict.contains. destruct (in_keys_get c r0 Hc) as [x ->]. reflexivity. }
  assert (Hunk : unknown_contexts file r0 = []).
  { unfold unknown_contexts. rewrite filter_none; [reflexivity|].
    intros c Hc. now rewrite (Hcontains c Hc). }
  assert (Hknown : known_part file r0 = file).
  { rewrite known_part_filter. apply filter_all. intros [c fs] Hin.
    apply Hcontains. unfold PyDict.keys. now apply (in_map fst) in Hin. }
  assert (Hbad : unknown_settings (known_part file r0) r0 = []).
  { apply no_member. intros x Hx.
    apply unknown_settings_spec in Hx as (c & n & fs & _ & Hin & Hn & _ & Hnone).
    apply yaml_dump_in in Hin as (fs0 & Hin & ->).
    apply (Permutation_in _ (sort_keys_keys _)) in Hn.
    unfold PyDict.keys in Hn. rewrite map_map in Hn. simpl in Hn.
    unfold dump in Hin. apply in_map_iff in Hin as ([c0 settings] & [= <- <-] & Hin).
    rewrite map_map in Hn. simpl in Hn.
    destruct (in_lookup r c0 settings n Hwf Hin Hn) as [st Hst].
    pose proof (meta_lookup_layout r0 r c0 n Hlay) as Hm.
    rewrite Hnone, Hst in Hm. discriminate. }
  assert (Hlook : forall c n,
            lookup (load_values file r0) c n
            = option_map (fun st => with_value (yaml_value (svalue st)) st) (lookup r c n)).
  { intros c n. rewrite load_values_lookup by now apply yaml_dump_wf, dump_wf.
    unfold file. rewrite yaml_dump_value, dump_value.
    pose proof (meta_lookup_layout r0 r c n Hlay) as Hm.
    destruct (lookup r c n) as [st|], (lookup r0 c n) as [st0|]; simpl in *;
      try discriminate; [|reflexivity].
    f_equal. apply with_value_same_meta. congruence. }
  exists (load_values file r0). split; [|split; [|split; [|split]]].
  - rewrite (load_settings_cases s0 file Hfile). cbv zeta. fold r0.
    rewrite Hbad. unfold warned. fold r0. now rewrite Hunk, Hknown.
  - now rewrite layout_load_values.
  - exact Hlook.
  - intros c n st Hst. exists (yaml_value (svalue st)).
    split; [|apply yaml_value_reordered].
    unfold get_setting. simpl. now rewrite Hlook, Hst.
  - intros Hsorted. apply registry_ext.
    + apply (registry_wf_layout r0); [apply layout_load_values | exact Hwf0].
    + now rewrite layout_load_values.
    + intros c n. rewrite Hlook. destruct (lookup r c n) as [st|] eqn:Hst; [|reflexivity].
      simpl. rewrite (Hsorted c n st Hst). now rewrite with_value_same.
Qed.

Lemma saved_file_loads_back_witness :
  let changed := snd (set ["build.defines"; "z:1"; "a:2"] sample) in
  let reader := with_file (yaml_dump (dump (_registered_settings changed))) sample in
  get_setting changed "build" "defines" = Some (VDict [("z", "1"); ("a", "2")]) /\
  get_setting (snd (_load_settings reader)) "build" "defines"
  = Some (VDict [("a", "2"); ("z", "1")]) /\
  exists r',
    _load_settings reader = (Ret tt, with_settings r' reader) /\
    forall c n,
      lookup r' c n
      = option_map (fun st => with_value (yaml_value (svalue st)) st)
                   (lookup (_registered_settings changed) c n).
Proof.
  cbv zeta. split; [reflexivity|]. split; [reflexivity|].
  destruct (saved_file_loads_back
              (snd (set ["build.defines"; "z:1"; "a:2"] sample))
              (with_file (yaml_dump (dump (_registered_settings
                                             (snd (set ["build.defines"; "z:1"; "a:2"]
                                                       sample)))))
                         sample))
    as (r' & Hload & _ & Hlook & _).
  - apply (registry_wf_layout (_registered_settings sample));
      [reflexivity | exact sample_registry_wf].
  - reflexivity.
  - reflexivity.
  - exists r'. split; [exact Hload | exact Hlook].
Defined.

(** *** The dispatcher *)

(** lets.py:529 the verbs the [verbose] check leaves alone. *)
Definition exempt (v : VerbType) : bool :=
  negb (negb (String.eqb (vcontext v) "lets") && negb (PyStr.mem (verb v) ["get"; "set"])).

Lemma strip_verbose_clean args : PyStr.mem "verbose" (strip_verbose args) = false.
Proof.
  apply mem_false_iff. unfold strip_verbose. intros H. apply filter_In in H as [_ H].
  now rewrite String.eqb_refl in H.
Qed.

Lemma strip_verbose_keeps x args :
  x <> "verbose" ->
  count_occ string_dec (strip_verbose args) x = count_occ string_dec args x.
Proof.
  intros Hne. unfold strip_verbose. induction args as [|a tl IH]; [reflexivity|].
  cbn [filter]. destruct (String.eqb_spec a "verbose") as [->|Ha]; cbn [negb].
  - rewrite count_occ_cons_neq by congruence. exact IH.
  - destruct (string_dec a x) as [->|Hax].
    + rewrite !count_occ_cons_eq by reflexivity. now rewrite IH.
    + rewrite !count_occ_cons_neq by assumption. exact IH.
Qed.

Section DispatchMore.
Variable dissect_doc : func -> result Doc.
Variable py_str : value -> string.
Variable plugin_call : string -> string -> string -> list string -> M Z.

Let process := process_arguments dissect_doc py_str plugin_call.
Let run_verb := call dissect_doc py_str plugin_call.

Lemma check_verbose_exempt v args s :
  exempt v = true -> check_verbose v args s = (Ret args, s).
Proof.
  unfold exempt, check_verbose. intros H. apply negb_true_iff in H. now rewrite H.
Qed.

Lemma check_verbose_forced v args s st :
  exempt v = false ->
  PyStr.mem "verbose" args || PyStr.mem "lets.verbose" args = true ->
  lookup (_registered_settings s) "lets" "verbose" = Some st ->
  check_verbose v args s
  = (Ret (strip_verbose args),
     with_settings (assign "lets" "verbose" (VStr "on") (_registered_settings s)) s).
Proof.
  unfold exempt, check_verbose, lookup. intros H Hv Hl. apply negb_false_iff in H.
  rewrite H, Hv.
  destruct (PyDict.get "lets" (_registered_settings s)) as [settings|]; [|discriminate].
  now rewrite Hl.
Qed.

(** What the dispatcher does once the verb is found and the [verbose] check
    is done. *)
Definition after_check (v : VerbType) (args' : list string) : M Z :=
  if PyStr.mem "help" (List.tl args') then
    help dissect_doc py_str [vcontext v ++ "." ++ verb v] ;;; ret 0%Z
  else
    match args' with
    | [] => raise IndexError
    | name :: rest => run_verb (process_func v) name rest
    end.

Lemma process_found s arg0 rest v :
  _resolve_verbs s arg0 = [v] ->
  process (arg0 :: rest) s
  = (args' <- check_verbose v (arg0 :: rest) ;; after_check v args') s.
Proof.
  intros Hv. unfold process, process_arguments. now rewrite Hv.
Qed.
End DispatchMore.



(** The state the handler of a verb runs on when [verbose] was typed. *)
Definition verbose_on (s : state) : state :=
  with_settings (assign "lets" "verbose" (VStr "on") (_registered_settings s)) s.

Lemma verbose_on_spec s st :
  lookup (_registered_settings s) "lets" "verbose" = Some st ->
  get_setting (verbose_on s) "lets" "verbose" = Some (VStr "on") /\
  file_value (dump (_registered_settings (verbose_on s))) "lets" "verbose"
  = Some (VStr "on") /\
  (forall c n, (c, n) <> ("lets", "verbose") ->
     get_setting (verbose_on s) c n = get_setting s c n) /\
  saved (verbose_on s) = saved s /\ letsrc (verbose_on s) = letsrc s /\
  printed (verbose_on s) = printed s.
Proof.
  intros Hl. unfold verbose_on, get_setting. simpl.
  rewrite dump_value, (lookup_assign_same _ _ _ _ _ Hl). simpl.
  repeat split. intros c n Hne. rewrite lookup_assign_other by congruence. reflexivity.
Qed.

(** X17. For a verb outside the [lets] context that is not named [get] or [set],
    typed by a token other than [verbose], with [verbose] or [lets.verbose]
    among the arguments and no [help]: the handler is called with every
    bare [verbose] taken out and everything else left, on a state where
    [lets.verbose] is ["on"] and every other setting is as it was.  The
    file is not written by this, but the registry a later write will dump
    has [lets.verbose] set to ["on"]. *)
Theorem verbose_word_turns_verbose_on :
  forall dissect_doc py_str plugin_call s arg0 rest v st,
    _resolve_verbs s arg0 = [v] ->
    vcontext v <> "lets" -> verb v <> "get" -> verb v <> "set" ->
    arg0 <> "verbose" ->
    PyStr.mem "verbose" rest || PyStr.mem "lets.verbose" rest = true ->
    PyStr.mem "help" rest = false ->
    lookup (_registered_settings s) "lets" "verbose" = Some st ->
    process_arguments dissect_doc py_str plugin_call (arg0 :: rest) s
    = call dissect_doc py_str plugin_call (process_func v) arg0 (strip_verbose rest)
           (verbose_on s) /\
    PyStr.mem "verbose" (strip_verbose rest) = false /\
    (forall x, x <> "verbose" ->
       count_occ string_dec (strip_verbose rest) x = count_occ string_dec rest x) /\
    get_setting (verbose_on s) "lets" "verbose" = Some (VStr "on") /\
    (forall c n, (c, n) <> ("lets", "verbose") ->
       get_setting (verbose_on s) c n = get_setting s c n) /\
    saved (verbose_on s) = saved s /\ letsrc (verbose_on s) = letsrc s /\
    file_value (dump (_registered_settings (verbose_on s))) "lets" "verbose"
    = Some (VStr "on").
Proof.
  intros dissect_doc py_str plugin_call s arg0 rest v st Hv Hctx Hget Hset Harg Hword
         Hhelp Hl.
  destruct (verbose_on_spec s st Hl) as (H1 & H2 & H3 & H4 & H5 & _).
  split; [|split; [apply strip_verbose_clean|split; [intros x; apply strip_verbose_keeps|]]].
  - rewrite (process_found _ _ _ _ _ _ _ Hv). unfold bind.
    assert (Hex : exempt v = false).
    { unfold exempt. apply String.eqb_neq in Hctx, Hget, Hset.
      simpl. now rewrite Hctx, Hget, Hset. }
    assert (Hany : PyStr.mem "verbose" (arg0 :: rest)
                   || PyStr.mem "lets.verbose" (arg0 :: rest) = true).
    { apply orb_true_iff in Hword as [H|H]; apply orb_true_iff; [left|right];
        apply mem_true_iff; right; now apply mem_true_iff. }
    rewrite (check_verbose_forced _ _ _ _ Hex Hany Hl). fold (verbose_on s).
    unfold after_check, strip_verbose. cbn [filter].
    apply not_eq_sym in Harg. apply String.eqb_neq in Harg.
    rewrite String.eqb_sym in Harg. rewrite Harg. cbn [negb List.tl].
    fold (strip_verbose rest).
    assert (Hh : PyStr.mem "help" (strip_verbose rest) = false).
    { apply mem_false_iff. intros H. apply filter_In in H as [H _].
      apply mem_true_iff in H. congruence. }
    now rewrite Hh.
  - repeat split; assumption.
Qed.

Lemma verbose_word_turns_verbose_on_witness :
  process_arguments sample_docs sample_str sample_call
                    ["deploy"; "verbose"; "eu"; "verbose"] sample
  = sample_call "build" "deploy" "deploy" ["eu"] (verbose_on sample).
Proof.
  apply (verbose_word_turns_verbose_on sample_docs sample_str sample_call sample
           "deploy" ["verbose"; "eu"; "verbose"]
           (mkVerb "build" "deploy" (FPlugin "build" "deploy"))
           (mkSetting "Sets the default verbose mode" (Some ["on"; "off"]) (VStr "off") TStr));
    try reflexivity; discriminate.
Defined.

(** X18. A verb named [verbose] outside the [lets] context cannot be run by its
    bare name: the token that names it is taken out with the other
    [verbose] words, so with nothing else typed the call raises
    [IndexError], and otherwise the handler is called with the first
    remaining argument in the place of its name. *)
Theorem verb_named_verbose_loses_its_token :
  forall dissect_doc py_str plugin_call s rest v st,
    _resolve_verbs s "verbose" = [v] ->
    vcontext v <> "lets" ->
    lookup (_registered_settings s) "lets" "verbose" = Some st ->
    process_arguments dissect_doc py_str plugin_call ("verbose" :: rest) s
    = match strip_verbose rest with
      | [] => (Raise IndexError, verbose_on s)
      | name :: rest' =>
          if PyStr.mem "help" rest' then
            (help dissect_doc py_str [vcontext v ++ "." ++ verb v] ;;; ret 0%Z) (verbose_on s)
          else
            call dissect_doc py_str plugin_call (process_func v) name rest' (verbose_on s)
      end.
Proof.
  intros dissect_doc py_str plugin_call s rest v st Hv Hctx Hl.
  assert (Hname : verb v = "verbose").
  { assert (Hin : In v (_resolve_verbs s "verbose")) by (rewrite Hv; now left).
    rewrite resolve_verbs_unqualified in Hin by reflexivity.
    apply filter_In in Hin as [_ H]. now apply String.eqb_eq in H. }
  rewrite (process_found _ _ _ _ _ _ _ Hv). unfold bind.
  assert (Hex : exempt v = false).
  { unfold exempt. apply String.eqb_neq in Hctx. rewrite Hctx, Hname. reflexivity. }
  rewrite (check_verbose_forced v ("verbose" :: rest) s st Hex eq_refl Hl).
  fold (verbose_on s).
  unfold after_check, strip_verbose. cbn [filter String.eqb Ascii.eqb Bool.eqb andb negb].
  fold (strip_verbose rest).
  destruct (strip_verbose rest) as [|name rest']; [reflexivity|].
  cbn [List.tl]. destruct (PyStr.mem "help" rest'); reflexivity.
Qed.

(** The sample with one more plugin verb, named [verbose]. *)
Definition chatty : state :=
  Eval vm_compute in
    snd (__init__ "lets" sample_plugins
           (sample_verbs ++ [mkRegistered "verbose" "build" (FPlugin "build" "verbose")])
           None).

Lemma verb_named_verbose_loses_its_token_witness :
  fst (process_arguments sample_docs sample_str sample_call ["verbose"] chatty)
  = Raise IndexError /\
  process_arguments sample_docs sample_str sample_call ["verbose"; "fast"; "now"] chatty
  = sample_call "build" "verbose" "fast" ["now"] (verbose_on chatty).
Proof.
  pose proof (fun rest =>
                verb_named_verbose_loses_its_token sample_docs sample_str sample_call
                  chatty rest (mkVerb "build" "verbose" (FPlugin "build" "verbose"))
                  (mkSetting "Sets the default verbose mode" (Some ["on"; "off"])
                             (VStr "off") TStr)
                  eq_refl ltac:(discriminate) eq_refl) as H.
  split.
  - now rewrite (H []).
  - now rewrite (H ["fast"; "now"]).
Defined.

(** X19. Three ways in which the dispatcher calls no handler.  Without a
    verb it runs the overview, which only prints, and returns [-1] when the
    overview returns.  With a token that no verb answers to it reports the
    unknown verb and returns [-1].  With [help] among the arguments of a
    verb it found it runs the help of that verb under its qualified name,
    which only prints, and returns [0] when that help returns, also when
    the help itself fails to find the verb: on the state as it was for a
    verb the [verbose] check leaves alone or with no [verbose] word typed;
    and for any other verb with a [verbose] word typed, on the state where
    [lets.verbose] has been turned on, when [help] is still after the first
    of the arguments that are left.  An exception of the overview or of the
    help is the outcome of the call. *)
Theorem dispatch_without_handler :
  forall dissect_doc py_str plugin_call s,
    (exists r lines,
       help dissect_doc py_str [] s = (r, prints lines s) /\
       process_arguments dissect_doc py_str plugin_call [] s
       = (match r with Ret _ => Ret (-1)%Z | Raise e => Raise e end, prints lines s)) /\
    (forall arg0 rest,
       _resolve_verbs s arg0 = [] ->
       process_arguments dissect_doc py_str plugin_call (arg0 :: rest) s
       = (Ret (-1)%Z, says (Error ("Unknown verb " ++ arg0)) s)) /\
    (forall arg0 rest v,
       _resolve_verbs s arg0 = [v] ->
       PyStr.mem "help" rest = true ->
       exempt v = true \/
       PyStr.mem "verbose" (arg0 :: rest) || PyStr.mem "lets.verbose" (arg0 :: rest) = false ->
       exists r lines,
         help dissect_doc py_str [vcontext v ++ "." ++ verb v] s = (r, prints lines s) /\
         process_arguments dissect_doc py_str plugin_call (arg0 :: rest) s
         = (match r with Ret _ => Ret 0%Z | Raise e => Raise e end, prints lines s)) /\
    (forall arg0 rest v st,
       _resolve_verbs s arg0 = [v] ->
       exempt v = false ->
       PyStr.mem "verbose" (arg0 :: rest) || PyStr.mem "lets.verbose" (arg0 :: rest) = true ->
       lookup (_registered_settings s) "lets" "verbose" = Some st ->
       PyStr.mem "help" (List.tl (strip_verbose (arg0 :: rest))) = true ->
       exists r lines,
         help dissect_doc py_str [vcontext v ++ "." ++ verb v] (verbose_on s)
         = (r, prints lines (verbose_on s)) /\
         process_arguments dissect_doc py_str plugin_call (arg0 :: rest) s
         = (match r with Ret _ => Ret 0%Z | Raise e => Raise e end,
            prints lines (verbose_on s))).
Proof.
  intros dissect_doc py_str plugin_call s. split; [|split; [|split]].
  - destruct (help dissect_doc py_str [] s) as [r s'] eqn:E.
    destruct (only_prints_help dissect_doc py_str [] s r s' E) as [lines ->].
    exists r, lines. split; [reflexivity|].
    unfold process_arguments, bind. rewrite E. now destruct r.
  - intros arg0 rest Hv. unfold process_arguments. now rewrite Hv.
  - intros arg0 rest v Hv Hhelp Hcheck.
    destruct (help dissect_doc py_str [vcontext v ++ "." ++ verb v] s) as [r s'] eqn:E.
    destruct (only_prints_help dissect_doc py_str _ s r s' E) as [lines ->].
    exists r, lines. split; [reflexivity|].
    rewrite (process_found _ _ _ _ _ _ _ Hv). unfold bind at 1.
    assert (Hc : check_verbose v (arg0 :: rest) s = (Ret (arg0 :: rest), s)).
    { destruct Hcheck as [Hex|Hno]; [now apply check_verbose_exempt|].
      unfold check_verbose. rewrite Hno. now destruct (_ && _). }
    rewrite Hc. unfold after_check. cbn [List.tl]. rewrite Hhelp.
    unfold bind. rewrite E. now destruct r.
  - intros arg0 rest v st Hv Hex Hword Hl Hhelp.
    destruct (help dissect_doc py_str [vcontext v ++ "." ++ verb v] (verbose_on s))
      as [r s'] eqn:E.
    destruct (only_prints_help dissect_doc py_str _ _ r s' E) as [lines ->].
    exists r, lines. split; [reflexivity|].
    rewrite (process_found _ _ _ _ _ _ _ Hv). unfold bind at 1.
    rewrite (check_verbose_forced v (arg0 :: rest) s st Hex Hword Hl).
    fold (verbose_on s). unfold after_check. rewrite Hhelp.
    unfold bind. rewrite E. now destruct r.
Qed.

Lemma dispatch_without_handler_witness :
  process_arguments sample_docs sample_str sample_call ["nothing"; "fast"] sample
  = (Ret (-1)%Z, says (Error "Unknown verb nothing") sample) /\
  (exists r lines,
     help sample_docs sample_str ["build.deploy"] sample = (r, prints lines sample) /\
     process_arguments sample_docs sample_str sample_call ["deploy"; "eu"; "help"] sample
     = (match r with Ret _ => Ret 0%Z | Raise e => Raise e end, prints lines sample)) /\
  (exists r lines,
     help sample_docs sample_str ["build.deploy"] (verbose_on sample)
     = (r, prints lines (verbose_on sample)) /\
     process_arguments sample_docs sample_str sample_call ["deploy"; "verbose"; "help"] sample
     = (match r with Ret _ => Ret 0%Z | Raise e => Raise e end,
        prints lines (verbose_on sample)) /\
     get_setting (verbose_on sample) "lets" "verbose" = Some (VStr "on") /\
     get_setting sample "lets" "verbose" = Some (VStr "off")).
Proof.
  destruct (dispatch_without_handler sample_docs sample_str sample_call sample)
    as (_ & Hunknown & Hhelp & Hverbose).
  split; [|split].
  - apply (Hunknown "nothing" ["fast"]). reflexivity.
  - apply (Hhelp "deploy" ["eu"; "help"] (mkVerb "build" "deploy" (FPlugin "build" "deploy")));
      [reflexivity | reflexivity | right; reflexivity].
  - destruct (Hverbose "deploy" ["verbose"; "help"]
                (mkVerb "build" "deploy" (FPlugin "build" "deploy"))
                (mkSetting "Sets the default verbose mode" (Some ["on"; "off"])
                           (VStr "off") TStr))
      as (r & lines & H1 & H2); try reflexivity.
    exists r, lines. repeat split; assumption || reflexivity.
Defined.

(** *** The docstring of a handler *)

Module Docstring.

(** [l.index(x)], for [x in l]. *)
Fixpoint index_of (x : string) (l : list string) : option nat :=
  match l with
  | [] => None
  | y :: tl => if String.eqb y x then Some 0
               else match index_of x tl with
                    | Some i => Some (S i)
                    | None => None
                    end
  end.

(** [l[a:b]] for indices that are not negative. *)
Definition slice {A} (a b : nat) (l : list A) : list A := firstn (b - a) (skipn a l).

Definition nonempty (l : string) : bool := negb (String.eqb l "").

Definition dash (l : string) : bool := PyStr.startswith "-" l.

(** [[idx for idx, l in enumerate(items) if l.startswith("-")]]. *)
Definition dash_indices (items : list string) : list nat :=
  map fst (filter (fun il => dash (snd il)) (combine (seq 0 (List.length items)) items)).

(** lets.py:381-382 and 385-386: the lines from one that starts with a dash
    up to the next such line are joined into one entry. *)
Definition regroup (items : list string) : list string :=
  let starts := (dash_indices items ++ [List.length items + 1])%list in
  map (fun idx => PyStr.join " " (slice (nth idx starts 0) (nth (idx + 1) starts 0) items))
      (seq 0 (List.length starts - 1)).

Definition newline : string := String (ascii_of_nat 10) EmptyString.

(** lets.py:370-387 [dissect_doc] from the stripped lines of the docstring
    on. *)
Definition dissect_lines (lines : list string) : Doc :=
  let description_index :=
    match index_of "" lines with Some i => i | None => List.length lines end in
  let summary := PyStr.join " " (filter nonempty (firstn description_index lines)) in
  let example_index :=
    match index_of "Examples:" lines with Some i => i | None => List.length lines end in
  let option_index :=
    match index_of "Options:" (skipn description_index lines) with
    | Some i => i + description_index
    | None => example_index
    end in
  let description :=
    String.concat ""
      (map (fun l => if nonempty l then l ++ " " else newline)
           (slice (description_index + 1) option_index lines)) in
  let options := regroup (filter nonempty (slice option_index example_index lines)) in
  let examples := regroup (filter nonempty (skipn example_index lines)) in
  mkDoc summary description options examples.

(** lets.py:364 [dissect_doc].  The argument is the docstring of the
    handler as [[s.strip() for s in func.__doc__.splitlines()]], or [None]
    for a handler whose docstring is missing or empty; for such a handler
    [examples] is never assigned and the [return] raises. *)
Definition dissect_doc (doc : option (list string)) : result Doc :=
  match doc with
  | Some lines => Ret (dissect_lines lines)
  | None => Raise UnboundLocalError
  end.

(** The entries a list of lines falls into, read from the front: a line
    that starts with a dash opens an entry, the lines after it up to the
    next dash belong to it, and lines before the first dash belong to
    none. *)
Fixpoint continuation (items : list string) : list string :=
  match items with
  | [] => []
  | x :: tl => if dash x then [] else x :: continuation tl
  end.

Fixpoint entries (items : list string) : list (list string) :=
  match items with
  | [] => []
  | x :: tl => if dash x then (x :: continuation tl) :: entries tl else entries tl
  end.

Definition indices_from (k : nat) (items : list string) : list nat :=
  map fst (filter (fun il => dash (snd il)) (combine (seq k (List.length items)) items)).

Lemma indices_from_cons k x tl :
  indices_from k (x :: tl)
  = ((if dash x then [k] else []) ++ indices_from (S k) tl)%list.
Proof. unfold indices_from. simpl. now destruct (dash x). Qed.

(** What a comprehension over [range(len(l) - 1)] that reads [l[idx]] and
    [l[idx + 1]] goes through: the neighbours in [l]. *)
Fixpoint neighbours {B} (f : nat -> nat -> B) (l : list nat) : list B :=
  match l with
  | a :: tl => match tl with
               | b :: _ => f a b :: neighbours f tl
               | [] => []
               end
  | [] => []
  end.

Lemma neighbours_cons2 {B} (f : nat -> nat -> B) a b l :
  neighbours f (a :: b :: l) = f a b :: neighbours f (b :: l).
Proof. reflexivity. Qed.

Lemma map_seq_neighbours {B} (f : nat -> nat -> B) (l : list nat) :
  map (fun idx => f (nth idx l 0) (nth (idx + 1) l 0)) (seq 0 (List.length l - 1))
  = neighbours f l.
Proof.
  induction l as [|a tl IH]; [reflexivity|].
  destruct tl as [|b tl']; [reflexivity|].
  replace (List.length (a :: b :: tl') - 1) with (S (List.length (b :: tl') - 1))
    by (simpl; lia).
  rewrite <- cons_seq, <- seq_shift, map_cons, map_map.
  rewrite neighbours_cons2. f_equal. rewrite <- IH. apply map_ext. intros idx. reflexivity.
Qed.

(** The index of the first line that starts with a dash, and one past the
    end when there is none. *)
Fixpoint first_dash (items : list string) : nat :=
  match items with
  | [] => 1
  | x :: tl => if dash x then 0 else S (first_dash tl)
  end.

Lemma first_start k items :
  exists more,
    (indices_from k items ++ [k + List.length items + 1])%list
    = (k + first_dash items) :: more.
Proof.
  revert k. induction items as [|x tl IH]; intros k.
  - exists []. simpl. now rewrite Nat.add_0_r.
  - rewrite indices_from_cons. simpl first_dash. destruct (dash x).
    + eexists. simpl. now rewrite Nat.add_0_r.
    + destruct (IH (S k)) as [more Hm]. exists more. simpl app.
      replace (k + S (List.length tl) + 1) with (S k + List.length tl + 1) by lia.
      rewrite Hm. f_equal. lia.
Qed.

Lemma firstn_first_dash items : firstn (first_dash items) items = continuation items.
Proof.
  induction items as [|x tl IH]; [reflexivity|]. simpl.
  destruct (dash x); [reflexivity|]. simpl. now rewrite IH.
Qed.

Lemma neighbours_entries items : forall pre,
  neighbours (fun a b => slice a b (pre ++ items))
             (indices_from (List.length pre) items
              ++ [List.length pre + List.length items + 1])
  = entries items.
Proof.
  induction items as [|x tl IH]; intros pre; [reflexivity|].
  specialize (IH (pre ++ [x])%list).
  rewrite <- app_assoc, length_app in IH. simpl in IH.
  replace (List.length pre + 1) with (S (List.length pre)) in IH by lia.
  replace (List.length pre + List.length (x :: tl) + 1)
    with (S (List.length pre) + List.length tl + 1) by (simpl; lia).
  rewrite indices_from_cons. simpl entries. destruct (dash x) eqn:Hx.
  - destruct (first_start (S (List.length pre)) tl) as [more Hm].
    rewrite <- app_assoc, Hm. rewrite Hm in IH.
    change ([List.length pre] ++ S (List.length pre) + first_dash tl :: more)%list
      with (List.length pre :: S (List.length pre) + first_dash tl :: more).
    rewrite neighbours_cons2, IH.
    f_equal. unfold slice. rewrite skipn_app, Nat.sub_diag, skipn_all.
    replace (S (List.length pre) + first_dash tl - List.length pre)
      with (S (first_dash tl)) by lia.
    simpl. now rewrite firstn_first_dash.
  - exact IH.
Qed.

Lemma regroup_entries items : regroup items = map (PyStr.join " ") (entries items).
Proof.
  unfold regroup. cbv zeta.
  rewrite <- (neighbours_entries items []).
  rewrite <- (map_seq_neighbours (fun a b => slice a b ([] ++ items))).
  now rewrite map_map.
Qed.

(** The lines from the first one that starts with a dash on. *)
Fixpoint from_first_dash (items : list string) : list string :=
  match items with
  | [] => []
  | x :: tl => if dash x then x :: tl else from_first_dash tl
  end.

Lemma continuation_rest items :
  (continuation items ++ List.concat (entries items))%list = items.
Proof.
  induction items as [|x tl IH]; [reflexivity|]. simpl.
  destruct (dash x); simpl; now rewrite IH.
Qed.

Lemma entries_concat items : List.concat (entries items) = from_first_dash items.
Proof.
  induction items as [|x tl IH]; [reflexivity|]. simpl.
  destruct (dash x); [|exact IH]. simpl. now rewrite continuation_rest.
Qed.

Lemma entries_length items :
  List.length (entries items) = List.length (filter dash items).
Proof.
  induction items as [|x tl IH]; [reflexivity|]. simpl.
  destruct (dash x); simpl; now rewrite IH.
Qed.

Lemma continuation_no_dash items : Forall (fun l => dash l = false) (continuation items).
Proof.
  induction items as [|x tl IH]; [constructor|]. simpl.
  destruct (dash x) eqn:Hx; constructor; assumption.
Qed.

(** An entry is a line that starts with a dash and lines that do not. *)
Definition entry_shape (e : list string) : Prop :=
  exists x rest, e = x :: rest /\ dash x = true /\ Forall (fun l => dash l = false) rest.

Lemma entries_shape items : Forall entry_shape (entries items).
Proof.
  induction items as [|x tl IH]; [constructor|]. simpl.
  destruct (dash x) eqn:Hx; [|exact IH]. constructor; [|exact IH].
  exists x, (continuation tl). auto using continuation_no_dash.
Qed.

Lemma join_dash x rest : dash x = true -> dash (PyStr.join " " (x :: rest)) = true.
Proof.
  unfold dash, PyStr.startswith, PyStr.join. destruct x as [|ch x']; [discriminate|].
  intros H. destruct rest as [|y r]; [exact H|].
  cbn [String.concat append]. cbn [prefix] in *.
  destruct (ascii_dec "-" ch); [|discriminate]. now destruct x'.
Qed.

Lemma index_of_fresh x pre post :
  ~ In x pre -> index_of x (pre ++ x :: post) = Some (List.length pre).
Proof.
  induction pre as [|y tl IH]; simpl; intros Hn.
  - now rewrite String.eqb_refl.
  - destruct (String.eqb y x) eqn:E.
    + apply String.eqb_eq in E. tauto.
    + rewrite IH; tauto.
Qed.

Lemma index_of_absent x l : ~ In x l -> index_of x l = None.
Proof.
  induction l as [|y tl IH]; simpl; intros Hn; [reflexivity|].
  destruct (String.eqb y x) eqn:E.
  - apply String.eqb_eq in E. tauto.
  - rewrite IH; tauto.
Qed.

Lemma skipn_length_app {A} (pre l : list A) : skipn (List.length pre) (pre ++ l) = l.
Proof. induction pre; simpl; auto. Qed.

Lemma firstn_length_app {A} (pre l : list A) : firstn (List.length pre) (pre ++ l) = pre.
Proof. induction pre; simpl; [now destruct l | now f_equal]. Qed.

Lemma filter_nonempty_id l : ~ In "" l -> filter nonempty l = l.
Proof.
  induction l as [|y tl IH]; simpl; intros Hn; [reflexivity|].
  unfold nonempty at 1. destruct (String.eqb y "") eqn:E.
  - apply String.eqb_eq in E. subst. tauto.
  - simpl. rewrite IH; tauto.
Qed.

(** X20. The entries [dissect_doc] makes of the lines of a section.  The
    index arithmetic of lets.py:381-382 and 385-386 groups the lines as a
    reading from the front does: each line that starts with a dash opens an
    entry that takes the lines up to the next such line, joined by one
    space.  So there are as many entries as lines that start with a dash,
    every entry starts with a dash, the lines before the first dash (the
    section header among them) are in no entry, and every line from the
    first dash on is in one, in order. *)
Theorem regroup_reads_entries :
  forall items,
    regroup items = map (PyStr.join " ") (entries items) /\
    List.length (regroup items) = List.length (filter dash items) /\
    Forall (fun entry => dash entry = true) (regroup items) /\
    Forall entry_shape (entries items) /\
    List.concat (entries items) = from_first_dash items.
Proof.
  intros items. rewrite regroup_entries.
  split; [reflexivity|]. split; [now rewrite length_map, entries_length|].
  split; [|split; [apply entries_shape | apply entries_concat]].
  apply Forall_map. eapply Forall_impl; [|apply entries_shape].
  intros e (x & rest & -> & Hx & _). now apply join_dash.
Qed.

(** X21. A docstring without a blank line is all summary: every line goes
    into the summary, the description and the options stay empty even when
    a line reads [Options:], and without a line [Examples:] the examples are
    empty too. *)
Theorem docstring_without_blank_line :
  forall lines,
    ~ In "" lines ->
    summary (dissect_lines lines) = PyStr.join " " lines /\
    doc_description (dissect_lines lines) = "" /\
    doc_options (dissect_lines lines) = [] /\
    (~ In "Examples:" lines -> examples (dissect_lines lines) = []).
Proof.
  intros lines Hb. unfold dissect_lines. cbv zeta.
  cbn [summary doc_description doc_options examples].
  rewrite (index_of_absent "" lines Hb).
  rewrite firstn_all, skipn_all. cbn [index_of].
  rewrite (filter_nonempty_id lines Hb).
  split; [reflexivity|].
  split; [|split].
  - unfold slice. destruct (index_of "Examples:" lines) as [e|] eqn:He.
    + assert (Hle : e <= List.length lines).
      { clear -He. revert e He. induction lines as [|y tl IH]; simpl; [discriminate|].
        intros e. destruct (String.eqb y "Examples:"); [intros [= <-]; lia|].
        destruct (index_of "Examples:" tl) as [i|]; [|discriminate].
        intros [= <-]. specialize (IH i eq_refl). lia. }
      replace (e - (List.length lines + 1)) with 0 by lia. reflexivity.
    + replace (List.length lines - (List.length lines + 1)) with 0 by lia. reflexivity.
  - unfold slice. rewrite Nat.sub_diag. reflexivity.
  - intros He. rewrite (index_of_absent _ _ He), skipn_all. reflexivity.
Qed.

Lemma docstring_without_blank_line_witness :
  dissect_lines ["Build the target."; "Options:"; "-f: fast"]
  = mkDoc "Build the target. Options: -f: fast" "" [] [].
Proof.
  destruct (docstring_without_blank_line ["Build the target."; "Options:"; "-f: fast"])
    as (H1 & H2 & H3 & H4).
  - simpl. intros [H|[H|[H|[]]]]; discriminate.
  - destruct (dissect_lines ["Build the target."; "Options:"; "-f: fast"]) as [a b c d].
    simpl in *. rewrite H1, H2, H3, H4; [reflexivity|].
    intros [H|[H|[H|[]]]]; discriminate.
Defined.

(** X22. A docstring in the layout the parser is written for: summary
    lines, a blank line, description lines, [Options:] with its lines and
    [Examples:] with its lines.  The summary is the summary lines joined by
    spaces; the description takes each line with a space after it and a
    line break for each blank line; options and examples are the entries of
    their sections, blank lines left out, the header in none of them. *)
Theorem docstring_sections :
  forall sum desc opts exs,
    ~ In "" sum -> ~ In "Examples:" sum ->
    ~ In "Options:" desc -> ~ In "Examples:" desc ->
    ~ In "Examples:" opts ->
    dissect_lines (sum ++ "" :: desc ++ "Options:" :: opts ++ "Examples:" :: exs)
    = mkDoc (PyStr.join " " sum)
            (String.concat "" (map (fun l => if nonempty l then l ++ " " else newline) desc))
            (map (PyStr.join " ") (entries (filter nonempty opts)))
            (map (PyStr.join " ") (entries (filter nonempty exs))).
Proof.
  intros sum desc opts exs Hs1 Hs2 Hd1 Hd2 Ho.
  set (lines := (sum ++ "" :: desc ++ "Options:" :: opts ++ "Examples:" :: exs)%list).
  assert (Hdi : index_of "" lines = Some (List.length sum))
    by (apply index_of_fresh; exact Hs1).
  set (pre := (sum ++ "" :: desc ++ "Options:" :: opts)%list).
  assert (Hlines : lines = (pre ++ "Examples:" :: exs)%list).
  { unfold lines, pre. rewrite <- app_assoc. simpl. rewrite <- app_assoc. reflexivity. }
  assert (Hpre : ~ In "Examples:" pre).
  { unfold pre. intros H. apply in_app_or in H as [H|[H|H]]; [tauto|discriminate|].
    apply in_app_or in H as [H|[H|H]]; [tauto|discriminate|tauto]. }
  assert (Hei : index_of "Examples:" lines = Some (List.length pre))
    by (rewrite Hlines; apply index_of_fresh; exact Hpre).
  assert (Hsk : skipn (List.length sum) lines
                = "" :: (desc ++ "Options:" :: opts ++ "Examples:" :: exs)%list)
    by apply skipn_length_app.
  assert (Hoi : index_of "Options:" (skipn (List.length sum) lines)
                = Some (S (List.length desc))).
  { rewrite Hsk. cbn [index_of]. change (String.eqb "" "Options:") with false. cbv iota.
    now rewrite (index_of_fresh "Options:" desc _ Hd1). }
  assert (Hlen : List.length pre = List.length sum + S (List.length desc + S (List.length opts))).
  { unfold pre. rewrite length_app. simpl. rewrite length_app. reflexivity. }
  unfold dissect_lines. cbv zeta. fold lines. rewrite Hdi, Hei, Hoi. f_equal.
  - unfold lines. now rewrite firstn_length_app, filter_nonempty_id.
  - f_equal. f_equal. unfold slice.
    replace (S (List.length desc) + List.length sum - (List.length sum + 1))
      with (List.length desc) by lia.
    replace (List.length sum + 1) with (List.length (sum ++ [""]))
      by (rewrite length_app; reflexivity).
    replace lines with ((sum ++ [""]) ++ desc ++ "Options:" :: opts ++ "Examples:" :: exs)%list
      by (unfold lines; now rewrite <- app_assoc).
    rewrite skipn_length_app. apply firstn_length_app.
  - assert (Hsl : slice (S (List.length desc) + List.length sum) (List.length pre) lines
                  = "Options:" :: opts).
    { unfold slice.
      replace (List.length pre - (S (List.length desc) + List.length sum))
        with (S (List.length opts)) by (rewrite Hlen; lia).
      replace (S (List.length desc) + List.length sum)
        with (List.length (sum ++ "" :: desc)) by (rewrite length_app; simpl; lia).
      replace lines with ((sum ++ "" :: desc) ++ "Options:" :: opts ++ "Examples:" :: exs)%list
        by (unfold lines; now rewrite <- app_assoc).
      rewrite skipn_length_app. cbn [firstn]. f_equal. apply firstn_length_app. }
    rewrite Hsl, regroup_entries. reflexivity.
  - rewrite Hlines, skipn_length_app, regroup_entries. reflexivity.
Qed.

Lemma docstring_sections_witness :
  dissect_lines ["Build the"; "target."; ""; "Runs the compiler."; ""; "Twice.";
                 "Options:"; "-f: fast"; "and loose"; ""; "-s: slow";
                 "Examples:"; "- lets build x"; "-f"]
  = mkDoc "Build the target."
          ("Runs the compiler. " ++ newline ++ "Twice. ")
          ["-f: fast and loose"; "-s: slow"]
          ["- lets build x"; "-f"].
Proof.
  apply (docstring_sections ["Build the"; "target."] ["Runs the compiler."; ""; "Twice."]
           ["-f: fast"; "and loose"; ""; "-s: slow"] ["- lets build x"; "-f"]);
    simpl; intros H; repeat destruct H as [H|H]; try discriminate; exact H.
Defined.

End Docstring.

(** *** [help] and handlers without a docstring *)

Section Undocumented.
Variable docs : func -> option (list string).
Variable py_str : value -> string.

(** The parser of [help] over the docstrings [docs] gives. *)
Definition parsed (f : func) : result Doc := Docstring.dissect_doc (docs f).

Lemma list_verbs_cons m cmd tl s :
  list_verbs parsed m (cmd :: tl) s
  = match docs (process_func cmd) with
    | Some lines =>
        list_verbs parsed m tl
          (prints [verb_line m cmd (Docstring.dissect_lines lines)] s)
    | None => (Raise UnboundLocalError, s)
    end.
Proof.
  unfold list_verbs. cbn [for_each]. unfold bind at 1. unfold bind at 1.
  unfold dissect, parsed, Docstring.dissect_doc.
  destruct (docs (process_func cmd)); reflexivity.
Qed.

Lemma list_verbs_undocumented m verbs : forall s,
  (exists cmd, In cmd verbs /\ docs (process_func cmd) = None) ->
  exists es, list_verbs parsed m verbs s = (Raise UnboundLocalError, prints es s).
Proof.
  induction verbs as [|c tl IH]; intros s (cmd & Hin & Hd); [destruct Hin|].
  rewrite list_verbs_cons. destruct (docs (process_func c)) as [lines|] eqn:Hc.
  - destruct Hin as [Heq|Hin]; [subst; congruence|].
    destruct (IH (prints [verb_line m c (Docstring.dissect_lines lines)] s)) as [es He].
    { now exists cmd. }
    rewrite He, prints_prints. now eexists.
  - exists []. now rewrite prints_nil.
Qed.

Lemma resolve_total arg graceful allow s :
  registry_wf (_registered_settings s) ->
  exists r es, _resolve_setting arg graceful allow s = (Ret r, prints es s).
Proof.
  intros Hwf. unfold _resolve_setting. destruct (qualify arg) as [ctx nm].
  destruct (PyStr.startswith "_" nm && negb allow).
  - run. eexists. eexists. reflexivity.
  - destruct (matching (_registered_settings s) ctx nm) as [|[c n] [|c2 more]] eqn:Hm.
    + destruct graceful; run.
      * exists None, []. now rewrite prints_nil.
      * eexists. eexists. reflexivity.
    + destruct (matching_lookup _ ctx nm c n Hwf) as (-> & st & Hl);
        [rewrite Hm; now left|].
      rewrite Hl. exists (Some (c, nm, st)), []. now rewrite prints_nil.
    + run. eexists. eexists. reflexivity.
Qed.

(** X23. [help] without arguments needs a docstring on every verb: when
    the handler of some registered verb has none, the overview stops in the
    list of verbs with [UnboundLocalError]: it has printed the
    introduction and then lines of that list, and nothing else of the state
    has changed. *)
Theorem help_overview_needs_every_docstring :
  forall s cmd,
    In cmd (_verbs s) ->
    docs (process_func cmd) = None ->
    exists es,
      help parsed py_str [] s
      = (Raise UnboundLocalError, prints (overview_intro ++ es) s).
Proof.
  intros s cmd Hin Hd.
  unfold help, help_overview, info, info_at.
  repeat (rewrite bind_emit; cbv beta). rewrite !prints_prints.
  unfold bind at 1. cbn [_verbs prints].
  destruct (_verbs s) as [|v0 vs] eqn:Hv; [destruct Hin|].
  cbn [map PyStr.max_of].
  match goal with
  | |- context [list_verbs parsed ?m (v0 :: vs) ?st] =>
      destruct (list_verbs_undocumented m (v0 :: vs) st) as [es He];
        [now exists cmd | rewrite He]
  end.
  exists es. f_equal.
  match goal with
  | |- prints es ?st = _ => change st with (prints overview_intro s)
  end.
  apply prints_prints.
Qed.

(** X24. [help] for a verb needs its docstring: when the first argument
    names exactly one verb and its handler has no docstring, the call
    raises [UnboundLocalError] right after the usage line, whatever
    arguments follow. *)
Theorem help_verb_needs_docstring :
  forall s arg more cmd,
    registry_wf (_registered_settings s) ->
    _resolve_verbs s arg = [cmd] ->
    docs (process_func cmd) = None ->
    exists es,
      help parsed py_str (arg :: more) s
      = (Raise UnboundLocalError,
         prints (es ++ [Info ("Usage: lets " ++ vcontext cmd ++ "." ++ verb cmd
                              ++ " [OPTIONS]") false 0]) s).
Proof.
  intros s arg more cmd Hwf Hv Hd.
  unfold help. cbn [help_topics]. rewrite Hv. unfold bind at 1.
  destruct (resolve_total arg true false s Hwf) as (r & es & ->).
  exists es.
  assert (Hverb : forall st,
            help_verb parsed cmd st
            = (Raise UnboundLocalError,
               prints [Info ("Usage: lets " ++ vcontext cmd ++ "." ++ verb cmd
                             ++ " [OPTIONS]") false 0] st)).
  { intros st. unfold help_verb, info. rewrite bind_emit.
    unfold bind at 1. unfold dissect, parsed. rewrite Hd. reflexivity. }
  destruct r as [[[c n] st]|]; unfold bind at 1; rewrite Hverb, prints_prints;
    reflexivity.
Qed.

End Undocumented.

(** Docstrings for the sample verbs: [build.deploy] has none. *)
Definition sample_docstrings (f : func) : option (list string) :=
  match f with
  | FPlugin "build" "deploy" => None
  | _ => Some ["A verb."]
  end.

Lemma help_overview_needs_every_docstring_witness :
  exists es,
    help (parsed sample_docstrings) sample_str [] sample
    = (Raise UnboundLocalError, prints (overview_intro ++ es) sample).
Proof.
  apply (help_overview_needs_every_docstring sample_docstrings sample_str sample
           (mkVerb "build" "deploy" (FPlugin "build" "deploy"))).
  - simpl. auto.
  - reflexivity.
Defined.

Lemma help_verb_needs_docstring_witness :
  exists es,
    help (parsed sample_docstrings) sample_str ["deploy"; "verbose"] sample
    = (Raise UnboundLocalError,
       prints (es ++ [Info "Usage: lets build.deploy [OPTIONS]" false 0]) sample).
Proof.
  apply (help_verb_needs_docstring sample_docstrings sample_str sample "deploy" ["verbose"]
           (mkVerb "build" "deploy" (FPlugin "build" "deploy"))).
  - exact sample_registry_wf.
  - reflexivity.
  - reflexivity.
Defined.

(** *** Values of the registered type *)

(** Every setting holds a value of the type it was registered with. *)
Definition typed (r : SettingsType) : Prop :=
  forall c n st, lookup r c n = Some st -> type_of (svalue st) = stype st.

(** The registry is a dict of dicts and every value has its type. *)
Definition sound (s : state) : Prop :=
  registry_wf (_registered_settings s) /\ typed (_registered_settings s).

Definition pytype_eqb (a b : pytype) : bool :=
  match a, b with
  | TStr, TStr | TList, TList | TDict, TDict => true
  | _, _ => false
  end.

Definition typedb (r : SettingsType) : bool :=
  forallb (fun cs => forallb (fun ns => pytype_eqb (type_of (svalue (snd ns))) (stype (snd ns)))
                             (snd cs)) r.

Lemma typedb_typed r : typedb r = true -> typed r.
Proof.
  unfold typedb, typed, lookup. intros H c n st Hl.
  destruct (PyDict.get c r) as [settings|] eqn:Hc; [|discriminate].
  apply get_some_in in Hc. apply get_some_in in Hl.
  rewrite forallb_forall in H. specialize (H _ Hc). simpl in H.
  rewrite forallb_forall in H. specialize (H _ Hl). simpl in H.
  destruct (type_of (svalue st)), (stype st); (reflexivity || discriminate).
Qed.

Lemma typed_assign r c n v st :
  typed r -> lookup r c n = Some st -> type_of v = stype st -> typed (assign c n v r).
Proof.
  intros Ht Hl Hv c' n' st' Hl'.
  destruct (key_dec (c, n) (c', n')) as [Heq|Hne].
  - injection Heq as <- <-. rewrite (lookup_assign_same _ _ _ v _ Hl) in Hl'.
    injection Hl' as <-. exact Hv.
  - rewrite (lookup_assign_other _ _ _ v _ _ Hne) in Hl'. exact (Ht c' n' st' Hl').
Qed.

Lemma resolve_cases name graceful allow s :
  registry_wf (_registered_settings s) ->
  (exists es, _resolve_setting name graceful allow s = (Ret None, prints es s)) \/
  (exists c n st,
     _resolve_setting name graceful allow s = (Ret (Some (c, n, st)), s) /\
     lookup (_registered_settings s) c n = Some st).
Proof.
  intros Hwf. destruct (resolve_total name graceful allow s Hwf) as (r & es & H).
  destruct r as [[[c n] st]|]; [right | left; now exists es].
  destruct (resolve_found _ _ _ _ _ _ _ _ H) as [Hs Hl].
  rewrite Hs in H. now exists c, n, st.
Qed.

Lemma sound_prints es s : sound s -> sound (prints es s).
Proof. intros H. exact H. Qed.

Lemma sound_stored c n v st s :
  sound s -> lookup (_registered_settings s) c n = Some st -> type_of v = stype st ->
  sound (snd (_save_settings (snd (set_value c n v s)))).
Proof.
  intros [Hwf Ht] Hl Hv. split; simpl.
  - apply (registry_wf_layout _ _ (layout_assign c n v _) Hwf).
  - now apply (typed_assign _ _ _ _ st).
Qed.

Lemma set_refused_cases st arg1 s :
  (exists b, set_refused st arg1 s = (Ret b, s)) \/
  set_refused st arg1 s = (Raise IndexError, s).
Proof.
  unfold set_refused. destruct (options st); [|left; now eexists].
  destruct (candidate (stype st) arg1); [left; now eexists | now right].
Qed.

Lemma new_value_type t arg1 rest : type_of (new_value t arg1 rest) = t.
Proof. now destruct t. Qed.

Lemma remove_dict_total ks : forall d,
  exists d', remove_dict (VDict d) ks = (VDict d', None).
Proof.
  induction ks as [|k tl IH]; intros d; simpl; [now eexists|].
  destruct (PyDict.contains k d); apply IH.
Qed.

Lemma sound_set args s r s' :
  sound s -> set args s = (r, s') ->
  sound s' /\ (r = Ret 0%Z \/ r = Ret (-1)%Z \/ r = Raise IndexError).
Proof.
  intros Hs. unfold set. destruct args as [|name [|arg1 rest]].
  1,2: run; intros [= <- <-]; split; [exact Hs | auto].
  unfold bind at 1.
  destruct (resolve_cases name false false s (proj1 Hs))
    as [[es ->]|(c & n & st & -> & Hl)].
  { run. intros [= <- <-]. split; [exact Hs | auto]. }
  unfold bind at 1.
  destruct (set_refused_cases st arg1 s) as [[b ->]| ->].
  2: { intros [= <- <-]. split; [exact Hs | auto]. }
  destruct b.
  { run. intros [= <- <-]. split; [exact Hs | auto]. }
  assert (Hstore : forall t, t = stype st ->
            store_if_changed c n st (new_value t arg1 rest) s = (r, s') ->
            sound s' /\ (r = Ret 0%Z \/ r = Ret (-1)%Z \/ r = Raise IndexError)).
  { intros t ->. rewrite store_if_changed_spec. intros [= <- <-]. split; [|auto].
    destruct (value_eqb _ _); [exact Hs|].
    apply (sound_stored c n _ st s Hs Hl). apply new_value_type. }
  destruct (stype st) eqn:Ht.
  - exact (Hstore TStr eq_refl).
  - exact (Hstore TList eq_refl).
  - destruct (invalid_values (arg1 :: rest)); [exact (Hstore TDict eq_refl)|].
    run. intros [= <- <-]. split; [exact Hs | auto].
Qed.

Lemma sound_add args s r s' :
  sound s -> add args s = (r, s') ->
  sound s' /\ (r = Ret 0%Z \/ r = Ret (-1)%Z).
Proof.
  intros Hs. unfold add. destruct args as [|name [|arg1 rest]].
  1,2: run; intros [= <- <-]; split; [exact Hs | auto].
  unfold bind at 1.
  destruct (resolve_cases name false false s (proj1 Hs))
    as [[es ->]|(c & n & st & -> & Hl)].
  { run. intros [= <- <-]. split; [exact Hs | auto]. }
  pose proof (proj2 Hs c n st Hl) as Hty.
  destruct (stype st) eqn:Ht.
  - run. intros [= <- <-]. split; [exact Hs | auto].
  - destruct (svalue st) as [x|l|d] eqn:Hv; try discriminate.
    intros [= <- <-]. split; [|auto].
    apply (sound_stored c n (VList (l ++ arg1 :: rest)) st s Hs Hl). now rewrite Ht.
  - destruct (invalid_values (arg1 :: rest)).
    2: { run. intros [= <- <-]. split; [exact Hs | auto]. }
    destruct (svalue st) as [x|l|d] eqn:Hv; try discriminate.
    intros [= <- <-]. split; [|auto].
    apply (sound_stored c n (VDict (PyDict.update d (parse_dict (arg1 :: rest)))) st s Hs Hl).
    now rewrite Ht.
Qed.

Lemma sound_remove args s r s' :
  sound s -> remove args s = (r, s') ->
  sound s' /\ (r = Ret 0%Z \/ r = Ret (-1)%Z).
Proof.
  intros Hs. unfold remove. destruct args as [|name [|arg1 rest]].
  1,2: run; intros [= <- <-]; split; [exact Hs | auto].
  unfold bind at 1.
  destruct (resolve_cases name false false s (proj1 Hs))
    as [[es ->]|(c & n & st & -> & Hl)].
  { run. intros [= <- <-]. split; [exact Hs | auto]. }
  pose proof (proj2 Hs c n st Hl) as Hty.
  destruct (stype st) eqn:Ht.
  - run. intros [= <- <-]. split; [exact Hs | auto].
  - destruct (svalue st) as [x|l|d] eqn:Hv; try discriminate.
    destruct (remove_list_spec (arg1 :: rest) l) as (l' & -> & _).
    intros [= <- <-]. split; [|auto].
    apply (sound_stored c n (VList l') st s Hs Hl). now rewrite Ht.
  - destruct (svalue st) as [x|l|d] eqn:Hv; try discriminate.
    destruct (remove_dict_total (arg1 :: rest) d) as (d' & ->).
    intros [= <- <-]. split; [|auto].
    apply (sound_stored c n (VDict d') st s Hs Hl). now rewrite Ht.
Qed.

Lemma sound_register c n d o v s :
  sound s -> sound (snd (register_setting c n d o v s)).
Proof.
  intros Hs. destruct (lookup (_registered_settings s) c n) as [st|] eqn:Hl.
  - unfold register_setting. now rewrite Hl.
  - destruct (register_setting_new s c n d o v Hl) as (r' & -> & Hnew & Hoth & Hwf).
    split; simpl; [exact (Hwf (proj1 Hs))|].
    intros c' n' st' Hl'. destruct (key_dec (c', n') (c, n)) as [Heq|Hne].
    + injection Heq as -> ->. rewrite Hnew in Hl'. now injection Hl' as <-.
    + rewrite (Hoth c' n' Hne) in Hl'. exact (proj2 Hs c' n' st' Hl').
Qed.

(** X25. Values keep their type.  When the registry is a dict of dicts in
    which every setting holds a value of the type of its default, it is so
    again after [set], [add], [remove] and [register_setting], whatever the
    arguments and however the call ends.  On such a registry [add] and
    [remove] never raise and return [0] or [-1], and the only exception of
    [set] is the [IndexError] of its options check. *)
Theorem values_keep_their_type :
  forall s,
    sound s ->
    (forall args,
       sound (snd (set args s)) /\
       (fst (set args s) = Ret 0%Z \/ fst (set args s) = Ret (-1)%Z \/
        fst (set args s) = Raise IndexError)) /\
    (forall args,
       sound (snd (add args s)) /\
       (fst (add args s) = Ret 0%Z \/ fst (add args s) = Ret (-1)%Z)) /\
    (forall args,
       sound (snd (remove args s)) /\
       (fst (remove args s) = Ret 0%Z \/ fst (remove args s) = Ret (-1)%Z)) /\
    (forall c n d o v, sound (snd (register_setting c n d o v s))).
Proof.
  intros s Hs. split; [|split; [|split]].
  - intros args. destruct (set args s) as [r s'] eqn:E. exact (sound_set _ _ _ _ Hs E).
  - intros args. destruct (add args s) as [r s'] eqn:E. exact (sound_add _ _ _ _ Hs E).
  - intros args. destruct (remove args s) as [r s'] eqn:E. exact (sound_remove _ _ _ _ Hs E).
  - intros c n d o v. now apply sound_register.
Qed.

Lemma sample_sound : sound sample.
Proof. split; [exact sample_registry_wf | apply typedb_typed; reflexivity]. Qed.

Lemma values_keep_their_type_witness :
  sound (snd (remove ["test.suites"; "unit"; "none"] sample)) /\
  sound (snd (set ["build.env"; "stage"] sample)).
Proof.
  destruct (values_keep_their_type sample sample_sound) as (Hset & _ & Hrem & _).
  split; [apply Hrem | apply Hset].
Defined.

Lemma resolve_allowed name graceful s c n st :
  _resolve_setting name graceful false s = (Ret (Some (c, n, st)), s) ->
  _resolve_setting name graceful true s = (Ret (Some (c, n, st)), s).
Proof.
  unfold _resolve_setting. destruct (qualify name) as [ctx nm].
  rewrite andb_false_r. destruct (PyStr.startswith "_" nm); [run; discriminate|].
  exact (fun H => H).
Qed.

(** X26. [set_setting] checks neither the type nor the options of what it
    is given.  For a list setting a command can name, [set_setting] with a
    string stores the string and writes the file; the registry then holds a
    value that is not of the registered type, and an [add] to that setting
    raises [AttributeError] where it extends the value. *)
Theorem set_setting_skips_type_check :
  forall s name c n st x arg1 rest,
    _resolve_setting name false false s = (Ret (Some (c, n, st)), s) ->
    stype st = TList ->
    type_of (svalue st) = TList ->
    exists s1,
      set_setting name (VStr x) s = (Ret None, s1) /\
      get_setting s1 c n = Some (VStr x) /\
      saved s1 = (saved s ++ [dump (_registered_settings s1)])%list /\
      ~ typed (_registered_settings s1) /\
      add (name :: arg1 :: rest) s1 = (Raise (AttributeError "extend"), s1).
Proof.
  intros s name c n st x arg1 rest Hr Ht Hv.
  destruct (resolve_found _ _ _ _ _ _ _ _ Hr) as [_ Hl].
  set (s1 := snd (_save_settings (snd (set_value c n (VStr x) s)))).
  assert (Hl1 : lookup (_registered_settings s1) c n = Some (with_value (VStr x) st)).
  { apply (lookup_assign_same _ _ _ _ _ Hl). }
  exists s1. split; [|split; [|split; [|split]]].
  - unfold set_setting, bind at 1. rewrite (resolve_allowed _ _ _ _ _ _ Hr).
    destruct (svalue st); try discriminate. reflexivity.
  - unfold get_setting. now rewrite Hl1.
  - reflexivity.
  - intros Hty. specialize (Hty c n _ Hl1). simpl in Hty. rewrite Ht in Hty. discriminate.
  - unfold add, bind at 1.
    rewrite (resolve_after_assign name false false s s1 c n st (VStr x) Hr eq_refl).
    simpl. rewrite Ht. reflexivity.
Qed.

Lemma set_setting_skips_type_check_witness :
  exists s1,
    set_setting "test.suites" (VStr "all") sample = (Ret None, s1) /\
    add ["test.suites"; "perf"] s1 = (Raise (AttributeError "extend"), s1).
Proof.
  destruct (set_setting_skips_type_check sample "test.suites" "test" "suites"
              (mkSetting "Suites to run" None (VList ["unit"; "smoke"]) TList)
              "all" "perf" [])
    as (s1 & H1 & _ & _ & _ & H2); [reflexivity | reflexivity | reflexivity |].
  exists s1. split; assumption.
Defined.

End Lets.
